(** * Campus WiFi Connector: validators, lockout and the secure local vault

    A shallow embedding of [utils/validators.py], [services/auth_service.py]
    and [utils/storage.py], with the properties the specification states
    about them.

    Python strings are sequences of code points ([list N]); Python values
    that reach the validators and the vault are the constructors of
    [PyVal]; a raised exception is the [Raise] case of [PyResult]. *)

From stdpp Require Import base decidable option list strings gmap.
From Stdlib Require Import ZArith NArith QArith Qround.

Set Warnings "-register-all".
Open Scope Z_scope.

(* ===================================================================== *)
(** ** Python values, strings and exceptions                             *)
(* ===================================================================== *)

Module Py.

(** A [str]: its code points, [ord(c)] for each character [c]. *)
Definition pystr := list N.

(** A [bytes] object: its octets. *)
Definition pybytes := list N.

Fixpoint str_of (s : string) : pystr :=
  match s with
  | EmptyString => []
  | String a r => Ascii.N_of_ascii a :: str_of r
  end.

(** The values the program passes around.  A [dict] keeps its items in
    insertion order, as CPython does; its keys are strings here. *)
Inductive PyVal : Type :=
| PNone
| PBool (b : bool)
| PInt (z : Z)
| PStr (s : pystr)
| PBytes (b : pybytes)
| PList (l : list PyVal)
| PDict (d : list (pystr * PyVal)).

Definition pydict := list (pystr * PyVal).

Inductive exn : Type :=
| TypeError
| AttributeError
| ValueError
| KeyError
| OSError
| InvalidToken
| JSONDecodeError
| UnicodeDecodeError.

Inductive PyResult (A : Type) : Type :=
| Ok (a : A)
| Raise (e : exn).
Arguments Ok {A} a.
Arguments Raise {A} e.

Definition bind {A B} (m : PyResult A) (k : A -> PyResult B) : PyResult B :=
  match m with
  | Ok a => k a
  | Raise e => Raise e
  end.

(** [try: m  except Exception: h]. *)
Definition try_except {A} (m : PyResult A) (h : exn -> A) : A :=
  match m with
  | Ok a => a
  | Raise e => h e
  end.

(** [isinstance(v, str)]. *)
Definition is_str (v : PyVal) : bool :=
  match v with PStr _ => true | _ => false end.

(** Truth value of an object, as [not v] and [if v] test it. *)
Definition truthy (v : PyVal) : bool :=
  match v with
  | PNone => false
  | PBool b => b
  | PInt z => negb (z =? 0)
  | PStr s => negb (bool_decide (s = []))
  | PBytes b => negb (bool_decide (b = []))
  | PList l => match l with [] => false | _ => true end
  | PDict d => match d with [] => false | _ => true end
  end.

(** [len(v)]: a [TypeError] for objects without a length. *)
Definition len (v : PyVal) : PyResult Z :=
  match v with
  | PStr s => Ok (Z.of_nat (length s))
  | PBytes b => Ok (Z.of_nat (length b))
  | PList l => Ok (Z.of_nat (length l))
  | PDict d => Ok (Z.of_nat (length d))
  | PNone | PBool _ | PInt _ => Raise TypeError
  end.

Definition strlen (s : pystr) : Z := Z.of_nat (length s).

(** [Py_UNICODE_ISSPACE]: the code points [str.strip()] removes and
    [str.isspace()] accepts. *)
Definition isspace_char (c : N) : bool :=
  ((9 <=? c) && (c <=? 13) || (28 <=? c) && (c <=? 32)
   || (c =? 133) || (c =? 160) || (c =? 5760)
   || (8192 <=? c) && (c <=? 8202)
   || (c =? 8232) || (c =? 8233) || (c =? 8239) || (c =? 8287)
   || (c =? 12288))%N.

Fixpoint lstrip (s : pystr) : pystr :=
  match s with
  | [] => []
  | c :: r => if isspace_char c then lstrip r else s
  end.

Definition rstrip (s : pystr) : pystr := reverse (lstrip (reverse s)).

(** [s.strip()]. *)
Definition strip (s : pystr) : pystr := rstrip (lstrip s).

(** [s.isspace()]: non-empty and whitespace only. *)
Definition isspace (s : pystr) : bool :=
  negb (bool_decide (s = [])) && forallb isspace_char s.

(** [s[:m]] for an integer [m], negative [m] counting from the end. *)
Definition slice_to (s : pystr) (m : Z) : pystr :=
  if 0 <=? m then take (Z.to_nat m) s
  else take (Z.to_nat (strlen s + m)) s.

(** [s.startswith(p)] and [s.endswith(p)]. *)
Definition startswith (s p : pystr) : bool := bool_decide (take (length p) s = p).
Definition endswith (s p : pystr) : bool :=
  bool_decide (drop (length s - length p) s = p) && bool_decide (length p <= length s)%nat.

(** [c in s] for a one-character [c]. *)
Definition char_in (c : N) (s : pystr) : bool := bool_decide (c ∈ s).

(** The first character, if there is one, is not whitespace. *)
Definition head_ok (s : pystr) : bool :=
  match s with
  | [] => true
  | c :: _ => negb (isspace_char c)
  end.

(** A string with neither leading nor trailing whitespace. *)
Definition trimmed (s : pystr) : bool := head_ok s && head_ok (reverse s).

(** [re.match(r'^[...]+$', s)] for a character class that excludes the
    line feed: one or more characters of the class, then the end of the
    string or a final line feed ([$] also matches just before it). *)
Definition match_class_plus (cls : N -> bool) (s : pystr) : bool :=
  match reverse s with
  | [] => false
  | c :: r =>
      if (c =? 10)%N
      then negb (bool_decide (r = [])) && forallb cls r
      else forallb cls s
  end.

Definition is_ascii_alnum (c : N) : bool :=
  ((48 <=? c) && (c <=? 57) || (65 <=? c) && (c <=? 90)
   || (97 <=? c) && (c <=? 122))%N.

(** [k in d], [d.get(k)] and [d[k] = v] on a dict.  Assigning to a key
    already present keeps its position; a new key goes last. *)
Fixpoint dict_get (d : pydict) (k : pystr) : option PyVal :=
  match d with
  | [] => None
  | (k', v) :: r => if bool_decide (k' = k) then Some v else dict_get r k
  end.

Definition dict_has (d : pydict) (k : pystr) : bool :=
  match dict_get d k with Some _ => true | None => false end.

Fixpoint dict_set (d : pydict) (k : pystr) (v : PyVal) : pydict :=
  match d with
  | [] => [(k, v)]
  | (k', v') :: r =>
      if bool_decide (k' = k) then (k, v) :: r else (k', v') :: dict_set r k v
  end.

(** [d.update(e)]. *)
Definition dict_update (d e : pydict) : pydict :=
  fold_left (fun acc kv => dict_set acc kv.1 kv.2) e d.

(** [b.strip()] for [bytes]: the six ASCII whitespace octets. *)
Definition bytes_isspace (c : N) : bool :=
  ((9 <=? c) && (c <=? 13) || (c =? 32))%N.

Fixpoint bytes_lstrip (b : pybytes) : pybytes :=
  match b with
  | [] => []
  | c :: r => if bytes_isspace c then bytes_lstrip r else b
  end.

Definition bytes_strip (b : pybytes) : pybytes :=
  reverse (bytes_lstrip (reverse (bytes_lstrip b))).

(** [v == s] for a string literal [s]. *)
Definition eq_str (v : PyVal) (s : pystr) : bool :=
  match v with PStr t => bool_decide (t = s) | _ => false end.

End Py.

Import Py.

(** [x ← m; k] sequences two computations that can raise. *)
#[global] Instance PyResult_bind : MBind PyResult := fun A B k m => Py.bind m k.
#[global] Instance PyResult_ret : MRet PyResult := fun A a => Ok a.

(* ===================================================================== *)
(** ** utils/validators.py: [InputValidator]                             *)
(* ===================================================================== *)

Module Validators.

(** What the validators take from [re], [ipaddress], [int] and
    [str.lower]: the regular-expression engine applied to a pattern
    written as in the source, and the two parsers.  They are parameters
    of the development. *)
Class StrLib : Type := {
  (** [re.match(pattern, s)] found a match *)
  re_match : string -> pystr -> bool;
  (** [re.match(pattern, s, re.IGNORECASE)] found a match *)
  re_match_ignorecase : string -> pystr -> bool;
  (** [re.search(pattern, s)] found a match *)
  re_search : string -> pystr -> bool;
  (** [re.sub(pattern, '', s)] *)
  re_sub_empty : string -> pystr -> pystr;
  (** [s.lower()] *)
  str_lower : pystr -> pystr;
  (** [ipaddress.ip_address(s)] returns, rather than raising [ValueError] *)
  ip_address : pystr -> bool;
  (** [int(s)]; [None] when it raises [ValueError] *)
  int_of_str : pystr -> option Z
}.

(** [[a-zA-Z0-9._@-]] *)
Definition username_class (c : N) : bool :=
  is_ascii_alnum c || char_in c (str_of "._@-").

Definition validate_username (username : PyVal) : bool :=
  if negb (truthy username) || negb (is_str username) then false else
  match username with
  | PStr s =>
      let username := strip s in
      if (strlen username <? 2) || (100 <? strlen username) then false
      else if negb (match_class_plus username_class username) then false
      else true
  | _ => false
  end.

Definition validate_password (password : PyVal) : bool :=
  if negb (truthy password) || negb (is_str password) then false else
  match password with
  | PStr s =>
      if (strlen s <? 4) || (256 <? strlen s) then false
      else if isspace s then false
      else true
  | _ => false
  end.

(** The loop of [validate_campus_ssid]: no [ord(char) < 32] and no
    [ord(char) == 127]. *)
Definition ssid_char_ok (c : N) : bool := negb ((c <? 32) || (c =? 127))%N.

Definition validate_campus_ssid (ssid : PyVal) : bool :=
  if negb (truthy ssid) || negb (is_str ssid) then false else
  match ssid with
  | PStr s =>
      let ssid := strip s in
      if (strlen ssid <? 1) || (32 <? strlen ssid) then false
      else forallb ssid_char_ok ssid
  | _ => false
  end.

(** [ord(char) >= 32 or char in '\t\n\r'] *)
Definition sanitize_keep (c : N) : bool :=
  (32 <=? c)%N || char_in c [9; 10; 13]%N.

Definition sanitize_input (input_str : PyVal) (max_length : Z) : pystr :=
  if negb (truthy input_str) || negb (is_str input_str) then [] else
  match input_str with
  | PStr s =>
      let sanitized := List.filter sanitize_keep s in
      let sanitized :=
        if max_length <? strlen sanitized then slice_to sanitized max_length
        else sanitized in
      strip sanitized
  | _ => []
  end.

(** The default of the [max_length] argument. *)
Definition default_max_length : Z := 1000.

(** [clean_ssid]: only [not ssid] guards it, so a non-empty object that
    is not a string reaches [ssid.strip()].  A [bytes] object has that
    method; iterating over what is left gives integers, and [ord] of the
    first one raises [TypeError]; when nothing is left the join of no
    characters is the empty string. *)
Definition clean_ssid (ssid : PyVal) : PyResult pystr :=
  if negb (truthy ssid) then Ok [] else
  match ssid with
  | PStr s =>
      let cleaned := strip s in
      let cleaned := List.filter (fun c => (32 <=? c)%N) cleaned in
      let cleaned := if 32 <? strlen cleaned then slice_to cleaned 32 else cleaned in
      Ok cleaned
  | PBytes b =>
      match bytes_strip b with
      | [] => Ok []
      | _ :: _ => Raise TypeError
      end
  | _ => Raise AttributeError
  end.

Definition validate_file_path (file_path : PyVal) : bool :=
  if negb (truthy file_path) || negb (is_str file_path) then false else
  match file_path with
  | PStr s =>
      if existsb (fun c => char_in c s) [60; 62; 58; 34; 124; 63; 42]%N then false
      else if 260 <? strlen s then false
      else true
  | _ => false
  end.

Section WithLib.
Context {SL : StrLib}.

Definition validate_email (email : PyVal) : bool :=
  if negb (truthy email) || negb (is_str email) then false else
  match email with
  | PStr s =>
      if negb (re_match "^[a-zA-Z0-9._%+-]+@[a-zA-Z0-9.-]+\.[a-zA-Z]{2,}$" s) then false
      else if 254 <? strlen s then false
      else true
  | _ => false
  end.

Definition validate_domain (domain : PyVal) : bool :=
  if negb (truthy domain) || negb (is_str domain) then false else
  match domain with
  | PStr s =>
      let domain := str_lower (strip s) in
      if (strlen domain <? 1) || (253 <? strlen domain) then false
      else if negb (re_match
        "^[a-zA-Z0-9]([a-zA-Z0-9-]{0,61}[a-zA-Z0-9])?(\.[a-zA-Z0-9]([a-zA-Z0-9-]{0,61}[a-zA-Z0-9])?)*$"
        domain) then false
      else true
  | _ => false
  end.

Definition validate_ip_address (ip : PyVal) : bool :=
  if negb (truthy ip) || negb (is_str ip) then false else
  match ip with
  | PStr s => ip_address s
  | _ => false
  end.

Definition validate_port (port : PyVal) : bool :=
  if negb (truthy port) || negb (is_str port) then false else
  match port with
  | PStr s =>
      match int_of_str s with
      | Some port_num => (1 <=? port_num) && (port_num <=? 65535)
      | None => false
      end
  | _ => false
  end.

Definition validate_url (url : PyVal) : bool :=
  if negb (truthy url) || negb (is_str url) then false else
  match url with
  | PStr s =>
      if negb (re_match_ignorecase "^https?://[^\s/$.?#].[^\s]*$" s) then false
      else if 2048 <? strlen s then false
      else true
  | _ => false
  end.

Definition validate_phone_number (phone : PyVal) : bool :=
  if negb (truthy phone) || negb (is_str phone) then false else
  match phone with
  | PStr s =>
      let phone_clean := re_sub_empty "[^\d+]" s in
      if negb (re_match "^\+?[\d]{7,15}$" phone_clean) then false
      else true
  | _ => false
  end.

Definition mac_patterns : list string :=
  [ "^([0-9A-Fa-f]{2}[:-]){5}([0-9A-Fa-f]{2})$";
    "^([0-9A-Fa-f]{4}\.){2}([0-9A-Fa-f]{4})$";
    "^([0-9A-Fa-f]{12})$" ]%string.

Definition validate_mac_address (mac : PyVal) : bool :=
  if negb (truthy mac) || negb (is_str mac) then false else
  match mac with
  | PStr s => existsb (fun pattern => re_match pattern s) mac_patterns
  | _ => false
  end.

Definition dangerous_patterns : list string :=
  [ "<script"; "javascript:"; "vbscript:"; "on\w+\s*="; "eval\s*\(";
    "expression\s*\("; "url\s*\("; "@import" ]%string.

Definition is_safe_string (text : PyVal) (allow_special : bool) : bool :=
  if negb (truthy text) || negb (is_str text) then false else
  match text with
  | PStr s =>
      let text_lower := str_lower s in
      if existsb (fun pattern => re_search pattern text_lower) dangerous_patterns
      then false
      else if negb allow_special
              && existsb (fun c => char_in c s) [60; 62; 34; 39; 38; 92; 47; 37]%N
      then false
      else true
  | _ => false
  end.

End WithLib.

(** The dictionary [validate_credentials_format] returns. *)
Record CredentialsFormat : Type := {
  username_valid : bool;
  password_valid : bool;
  username_error : pystr;
  password_error : pystr;
  overall_valid : bool
}.

(** The [if not username / elif len(username) < 2 / ...] chain that
    picks the message once [validate_username] has said no. *)
Definition username_error_for (username : PyVal) : PyResult pystr :=
  if negb (truthy username) then Ok (str_of "Username cannot be empty")
  else
    n ← len username;
    if n <? 2 then Ok (str_of "Username must be at least 2 characters")
    else if 100 <? n then Ok (str_of "Username cannot exceed 100 characters")
    else Ok (str_of "Username contains invalid characters").

Definition password_error_for (password : PyVal) : PyResult pystr :=
  if negb (truthy password) then Ok (str_of "Password cannot be empty")
  else
    n ← len password;
    if n <? 4 then Ok (str_of "Password must be at least 4 characters")
    else if 256 <? n then Ok (str_of "Password cannot exceed 256 characters")
    else Ok (str_of "Password is invalid").

Definition validate_credentials_format (username password : PyVal)
  : PyResult CredentialsFormat :=
  u ← (if negb (validate_username username)
       then e ← username_error_for username; Ok (false, e)
       else Ok (true, []));
  p ← (if negb (validate_password password)
       then e ← password_error_for password; Ok (false, e)
       else Ok (true, []));
  Ok {| username_valid := u.1; password_valid := p.1;
        username_error := u.2; password_error := p.2;
        overall_valid := u.1 && p.1 |}.

(** The dictionary [validate_network_config] returns. *)
Record NetworkResult : Type := {
  valid : bool;
  errors : list pystr
}.

Definition add_error (results : NetworkResult) (msg : string) : NetworkResult :=
  {| valid := false; errors := errors results ++ [str_of msg] |}.

Definition valid_eap_methods : list pystr :=
  map str_of ["PEAP"; "TTLS"; "TLS"; "PWD"; "FAST"]%string.

Definition valid_phase2_methods : list pystr :=
  map str_of ["MSCHAPV2"; "CHAP"; "PAP"; "GTC"]%string.

(** The dictionary [validate_and_clean_input] returns. *)
Record CleanResult : Type := {
  cr_valid : bool;
  cr_cleaned : pystr;
  cr_error : pystr
}.

Section Aggregates.
Context {SL : StrLib}.

(** [if key in config and config[key]: if not check(config[key]): ...] *)
Definition check_optional (config : pydict) (key : string)
    (check : PyVal -> bool) (msg : string) (results : NetworkResult)
  : NetworkResult :=
  match dict_get config (str_of key) with
  | Some v =>
      if truthy v then
        if negb (check v) then add_error results msg else results
      else results
  | None => results
  end.

(** [if key in config: if config[key] not in methods: ...] *)
Definition check_method (config : pydict) (key : string)
    (methods : list pystr) (msg : string) (results : NetworkResult)
  : NetworkResult :=
  match dict_get config (str_of key) with
  | Some v =>
      if negb (existsb (eq_str v) methods) then add_error results msg
      else results
  | None => results
  end.

Definition validate_network_config (config : pydict) : NetworkResult :=
  let results := {| valid := true; errors := [] |} in
  let results :=
    match dict_get config (str_of "ssid") with
    | Some v =>
        if negb (validate_campus_ssid v)
        then add_error results "Invalid SSID format" else results
    | None => results
    end in
  let results :=
    check_optional config "domain" validate_domain
      "Invalid domain format" results in
  let results :=
    check_optional config "ca_cert" validate_file_path
      "Invalid CA certificate path" results in
  let results :=
    check_optional config "client_cert" validate_file_path
      "Invalid client certificate path" results in
  let results :=
    check_optional config "private_key" validate_file_path
      "Invalid private key path" results in
  let results :=
    check_method config "eap_method" valid_eap_methods
      "Invalid EAP method. Must be one of: PEAP, TTLS, TLS, PWD, FAST"
      results in
  check_method config "phase2_auth" valid_phase2_methods
    "Invalid Phase 2 auth method. Must be one of: MSCHAPV2, CHAP, PAP, GTC"
    results.

Definition clean_outcome (ok : bool) (cleaned : pystr) (msg : string)
  : CleanResult :=
  if ok then {| cr_valid := true; cr_cleaned := cleaned; cr_error := [] |}
  else {| cr_valid := false; cr_cleaned := []; cr_error := str_of msg |}.

Definition validate_and_clean_input (input_str : PyVal) (input_type : pystr)
  : PyResult CleanResult :=
  if negb (truthy input_str) then
    Ok {| cr_valid := false; cr_cleaned := [];
          cr_error := input_type ++ str_of " cannot be empty" |}
  else
    let cleaned := sanitize_input input_str default_max_length in
    if bool_decide (input_type = str_of "username") then
      Ok (clean_outcome (validate_username (PStr cleaned)) cleaned
            "Invalid username format")
    else if bool_decide (input_type = str_of "password") then
      Ok (clean_outcome (validate_password (PStr cleaned)) cleaned
            "Invalid password format")
    else if bool_decide (input_type = str_of "ssid") then
      cleaned ← clean_ssid (PStr cleaned);
      Ok (clean_outcome (validate_campus_ssid (PStr cleaned)) cleaned
            "Invalid SSID format")
    else if bool_decide (input_type = str_of "email") then
      Ok (clean_outcome (validate_email (PStr cleaned)) (str_lower cleaned)
            "Invalid email format")
    else if bool_decide (input_type = str_of "domain") then
      Ok (clean_outcome (validate_domain (PStr cleaned)) (str_lower cleaned)
            "Invalid domain format")
    else
      Ok {| cr_valid := false; cr_cleaned := [];
            cr_error := str_of "Unknown input type: " ++ input_type |}.

End Aggregates.

End Validators.

(* ===================================================================== *)
(** ** services/auth_service.py: [AuthService]                           *)
(* ===================================================================== *)

Module Auth.

(** Readings of [time.time()], in seconds, are rationals.  A call of
    [authenticate] is taken to be instantaneous: every reading during
    the call is the argument [now]. *)
Definition Qltb (x y : Q) : bool := negb (Qle_bool y x).

(** The attributes [__init__] sets. *)
Record AuthService : Type := {
  config : pydict;
  authenticated : bool;
  auth_token : option PyVal;
  auth_expiry : option Q;
  last_auth_attempt : Q;
  failed_attempts : Z;
  max_attempts : Z;
  lockout_duration : Q
}.

(** [AuthService(config)] *)
Definition __init__ (config : pydict) : AuthService :=
  {| config := config;
     authenticated := false;
     auth_token := None;
     auth_expiry := None;
     last_auth_attempt := 0%Q;
     failed_attempts := 0;
     max_attempts := 5;
     lockout_duration := 300%Q |}.

(** The three lines every failure path repeats:
    [self.failed_attempts += 1; self.last_auth_attempt = time.time()]. *)
Definition record_failure (now : Q) (self : AuthService) : AuthService :=
  {| config := config self;
     authenticated := authenticated self;
     auth_token := auth_token self;
     auth_expiry := auth_expiry self;
     last_auth_attempt := now;
     failed_attempts := failed_attempts self + 1;
     max_attempts := max_attempts self;
     lockout_duration := lockout_duration self |}.

(** [self.authenticated = True; self.auth_token = token] *)
Definition set_authenticated (token : option PyVal) (self : AuthService)
  : AuthService :=
  {| config := config self;
     authenticated := true;
     auth_token := token;
     auth_expiry := auth_expiry self;
     last_auth_attempt := last_auth_attempt self;
     failed_attempts := failed_attempts self;
     max_attempts := max_attempts self;
     lockout_duration := lockout_duration self |}.

(** [self.auth_expiry = expiry; self.failed_attempts = 0] *)
Definition set_expiry_and_reset (expiry : Q) (self : AuthService)
  : AuthService :=
  {| config := config self;
     authenticated := authenticated self;
     auth_token := auth_token self;
     auth_expiry := Some expiry;
     last_auth_attempt := last_auth_attempt self;
     failed_attempts := 0;
     max_attempts := max_attempts self;
     lockout_duration := lockout_duration self |}.

(** [self.failed_attempts = 0; self.last_auth_attempt = 0] *)
Definition reset_lockout (self : AuthService) : AuthService :=
  {| config := config self;
     authenticated := authenticated self;
     auth_token := auth_token self;
     auth_expiry := auth_expiry self;
     last_auth_attempt := 0%Q;
     failed_attempts := 0;
     max_attempts := max_attempts self;
     lockout_duration := lockout_duration self |}.

Definition is_locked_out (now : Q) (self : AuthService) : bool * AuthService :=
  if max_attempts self <=? failed_attempts self then
    let time_since_last_attempt := (now - last_auth_attempt self)%Q in
    if Qltb time_since_last_attempt (lockout_duration self) then (true, self)
    else (false, reset_lockout self)
  else (false, self).

(** [[a-zA-Z0-9._-]] *)
Definition username_class (c : N) : bool :=
  is_ascii_alnum c || char_in c (str_of "._-").

Definition _validate_username_format (username : PyVal) : PyResult bool :=
  n ← len username;
  if (n <? 3) || (50 <? n) then Ok false
  else
    match username with
    | PStr s =>
        if negb (match_class_plus username_class s) then Ok false
        else if startswith s (str_of ".") || endswith s (str_of ".") then Ok false
        else Ok true
    | _ => Raise TypeError
    end.

Definition _validate_password_format (password : PyVal) : PyResult bool :=
  n ← len password;
  if n <? 6 then Ok false
  else if 128 <? n then Ok false
  else Ok true.

(** What the service takes from [json], [base64], [hashlib], [hmac]
    and the network. *)
Class AuthEnv : Type := {
  (** [_generate_local_token(username)] at a clock reading, for the
      string that has passed [_validate_username_format] *)
  _generate_local_token : pystr -> Q -> pystr;
  (** building the signed payload: [_hash_password] and
      [_generate_signature]; [Raise] when they do *)
  build_payload : pydict -> PyVal -> PyVal -> Q -> PyResult pybytes
}.

(** What [self.session.post] and [response.json()] come back with. *)
Inductive ServerReply : Type :=
| RequestException
| Response (status_code : Z) (json : PyResult PyVal).

(** [self.config.get('auth_server', {})] followed by [.get(key)]. *)
Definition auth_config_get (self : AuthService) (key : string)
  : PyResult (option PyVal) :=
  match dict_get (config self) (str_of "auth_server") with
  | None => Ok None
  | Some (PDict d) => Ok (dict_get d (str_of key))
  | Some _ => Raise AttributeError
  end.

Definition opt_truthy (v : option PyVal) : bool :=
  match v with Some v => truthy v | None => false end.

(** [time.time() + result.get('expires_in', 3600)] *)
Definition expiry_from (now : Q) (v : option PyVal) : PyResult Q :=
  match v with
  | None => Ok (now + 3600)%Q
  | Some (PInt z) => Ok (now + inject_Z z)%Q
  | Some (PBool b) => Ok (now + (if b then 1 else 0))%Q
  | Some _ => Raise TypeError
  end.

Section WithEnv.
Context {AE : AuthEnv}.

Definition _authenticate_local (now : Q) (username password : PyVal)
    (self : AuthService) : bool * AuthService :=
  match _validate_username_format username with
  | Raise _ => (false, record_failure now self)
  | Ok false => (false, record_failure now self)
  | Ok true =>
      match _validate_password_format password with
      | Raise _ => (false, record_failure now self)
      | Ok false => (false, record_failure now self)
      | Ok true =>
          match username with
          | PStr s =>
              let token := _generate_local_token s now in
              (true, set_expiry_and_reset (now + 3600)%Q
                       (set_authenticated (Some (PStr token)) self))
          | _ =>
              (false, record_failure now (set_authenticated (auth_token self) self))
          end
      end
  end.

(** The body of the [try] in [_authenticate_with_server], after the
    URL check, for a reply already received. *)
Definition server_verdict (now : Q) (reply : ServerReply)
    (self : AuthService) : bool * AuthService :=
  match reply with
  | RequestException => (false, record_failure now self)
  | Response status_code json =>
      if status_code =? 200 then
        match json with
        | Raise _ => (false, record_failure now self)
        | Ok (PDict result) =>
            if opt_truthy (dict_get result (str_of "success")) then
              let self :=
                set_authenticated (dict_get result (str_of "token")) self in
              match expiry_from now (dict_get result (str_of "expires_in")) with
              | Ok expiry => (true, set_expiry_and_reset expiry self)
              | Raise _ => (false, record_failure now self)
              end
            else (false, record_failure now self)
        | Ok _ => (false, record_failure now self)
        end
      else (false, record_failure now self)
  end.

Definition _authenticate_with_server (now : Q) (reply : ServerReply)
    (username password : PyVal) (self : AuthService) : bool * AuthService :=
  match auth_config_get self "url" with
  | Raise _ => (false, record_failure now self)
  | Ok url =>
      if negb (opt_truthy url) then (false, self)
      else
        match build_payload (config self) username password now with
        | Raise _ => (false, record_failure now self)
        | Ok _ => server_verdict now reply self
        end
  end.

(** [authenticate(username, password)] at clock reading [now]; [reply]
    is what the server would answer if it is asked. *)
Definition authenticate (now : Q) (reply : ServerReply)
    (username password : PyVal) (self : AuthService) : bool * AuthService :=
  let (locked, self) := is_locked_out now self in
  if locked then (false, self)
  else if negb (truthy username) || negb (truthy password) then (false, self)
  else
    match auth_config_get self "enabled" with
    | Raise _ => (false, record_failure now self)
    | Ok enabled =>
        if opt_truthy enabled
        then _authenticate_with_server now reply username password self
        else _authenticate_local now username password self
    end.

End WithEnv.

End Auth.

(* ===================================================================== *)
(** ** The operating system as the vault sees it                         *)
(* ===================================================================== *)

Module OS.

(** [platform.system()], [platform.machine()], [os.environ] and the
    home directory [os.path.expanduser('~')] gives. *)
Record Env : Type := {
  platform_system : pystr;
  platform_machine : pystr;
  environ : gmap pystr pystr;
  home : pystr
}.

(** [os.environ.get(name, default)] *)
Definition environ_get (env : Env) (name : string) (default : pystr) : pystr :=
  match environ env !! str_of name with
  | Some v => v
  | None => default
  end.

(** [s.split('/')] *)
Fixpoint split_slash (s : pystr) : list pystr :=
  match s with
  | [] => [[]]
  | c :: r =>
      if (c =? 47)%N then [] :: split_slash r
      else match split_slash r with
           | h :: t => (c :: h) :: t
           | [] => [[c]]
           end
  end.

(** [posixpath.join(a, b)] *)
Definition join (a b : pystr) : pystr :=
  if startswith b [47%N] then b
  else if bool_decide (a = []) || endswith a [47%N] then a ++ b
  else a ++ [47%N] ++ b.

(** One round of the loop of [posixpath.normpath]; the components
    collected so far are kept last-first. *)
Definition norm_step (absolute : bool) (new_comps : list pystr) (comp : pystr)
  : list pystr :=
  if bool_decide (comp = []) || bool_decide (comp = str_of ".") then new_comps
  else if negb (bool_decide (comp = str_of ".."))
          || (negb absolute && bool_decide (new_comps = []))
          || bool_decide (head new_comps = Some (str_of ".."))
  then comp :: new_comps
  else tail new_comps.

(** The file a path names: whether the path is absolute, and its
    normalised components, first-first.  Two paths name the same file
    when [posixpath.normpath] maps them to the same string; symbolic
    links are not modelled. *)
Definition fileid : Type := bool * list pystr.

Definition resolve (path : pystr) : fileid :=
  let absolute := startswith path [47%N] in
  (absolute, reverse (fold_left (norm_step absolute) (split_slash path) [])).

Definition parent (f : fileid) : fileid := (f.1, removelast f.2).

Definition child (d : fileid) (name : pystr) : fileid := (d.1, d.2 ++ [name]).

(** A name that is one path component: no slash, and none of the
    three components [normpath] treats specially. *)
Definition plain (name : pystr) : bool :=
  negb (char_in 47%N name)
  && negb (bool_decide (name = []))
  && negb (bool_decide (name = str_of "."))
  && negb (bool_decide (name = str_of "..")).

(** An [os.remove] call and how it ended. *)
Inductive event : Type :=
| Removed (f : fileid)
| RemoveFailed (f : fileid).

Definition is_removed (ev : event) : bool :=
  match ev with Removed _ => true | RemoveFailed _ => false end.

(** The file system: regular files with their contents, in the order
    [os.listdir] reports them; directories; the objects the system
    refuses to change or remove, and those it refuses to read, both with
    [PermissionError]; and the [os.remove] calls made so far.  Permission
    bits themselves are not modelled. *)
Record FS : Type := {
  files : list (fileid * pybytes);
  dirs : list fileid;
  readonly : list fileid;
  unreadable : list fileid;
  removals : list event
}.

Fixpoint lookup_file (l : list (fileid * pybytes)) (f : fileid) : option pybytes :=
  match l with
  | [] => None
  | (g, b) :: r => if bool_decide (g = f) then Some b else lookup_file r f
  end.

Fixpoint store_file (l : list (fileid * pybytes)) (f : fileid) (b : pybytes)
  : list (fileid * pybytes) :=
  match l with
  | [] => [(f, b)]
  | (g, c) :: r =>
      if bool_decide (g = f) then (f, b) :: r else (g, c) :: store_file r f b
  end.

Definition drop_file (l : list (fileid * pybytes)) (f : fileid)
  : list (fileid * pybytes) :=
  List.filter (fun gb => negb (bool_decide (gb.1 = f))) l.

Definition is_file (fs : FS) (f : fileid) : bool :=
  match lookup_file (files fs) f with Some _ => true | None => false end.

Definition is_dir (fs : FS) (f : fileid) : bool := bool_decide (f ∈ dirs fs).

Definition is_readonly (fs : FS) (f : fileid) : bool := bool_decide (f ∈ readonly fs).

Definition is_unreadable (fs : FS) (f : fileid) : bool :=
  bool_decide (f ∈ unreadable fs).

(** [os.path.exists(path)] *)
Definition path_exists (path : pystr) (fs : FS) : bool :=
  is_file fs (resolve path) || is_dir fs (resolve path).

(** [open(path, 'rb').read()] *)
Definition read_file (path : pystr) (fs : FS) : PyResult pybytes :=
  let f := resolve path in
  if is_unreadable fs f then Raise OSError
  else match lookup_file (files fs) f with
       | Some b => Ok b
       | None => Raise OSError
       end.

(** [open(path, 'wb').write(b)]: the directory must be there, and the
    path must not name a directory. *)
Definition write_file (path : pystr) (b : pybytes) (fs : FS) : PyResult FS :=
  let f := resolve path in
  if is_readonly fs f || is_dir fs f || negb (is_dir fs (parent f))
  then Raise OSError
  else Ok {| files := store_file (files fs) f b; dirs := dirs fs;
             readonly := readonly fs; unreadable := unreadable fs;
             removals := removals fs |}.

(** [os.remove(path)]; the call is recorded whether or not it raises. *)
Definition os_remove (path : pystr) (fs : FS) : PyResult unit * FS :=
  let f := resolve path in
  if negb (is_readonly fs f) && is_file fs f then
    (Ok tt, {| files := drop_file (files fs) f; dirs := dirs fs;
               readonly := readonly fs; unreadable := unreadable fs;
               removals := removals fs ++ [Removed f] |})
  else
    (Raise OSError, {| files := files fs; dirs := dirs fs;
                       readonly := readonly fs; unreadable := unreadable fs;
                       removals := removals fs ++ [RemoveFailed f] |}).

(** The name under which [f] appears in directory [d], if it does. *)
Definition name_in (d f : fileid) : option pystr :=
  match last f.2 with
  | Some name =>
      if bool_decide (f = child d name) && plain name then Some name else None
  | None => None
  end.

(** [os.listdir(path)]: the files, then the sub-directories. *)
Definition os_listdir (path : pystr) (fs : FS) : PyResult (list pystr) :=
  let d := resolve path in
  if is_unreadable fs d || negb (is_dir fs d) then Raise OSError
  else Ok (omap (fun gb => name_in d gb.1) (files fs)
           ++ omap (name_in d) (dirs fs)).

(** The directories above [f], nearest last, [f] itself included. *)
Definition ancestors (f : fileid) : list fileid :=
  map (fun n => (f.1, take n f.2)) (seq 0 (S (length f.2))).

(** [os.makedirs(path, exist_ok=True)] *)
Definition os_makedirs (path : pystr) (fs : FS) : PyResult FS :=
  let f := resolve path in
  if is_dir fs f then Ok fs
  else if existsb (fun a => is_file fs a || is_readonly fs a) (ancestors f)
  then Raise OSError
  else Ok {| files := files fs;
             dirs := dirs fs ++ List.filter (fun a => negb (is_dir fs a)) (ancestors f);
             readonly := readonly fs; unreadable := unreadable fs;
             removals := removals fs |}.

(** What a run of [os.remove] calls does: directories and refusals stay,
    the calls [evs] are appended to the record, and every file is either
    as it was or gone with a successful call recorded for it. *)
Definition only_removes (fs fs' : FS) (evs : list event) : Prop :=
  dirs fs' = dirs fs
  /\ readonly fs' = readonly fs
  /\ unreadable fs' = unreadable fs
  /\ removals fs' = removals fs ++ evs
  /\ forall f,
       lookup_file (files fs') f = lookup_file (files fs) f
       \/ (lookup_file (files fs') f = None /\ Removed f ∈ evs).

(** An [os.remove] call on [path] is among [evs]. *)
Definition attempted (path : pystr) (evs : list event) : Prop :=
  Removed (resolve path) ∈ evs \/ RemoveFailed (resolve path) ∈ evs.

End OS.

(* ===================================================================== *)
(** ** utils/storage.py: [SecureStorage]                                 *)
(* ===================================================================== *)

Module Storage.
Import OS.

(** What the vault takes from [cryptography] and [base64].  Fernet
    draws an initialisation vector and reads the clock when it
    encrypts; both are the argument [iv]. *)
Class Cipher : Type := {
  (** [base64.urlsafe_b64encode(PBKDF2HMAC(SHA256, 32, salt,
      100000).derive(seed.encode()))] *)
  derive_key : pybytes -> pystr -> pybytes;
  (** [Fernet(key)] accepts the key *)
  fernet_key_ok : pybytes -> bool;
  (** [Fernet(key).encrypt(data)] *)
  encrypt : pybytes -> pybytes -> pybytes -> pybytes;
  (** [Fernet(key).decrypt(token)], raising [InvalidToken] *)
  decrypt : pybytes -> pybytes -> PyResult pybytes;
  derive_key_ok : forall salt seed, fernet_key_ok (derive_key salt seed) = true;
  decrypt_encrypt : forall key iv data,
    fernet_key_ok key = true -> decrypt key (encrypt key iv data) = Ok data
}.

(** The surrogate code points, and the code point a pair of them
    encodes. *)
Definition is_high_surrogate (c : N) : bool := ((55296 <=? c) && (c <=? 56319))%N.
Definition is_low_surrogate (c : N) : bool := ((56320 <=? c) && (c <=? 57343))%N.
Definition join_surrogates (hi lo : N) : N :=
  (65536 + (hi - 55296) * 1024 + (lo - 56320))%N.

(** What a string is after [json.loads(json.dumps(s))].  [json.dumps]
    writes every code point above 127 as a [\uXXXX] escape, one above
    65535 as the two escapes of its surrogate pair; [json.loads], reading
    from the left, joins the escape of a high surrogate with the escape
    of a low surrogate that follows it.  A string that holds such a pair
    as two code points therefore comes back one code point shorter. *)
Fixpoint merge_surrogates (s : pystr) : pystr :=
  match s with
  | [] => []
  | hi :: t =>
      match t with
      | lo :: r =>
          if is_high_surrogate hi && is_low_surrogate lo
          then join_surrogates hi lo :: merge_surrogates r
          else hi :: merge_surrogates t
      | [] => [hi]
      end
  end.

(** No high surrogate of [s] is followed by a low one. *)
Fixpoint pair_free (s : pystr) : bool :=
  match s with
  | [] => true
  | hi :: t =>
      match t with
      | lo :: _ => negb (is_high_surrogate hi && is_low_surrogate lo) && pair_free t
      | [] => true
      end
  end.

(** What a value is after [json.loads(json.dumps(v))]: its strings and
    keys with their surrogate pairs joined; the items of an object are
    assigned to the new dict one after the other, so of two keys that
    have become equal the first keeps its place and the second gives
    the value. *)
Fixpoint json_image (v : PyVal) : PyVal :=
  match v with
  | PStr s => PStr (merge_surrogates s)
  | PList l => PList (map json_image l)
  | PDict d =>
      PDict (dict_update []
               ((fix items (d : pydict) : pydict :=
                   match d with
                   | [] => []
                   | (k, x) :: r => (merge_surrogates k, json_image x) :: items r
                   end) d))
  | PNone | PBool _ | PInt _ | PBytes _ => v
  end.


(** What the vault takes from [json] and from the text codec of
    [str.encode], [bytes.decode] and text-mode files.  A [PDict] that
    repeats a key denotes no dictionary; [json_dumps] is taken to raise
    on it. *)
Class Json : Type := {
  (** [json.dumps(v, indent=2)] *)
  json_dumps : PyVal -> PyResult pystr;
  (** what [json.dump(v, f, indent=2)] has written when it raises *)
  json_dump_partial : PyVal -> pystr;
  (** [json.loads(text)] *)
  json_loads : pystr -> PyResult PyVal;
  (** [text.encode()] *)
  str_encode : pystr -> PyResult pybytes;
  (** [data.decode()] *)
  bytes_decode : pybytes -> PyResult pystr;
  (** [json.loads] reads back what [json.dumps] wrote, up to the joining
      of surrogate pairs *)
  json_loads_dumps : forall v text,
    json_dumps v = Ok text -> json_loads text = Ok (json_image v);
  (** decoding undoes encoding *)
  decode_encode : forall text data, str_encode text = Ok data -> bytes_decode data = Ok text
}.

(** The attributes [__init__] sets; [cipher] holds the key of the
    [Fernet] object, or [None]. *)
Record SecureStorage : Type := {
  storage_dir : pystr;
  key_file : pystr;
  data_file : pystr;
  config_file : pystr;
  cipher : option pybytes
}.

(** The three paths are the ones [__init__] derives from the storage
    directory. *)
Definition well_formed (self : SecureStorage) : Prop :=
  key_file self = join (storage_dir self) (str_of "storage.key")
  /\ data_file self = join (storage_dir self) (str_of "credentials.dat")
  /\ config_file self = join (storage_dir self) (str_of "config.json").

(** [_get_machine_seed]: nothing in its [try] block raises, so the
    [except] branch with the default seed is never taken. *)
Definition _get_machine_seed (env : Env) : pystr :=
  let seed_components := [] in
  let seed_components := seed_components ++ [platform_system env] in
  let seed_components := seed_components ++ [platform_machine env] in
  let seed_components :=
    seed_components
    ++ [environ_get env "USERNAME" (environ_get env "USER" (str_of "unknown"))] in
  let seed_components := seed_components ++ [str_of "campus-wifi-connector-v1"] in
  concat seed_components.

(** [_set_secure_permissions] swallows what [os.chmod] raises, and
    permission bits are not part of [FS]. *)
Definition _set_secure_permissions (file_path : pystr) (fs : FS) : FS := fs.

(** [opt_truthy (d.get(k))] is the truth value of [d.get(k, False)]. *)
Definition opt_truthy (v : option PyVal) : bool :=
  match v with Some v => truthy v | None => false end.

(** The dictionary [save_credentials] builds before it serialises. *)
Definition credentials_data (username password campus : pystr) (remember : bool)
    (timestamp : pystr) (additional_data : option pydict) : pydict :=
  let data :=
    [ (str_of "username", PStr username);
      (str_of "password", PStr password);
      (str_of "campus", PStr campus);
      (str_of "remember", PBool remember);
      (str_of "version", PStr (str_of "1.0"));
      (str_of "created_at", PStr timestamp) ] in
  match additional_data with
  | Some extra => if truthy (PDict extra) then dict_update data extra else data
  | None => data
  end.

(** The envelope [save_secure_data] builds. *)
Definition secure_envelope (key : pystr) (data : PyVal) (timestamp : pystr)
  : pydict :=
  [ (str_of "key", PStr key);
    (str_of "data", data);
    (str_of "version", PStr (str_of "1.0"));
    (str_of "created_at", PStr timestamp) ].

(** [os.path.join(self.storage_dir, f'{key}.dat')] *)
Definition secure_file (self : SecureStorage) (key : pystr) : pystr :=
  join (storage_dir self) (key ++ str_of ".dat").

(** The objects a caller shares with the vault, by identity. *)
Abbreviation Heap := (gmap nat PyVal).

(** [obj[k] = v] *)
Definition setitem (heap : Heap) (obj : nat) (k : pystr) (v : PyVal)
  : PyResult Heap :=
  match heap !! obj with
  | Some (PDict d) => Ok (<[obj := PDict (dict_set d k v)]> heap)
  | _ => Raise TypeError
  end.

(** [if os.path.exists(path): os.remove(path)] inside a [try] whose
    handler answers [False]. *)
Definition remove_if_exists (path : pystr) (fs : FS) : bool * FS :=
  if path_exists path fs then
    match os_remove path fs with
    | (Ok _, fs) => (true, fs)
    | (Raise _, fs) => (false, fs)
    end
  else (true, fs).

Section WithLibraries.
Context {CL : Cipher} {JL : Json}.

Definition _create_new_key (env : Env) (salt : pybytes) (key_file : pystr)
    (fs : FS) : PyResult (pybytes * FS) :=
  let seed := _get_machine_seed env in
  let key := derive_key salt seed in
  fs ← write_file key_file key fs;
  Ok (key, _set_secure_permissions key_file fs).

Definition _get_or_create_key (env : Env) (salt : pybytes) (key_file : pystr)
    (fs : FS) : PyResult (pybytes * FS) :=
  if path_exists key_file fs then
    match read_file key_file fs with
    | Ok key => Ok (key, fs)
    | Raise _ => _create_new_key env salt key_file fs
    end
  else _create_new_key env salt key_file fs.

(** [SecureStorage(storage_path)]; [salt] is what [os.urandom(16)]
    returns if a key has to be made. *)
Definition __init__ (env : Env) (salt : pybytes) (storage_path : option pystr)
    (fs : FS) : PyResult (SecureStorage * FS) :=
  let storage_dir :=
    match storage_path with
    | Some p =>
        if truthy (PStr p) then p
        else if bool_decide (platform_system env = str_of "Windows")
        then join (environ_get env "APPDATA" []) (str_of "CampusWiFiConnector")
        else join (home env) (str_of ".campus-wifi-connector")
    | None =>
        if bool_decide (platform_system env = str_of "Windows")
        then join (environ_get env "APPDATA" []) (str_of "CampusWiFiConnector")
        else join (home env) (str_of ".campus-wifi-connector")
    end in
  fs ← os_makedirs storage_dir fs;
  let key_file := join storage_dir (str_of "storage.key") in
  let data_file := join storage_dir (str_of "credentials.dat") in
  let config_file := join storage_dir (str_of "config.json") in
  kf ← _get_or_create_key env salt key_file fs;
  if fernet_key_ok kf.1 then
    Ok ({| storage_dir := storage_dir; key_file := key_file;
           data_file := data_file; config_file := config_file;
           cipher := Some kf.1 |}, kf.2)
  else Raise ValueError.

(** Serialise, encrypt and write: the part of [save_credentials] and
    [save_secure_data] inside the [try]. *)
Definition write_encrypted (key iv : pybytes) (path : pystr) (data : pydict)
    (fs : FS) : PyResult FS :=
  json_data ← json_dumps (PDict data);
  plaintext ← str_encode json_data;
  let encrypted_data := encrypt key iv plaintext in
  fs ← write_file path encrypted_data fs;
  Ok (_set_secure_permissions path fs).

(** Read, decrypt and parse: the part the three loaders share. *)
Definition read_encrypted (key : pybytes) (path : pystr) (fs : FS)
  : PyResult PyVal :=
  encrypted_data ← read_file path fs;
  decrypted_data ← decrypt key encrypted_data;
  text ← bytes_decode decrypted_data;
  json_loads text.

Definition save_credentials (self : SecureStorage) (timestamp : pystr)
    (iv : pybytes) (username password campus : pystr) (remember : bool)
    (additional_data : option pydict) (fs : FS) : bool * FS :=
  match cipher self with
  | None => (false, fs)
  | Some key =>
      let data :=
        credentials_data username password campus remember timestamp
          additional_data in
      match write_encrypted key iv (data_file self) data fs with
      | Ok fs => (true, fs)
      | Raise _ => (false, fs)
      end
  end.

(** [load_credentials]: [None] is the absent record. *)
Definition load_credentials (self : SecureStorage) (fs : FS) : option pydict :=
  if negb (path_exists (data_file self) fs) then None
  else
    match cipher self with
    | None => None
    | Some key =>
        try_except
          (data ← read_encrypted key (data_file self) fs;
           match data with
           | PDict d =>
               if negb (opt_truthy (dict_get d (str_of "remember")))
               then Ok (Some (dict_set d (str_of "password") (PStr [])))
               else Ok (Some d)
           | _ => Ok None
           end)
          (fun _ => None)
    end.

Definition clear_credentials (self : SecureStorage) (fs : FS) : bool * FS :=
  remove_if_exists (data_file self) fs.

(** [save_config(config)]; [config] is the caller's object. *)
Definition save_config (self : SecureStorage) (timestamp : pystr)
    (config : nat) (heap : Heap) (fs : FS) : bool * Heap * FS :=
  match setitem heap config (str_of "version") (PStr (str_of "1.0")) with
  | Raise _ => (false, heap, fs)
  | Ok heap =>
      match setitem heap config (str_of "updated_at") (PStr timestamp) with
      | Raise _ => (false, heap, fs)
      | Ok heap =>
          match write_file (config_file self) [] fs with
          | Raise _ => (false, heap, fs)
          | Ok opened =>
              let v := default PNone (heap !! config) in
              match json_dumps v with
              | Ok text =>
                  match data ← str_encode text;
                        write_file (config_file self) data opened with
                  | Ok fs => (true, heap, _set_secure_permissions (config_file self) fs)
                  | Raise _ => (false, heap, opened)
                  end
              | Raise _ =>
                  match data ← str_encode (json_dump_partial v);
                        write_file (config_file self) data opened with
                  | Ok fs => (false, heap, fs)
                  | Raise _ => (false, heap, opened)
                  end
              end
          end
      end
  end.

Definition load_config (self : SecureStorage) (fs : FS) : option pydict :=
  if negb (path_exists (config_file self) fs) then None
  else
    try_except
      (data ← read_file (config_file self) fs;
       text ← bytes_decode data;
       config ← json_loads text;
       match config with
       | PDict d => Ok (Some d)
       | _ => Ok None
       end)
      (fun _ => None).

Definition clear_config (self : SecureStorage) (fs : FS) : bool * FS :=
  remove_if_exists (config_file self) fs.

Definition save_secure_data (self : SecureStorage) (timestamp : pystr)
    (iv : pybytes) (key : pystr) (data : PyVal) (fs : FS) : bool * FS :=
  match cipher self with
  | None => (false, fs)
  | Some k =>
      let data_to_save := secure_envelope key data timestamp in
      match write_encrypted k iv (secure_file self key) data_to_save fs with
      | Ok fs => (true, fs)
      | Raise _ => (false, fs)
      end
  end.

(** [load_secure_data(key)]: [PNone] is the absent record. *)
Definition load_secure_data (self : SecureStorage) (key : pystr) (fs : FS)
  : PyVal :=
  if negb (path_exists (secure_file self key) fs) then PNone
  else
    match cipher self with
    | None => PNone
    | Some k =>
        try_except
          (stored_data ← read_encrypted k (secure_file self key) fs;
           match stored_data with
           | PDict d => Ok (default (PDict []) (dict_get d (str_of "data")))
           | _ => Raise AttributeError
           end)
          (fun _ => PNone)
    end.

Definition delete_secure_data (self : SecureStorage) (key : pystr) (fs : FS)
  : bool * FS :=
  remove_if_exists (secure_file self key) fs.

(** The [for file in os.listdir(...)] loop of [clear_all_data]: the
    first [os.remove] that raises ends it. *)
Fixpoint remove_listed (self : SecureStorage) (names : list pystr) (fs : FS)
  : bool * FS :=
  match names with
  | [] => (true, fs)
  | file :: rest =>
      if endswith file (str_of ".dat")
         && negb (bool_decide (file = str_of "credentials.dat"))
      then
        match os_remove (join (storage_dir self) file) fs with
        | (Ok _, fs) => remove_listed self rest fs
        | (Raise _, fs) => (false, fs)
        end
      else remove_listed self rest fs
  end.

Definition clear_all_data (self : SecureStorage) (fs : FS) : bool * FS :=
  let success := true in
  let '(ok, fs) := clear_credentials self fs in
  let success := if negb ok then false else success in
  let '(ok, fs) := clear_config self fs in
  let success := if negb ok then false else success in
  let '(ok, fs) := remove_if_exists (key_file self) fs in
  let success := if negb ok then false else success in
  let '(ok, fs) :=
    match os_listdir (storage_dir self) fs with
    | Ok names => remove_listed self names fs
    | Raise _ => (false, fs)
    end in
  let success := if negb ok then false else success in
  (success, fs).

End WithLibraries.

End Storage.

(* ===================================================================== *)
(** ** Small libraries to run the vault on                               *)
(* ===================================================================== *)

(** A cipher and a JSON codec simple enough to compute with.  They stand
    for [cryptography] and [json] where a statement is checked on a
    concrete vault. *)
Module Reference.

(** Structural equality of values. *)
Fixpoint PyVal_eqb (a b : PyVal) {struct a} : bool :=
  match a, b with
  | PNone, PNone => true
  | PBool x, PBool y => bool_decide (x = y)
  | PInt x, PInt y => bool_decide (x = y)
  | PStr x, PStr y => bool_decide (x = y)
  | PBytes x, PBytes y => bool_decide (x = y)
  | PList l, PList m =>
      (fix go (l m : list PyVal) {struct l} : bool :=
         match l, m with
         | [], [] => true
         | x :: l', y :: m' => PyVal_eqb x y && go l' m'
         | _, _ => false
         end) l m
  | PDict d, PDict e =>
      (fix go (d e : list (pystr * PyVal)) {struct d} : bool :=
         match d, e with
         | [], [] => true
         | (k, x) :: d', (k', y) :: e' =>
             bool_decide (k = k') && PyVal_eqb x y && go d' e'
         | _, _ => false
         end) d e
  | _, _ => false
  end.

(** A token is the key, preceded by its length, followed by the data:
    only the key that made it opens it. *)
Definition ref_encrypt (key iv data : pybytes) : pybytes :=
  N.of_nat (length key) :: key ++ data.

Definition ref_decrypt (key token : pybytes) : PyResult pybytes :=
  match token with
  | n :: rest =>
      if bool_decide (n = N.of_nat (length key))
         && bool_decide (take (length key) rest = key)
      then Ok (drop (length key) rest)
      else Raise InvalidToken
  | [] => Raise InvalidToken
  end.

Definition ref_derive_key (salt : pybytes) (seed : pystr) : pybytes :=
  salt ++ seed.

(** An authentication environment: the token is the user name, the
    payload is empty. *)
#[local] Instance ref_auth_env : Auth.AuthEnv := {|
  Auth._generate_local_token := fun username _ => username;
  Auth.build_payload := fun _ _ _ _ => Ok []
|}.

(** A codec that knows one document, [doc]. *)
Definition ref_json_dumps (doc v : PyVal) : PyResult pystr :=
  if PyVal_eqb v doc then Ok (str_of "{}") else Raise TypeError.

Definition ref_json_loads (doc : PyVal) (text : pystr) : PyResult PyVal :=
  if bool_decide (text = str_of "{}") then Ok (Storage.json_image doc)
  else Raise JSONDecodeError.

End Reference.

(* ===================================================================== *)
(** ** The small libraries satisfy the laws                              *)
(* ===================================================================== *)

Section NestedInduction.
Variable P : PyVal -> Prop.
Hypothesis HNone : P PNone.
Hypothesis HBool : forall b, P (PBool b).
Hypothesis HInt : forall z, P (PInt z).
Hypothesis HStr : forall s, P (PStr s).
Hypothesis HBytes : forall b, P (PBytes b).
Hypothesis HList : forall l, Forall P l -> P (PList l).
Hypothesis HDict : forall d, Forall (fun kv => P kv.2) d -> P (PDict d).

(** Induction on values that reaches the members of lists and
    dictionaries. *)
Fixpoint PyVal_nested_ind (v : PyVal) : P v :=
  match v with
  | PNone => HNone
  | PBool b => HBool b
  | PInt z => HInt z
  | PStr s => HStr s
  | PBytes b => HBytes b
  | PList l =>
      HList l
        ((fix go (l : list PyVal) : Forall P l :=
            match l with
            | [] => @List.Forall_nil _ P
            | x :: r => @List.Forall_cons _ P x r (PyVal_nested_ind x) (go r)
            end) l)
  | PDict d =>
      HDict d
        ((fix go (d : list (pystr * PyVal)) : Forall (fun kv => P kv.2) d :=
            match d with
            | [] => @List.Forall_nil _ _
            | kv :: r =>
                @List.Forall_cons _ (fun kv => P kv.2) kv r (PyVal_nested_ind kv.2) (go r)
            end) d)
  end.
End NestedInduction.

Section ReferenceFacts.
Import Reference Storage.

Lemma PyVal_eqb_sound (a : PyVal) : forall b, PyVal_eqb a b = true -> a = b.
Proof.
  induction a as [| | | | |l IH|d IH] using PyVal_nested_ind;
    intros [] Hb; simpl in Hb; try done;
    try (apply bool_decide_eq_true in Hb; by subst).
  - f_equal. revert l0 Hb.
    induction IH as [|x r Hx _ IHr]; intros [|y m] Hb; try done.
    apply andb_prop in Hb as [H1 H2]. f_equal; [by apply Hx | by apply IHr].
  - f_equal. revert d0 Hb.
    induction IH as [|[k x] r Hx _ IHr]; intros [|[k' y] m] Hb; try done.
    apply andb_prop in Hb as [[H0 H1]%andb_prop H2].
    apply bool_decide_eq_true in H0. subst k'.
    f_equal; [f_equal; by apply Hx | by apply IHr].
Qed.

Lemma ref_decrypt_encrypt key iv data :
  ref_decrypt key (ref_encrypt key iv data) = Ok data.
Proof.
  unfold ref_decrypt, ref_encrypt.
  rewrite bool_decide_eq_true_2 by done.
  rewrite take_app_length, bool_decide_eq_true_2 by done. simpl.
  by rewrite drop_app_length.
Qed.

#[local] Instance ref_cipher : Cipher := {|
  derive_key := ref_derive_key;
  fernet_key_ok := fun _ => true;
  encrypt := ref_encrypt;
  decrypt := ref_decrypt;
  derive_key_ok := fun _ _ => eq_refl;
  decrypt_encrypt := fun key iv data _ => ref_decrypt_encrypt key iv data
|}.

Lemma ref_json_loads_dumps doc v text :
  ref_json_dumps doc v = Ok text -> ref_json_loads doc text = Ok (json_image v).
Proof.
  unfold ref_json_dumps, ref_json_loads.
  destruct (PyVal_eqb v doc) eqn:E; [|done].
  intros [= <-]. apply PyVal_eqb_sound in E. by subst.
Qed.

#[local] Instance ref_json (doc : PyVal) : Json := {|
  json_dumps := ref_json_dumps doc;
  json_dump_partial := fun _ => [];
  json_loads := ref_json_loads doc;
  str_encode := fun text => Ok text;
  bytes_decode := fun data => Ok data;
  json_loads_dumps := ref_json_loads_dumps doc;
  decode_encode := fun text data E => eq_sym E
|}.

End ReferenceFacts.

(* ===================================================================== *)
(** ** A concrete vault                                                  *)
(* ===================================================================== *)

(** A Linux machine, user [alice], an empty disk, and the vault
    [SecureStorage("/vault")] on it. *)
Module Scenario.
Import OS Storage Reference.

Definition env : Env :=
  {| platform_system := str_of "Linux";
     platform_machine := str_of "x86_64";
     environ := {[ str_of "USER" := str_of "alice" ]};
     home := str_of "/home/alice" |}.

Definition disk : FS :=
  {| files := []; dirs := [(true, [])]; readonly := []; unreadable := [];
     removals := [] |}.

Definition salt : pybytes := [1; 2; 3; 4; 5; 6; 7; 8; 9; 10; 11; 12; 13; 14; 15; 16]%N.

Definition key : pybytes := ref_derive_key salt (_get_machine_seed env).

Definition vault : SecureStorage :=
  {| storage_dir := str_of "/vault";
     key_file := str_of "/vault/storage.key";
     data_file := str_of "/vault/credentials.dat";
     config_file := str_of "/vault/config.json";
     cipher := Some key |}.

Definition timestamp : pystr := str_of "2025-01-01T12:00:00".

Definition iv : pybytes := [42]%N.

(** The record [save_credentials("alice", "s3cret", "Main", remember)]
    serialises. *)
Definition record (remember : bool) : PyVal :=
  PDict (credentials_data (str_of "alice") (str_of "s3cret") (str_of "Main")
           remember timestamp None).

(** The disk once the vault has been constructed. *)
Definition disk_ready : FS :=
  match __init__ (CL := ref_cipher) env salt (Some (str_of "/vault")) disk with
  | Ok (_, fs) => fs
  | Raise _ => disk
  end.

(** The disk after [save_credentials("alice", "s3cret", "Main", remember)]. *)
Definition disk_saved (remember : bool) : FS :=
  (save_credentials (CL := ref_cipher) (JL := ref_json (record remember))
     vault timestamp iv (str_of "alice") (str_of "s3cret") (str_of "Main")
     remember None disk_ready).2.

(** The caller's dictionary [{'theme': 'dark', 'version': '0.9'}], held
    as object 0. *)
Definition caller_config : pydict :=
  [ (str_of "theme", PStr (str_of "dark"));
    (str_of "version", PStr (str_of "0.9")) ].

Definition caller_heap : gmap nat PyVal := {[ 0%nat := PDict caller_config ]}.

(** What the dictionary is after [save_config]. *)
Definition saved_config : pydict :=
  [ (str_of "theme", PStr (str_of "dark"));
    (str_of "version", PStr (str_of "1.0"));
    (str_of "updated_at", PStr timestamp) ].

(** The same disk with [config.json] write-protected. *)
Definition disk_config_protected : FS :=
  {| files := files disk_ready; dirs := dirs disk_ready;
     readonly := [resolve (config_file vault)];
     unreadable := []; removals := [] |}.

(** The disk after [save_config] of the caller's dictionary. *)
Definition disk_with_config : FS :=
  (save_config (JL := ref_json (PDict saved_config))
     vault timestamp 0%nat caller_heap disk_ready).2.

(** The same, with [config.json] protected against removal. *)
Definition disk_config_locked : FS :=
  {| files := files disk_with_config; dirs := dirs disk_with_config;
     readonly := [resolve (config_file vault)];
     unreadable := []; removals := [] |}.

(** A secure record [{'token': 'abc'}]. *)
Definition secret : PyVal := PDict [ (str_of "token", PStr (str_of "abc")) ].

(** The disk after [save_secure_data(key, secret)]. *)
Definition disk_with_secret (key : pystr) (fs : FS) : FS :=
  (save_secure_data (CL := ref_cipher)
     (JL := ref_json (PDict (secure_envelope key secret timestamp)))
     vault timestamp iv key secret fs).2.

(** A record saved under the key ['../x'], which names a file beside
    the storage directory. *)
Definition disk_outside : FS := disk_with_secret (str_of "../x") disk_ready.

(** Two records, ['a'] and ['b'], listed in that order, the first one
    protected against removal. *)
Definition disk_two_secrets : FS :=
  let fs := disk_with_secret (str_of "b") (disk_with_secret (str_of "a") disk_ready) in
  {| files := files fs; dirs := dirs fs;
     readonly := [resolve (secure_file vault (str_of "a"))];
     unreadable := []; removals := [] |}.

(** One bit of the first byte flipped. *)
Definition flip_first (data : pybytes) : pybytes :=
  match data with
  | b :: rest => N.lxor b 1 :: rest
  | [] => []
  end.

(** The disk after the save, with the credentials file corrupted. *)
Definition disk_tampered : FS :=
  let fs := disk_saved true in
  {| files :=
       map (fun gb => if bool_decide (gb.1 = resolve (data_file vault))
                      then (gb.1, flip_first gb.2) else gb) (files fs);
     dirs := dirs fs; readonly := readonly fs; unreadable := unreadable fs;
     removals := removals fs |}.

End Scenario.

(** Five local attempts with the password ['abc'], too short for the
    local check, at seconds 1 to 5 on a fresh service without
    configuration. *)
Module LockoutScenario.
Import Auth Reference.

Definition alice : PyVal := PStr (str_of "alice").
Definition short_password : PyVal := PStr (str_of "abc").
Definition good_password : PyVal := PStr (str_of "s3cret1").

Definition attempt (now : Q) (password : PyVal) (self : AuthService)
  : bool * AuthService :=
  authenticate (AE := ref_auth_env) now RequestException alice password self.

Definition after_failures : AuthService :=
  (attempt 5 short_password
     (attempt 4 short_password
        (attempt 3 short_password
           (attempt 2 short_password
              (attempt 1 short_password (__init__ [])).2).2).2).2).2.

(** The same service configured with an authentication server that
    cannot be reached five times. *)
Definition server_config : pydict :=
  [ (str_of "auth_server",
     PDict [ (str_of "enabled", PBool true);
             (str_of "url", PStr (str_of "https://auth.example/login")) ]) ].

Definition after_server_failures : AuthService :=
  (attempt 5 good_password
     (attempt 4 good_password
        (attempt 3 good_password
           (attempt 2 good_password
              (attempt 1 good_password (__init__ server_config)).2).2).2).2).2.

(** The body of a reply that accepts the user. *)
Definition accepted : pydict :=
  [ (str_of "success", PBool true);
    (str_of "token", PStr (str_of "tok"));
    (str_of "expires_in", PInt 60) ].

End LockoutScenario.

(* ===================================================================== *)
(** ** services/auth_service.py: the session                             *)
(* ===================================================================== *)

Module Session.
Import Auth.

(** Truth value of [self.auth_expiry]: [None] and [0.0] are false. *)
Definition expiry_truthy (expiry : option Q) : bool :=
  match expiry with
  | Some e => negb (Qeq_bool e 0)
  | None => false
  end.

(** [self.authenticated = False; self.auth_token = None;
    self.auth_expiry = None] *)
Definition clear_session (self : AuthService) : AuthService :=
  {| config := config self;
     authenticated := false;
     auth_token := None;
     auth_expiry := None;
     last_auth_attempt := last_auth_attempt self;
     failed_attempts := failed_attempts self;
     max_attempts := max_attempts self;
     lockout_duration := lockout_duration self |}.

(** [self.auth_expiry = expiry] *)
Definition set_expiry (expiry : Q) (self : AuthService) : AuthService :=
  {| config := config self;
     authenticated := authenticated self;
     auth_token := auth_token self;
     auth_expiry := Some expiry;
     last_auth_attempt := last_auth_attempt self;
     failed_attempts := failed_attempts self;
     max_attempts := max_attempts self;
     lockout_duration := lockout_duration self |}.

(** [self.auth_token = token] *)
Definition set_token (token : option PyVal) (self : AuthService) : AuthService :=
  {| config := config self;
     authenticated := authenticated self;
     auth_token := token;
     auth_expiry := auth_expiry self;
     last_auth_attempt := last_auth_attempt self;
     failed_attempts := failed_attempts self;
     max_attempts := max_attempts self;
     lockout_duration := lockout_duration self |}.

Definition is_authenticated (now : Q) (self : AuthService) : bool * AuthService :=
  if negb (authenticated self) then (false, self)
  else
    match auth_expiry self with
    | Some expiry =>
        if expiry_truthy (auth_expiry self) && Qltb expiry now
        then (false, clear_session self)
        else (true, self)
    | None => (true, self)
    end.

(** [get_auth_token]: [None] is Python's [None]. *)
Definition get_auth_token (now : Q) (self : AuthService)
  : option PyVal * AuthService :=
  let (ok, self) := is_authenticated now self in
  if ok then (auth_token self, self) else (None, self).

(** [int(x)] for a float: the integer part, towards zero. *)
Definition int_of_Q (x : Q) : Z := Z.quot (Qnum x) (Z.pos (Qden x)).

Definition get_lockout_time_remaining (now : Q) (self : AuthService)
  : Z * AuthService :=
  let (locked, self) := is_locked_out now self in
  if negb locked then (0, self)
  else
    let time_since_last_attempt := (now - last_auth_attempt self)%Q in
    (Z.max 0 (int_of_Q (lockout_duration self - time_since_last_attempt)%Q), self).

(** [_logout_from_server]: every exception is handled inside, and the
    service is not changed. *)
Definition _logout_from_server (reply : ServerReply) (self : AuthService) : bool :=
  match auth_config_get self "logout_url" with
  | Raise _ => false
  | Ok logout_url =>
      if negb (opt_truthy logout_url) || negb (opt_truthy (auth_token self))
      then true
      else
        match reply with
        | RequestException => false
        | Response status_code _ => status_code =? 200
        end
  end.

Definition logout (reply : ServerReply) (self : AuthService) : bool * AuthService :=
  match auth_config_get self "enabled" with
  | Raise _ => (false, self)
  | Ok enabled =>
      let _ := if opt_truthy enabled then _logout_from_server reply self else true in
      (true, clear_session self)
  end.

(** [_refresh_server_token] for a reply already received. *)
Definition _refresh_server_token (now : Q) (reply : ServerReply)
    (self : AuthService) : bool * AuthService :=
  match auth_config_get self "refresh_url" with
  | Raise _ => (false, self)
  | Ok refresh_url =>
      if negb (opt_truthy refresh_url) || negb (opt_truthy (auth_token self))
      then (false, self)
      else
        match reply with
        | RequestException => (false, self)
        | Response status_code json =>
            if status_code =? 200 then
              match json with
              | Ok (PDict result) =>
                  if opt_truthy (dict_get result (str_of "success")) then
                    let self := set_token (dict_get result (str_of "token")) self in
                    match expiry_from now (dict_get result (str_of "expires_in")) with
                    | Ok expiry => (true, set_expiry expiry self)
                    | Raise _ => (false, self)
                    end
                  else (false, self)
              | _ => (false, self)
              end
            else (false, self)
        end
  end.

Definition refresh_token (now : Q) (reply : ServerReply) (self : AuthService)
  : bool * AuthService :=
  let (ok, self) := is_authenticated now self in
  if negb ok then (false, self)
  else
    match auth_config_get self "enabled" with
    | Raise _ => (false, self)
    | Ok enabled =>
        if opt_truthy enabled then _refresh_server_token now reply self
        else (true, set_expiry (now + 3600)%Q self)
    end.

End Session.

(* ===================================================================== *)
(** ** main.py: what the login screen does with the vault                *)
(* ===================================================================== *)

Module App.
Import OS Storage.

(** The two text inputs of [LoginScreen]. *)
Record LoginScreen : Type := {
  username_text : pystr;
  password_text : pystr
}.

Definition default_username : pystr := str_of "081bel052".

(** Assigning to [TextInput.text]: Kivy's string property raises
    [ValueError] for anything that is not a string. *)
Definition set_text (v : PyVal) : PyResult pystr :=
  match v with
  | PStr s => Ok s
  | _ => Raise ValueError
  end.

(** [self.username_input.text = text] *)
Definition with_username (text : pystr) (screen : LoginScreen) : LoginScreen :=
  {| username_text := text; password_text := password_text screen |}.

(** [self.password_input.text = text] *)
Definition with_password (text : pystr) (screen : LoginScreen) : LoginScreen :=
  {| username_text := username_text screen; password_text := text |}.

(** [login_user]: whether the login is started. *)
Definition login_user (screen : LoginScreen) : bool :=
  let username := strip (username_text screen) in
  let password := strip (password_text screen) in
  negb (negb (truthy (PStr username)) || negb (truthy (PStr password))).

Section WithLibraries.
Context {CL : Cipher} {JL : Json}.

Definition load_saved_credentials (self : SecureStorage) (screen : LoginScreen)
    (fs : FS) : LoginScreen :=
  match load_credentials self fs with
  | Some credentials =>
      if truthy (PDict credentials) then
        match set_text (default (PStr []) (dict_get credentials (str_of "username"))) with
        | Raise _ => with_username default_username screen
        | Ok username =>
            let screen := with_username username screen in
            match set_text (default (PStr []) (dict_get credentials (str_of "password"))) with
            | Raise _ => with_username default_username screen
            | Ok password =>
                let screen := with_password password screen in
                if negb (truthy (PStr (username_text screen)))
                then with_username default_username screen
                else screen
            end
        end
      else screen
  | None => screen
  end.

(** The [save_credentials] call of [login_success]: [campus] and
    [remember] take their defaults. *)
Definition login_success (self : SecureStorage) (timestamp : pystr) (iv : pybytes)
    (screen : LoginScreen) (fs : FS) : bool * FS :=
  let username := strip (username_text screen) in
  let password := strip (password_text screen) in
  save_credentials self timestamp iv username password [] false None fs.

End WithLibraries.

End App.

(** A text library that matches nothing and parses nothing; it stands
    for [re], [ipaddress] and [int] where only the guards of the
    validators matter. *)
Module ReferenceText.

#[local] Instance ref_str_lib : Validators.StrLib := {|
  Validators.re_match := fun _ _ => false;
  Validators.re_match_ignorecase := fun _ _ => false;
  Validators.re_search := fun _ _ => false;
  Validators.re_sub_empty := fun _ s => s;
  Validators.str_lower := fun s => s;
  Validators.ip_address := fun _ => false;
  Validators.int_of_str := fun _ => None
|}.

End ReferenceText.

(** A cipher that, like Fernet, accepts keys of 44 bytes only; it
    encrypts as the cipher of [Reference] does. *)
Module Strict.
Import Storage Reference.

Definition strict_key_ok (key : pybytes) : bool :=
  bool_decide (length key = 44%nat).

Definition strict_derive_key (salt : pybytes) (seed : pystr) : pybytes :=
  take 44 (salt ++ seed ++ repeat 0%N 44).

End Strict.

Section StrictFacts.
Import Storage Reference Strict.

Lemma strict_derive_key_ok salt seed :
  strict_key_ok (strict_derive_key salt seed) = true.
Proof.
  unfold strict_key_ok, strict_derive_key. apply bool_decide_eq_true_2.
  rewrite length_take, !length_app, repeat_length. lia.
Qed.

#[local] Instance strict_cipher : Cipher := {|
  derive_key := strict_derive_key;
  fernet_key_ok := strict_key_ok;
  encrypt := ref_encrypt;
  decrypt := ref_decrypt;
  derive_key_ok := strict_derive_key_ok;
  decrypt_encrypt := fun key iv data _ => ref_decrypt_encrypt key iv data
|}.

End StrictFacts.

(** A cipher whose tokens end in one octet that [decrypt] does not
    read, as the last character of a Fernet token can carry bits that
    base64 decoding ignores. *)
Module Slack.
Import Storage Reference.

Definition slack_encrypt (key iv data : pybytes) : pybytes :=
  ref_encrypt key iv data ++ [61]%N.

Definition slack_decrypt (key token : pybytes) : PyResult pybytes :=
  match reverse token with
  | _ :: r => ref_decrypt key (reverse r)
  | [] => Raise InvalidToken
  end.

End Slack.

Section SlackFacts.
Import Storage Reference Slack.

Lemma slack_decrypt_encrypt key iv data :
  slack_decrypt key (slack_encrypt key iv data) = Ok data.
Proof.
  unfold slack_decrypt, slack_encrypt. rewrite reverse_app.
  change (reverse [61%N]) with [61%N]. cbn [app].
  rewrite reverse_involutive. apply ref_decrypt_encrypt.
Qed.

#[local] Instance slack_cipher : Cipher := {|
  derive_key := ref_derive_key;
  fernet_key_ok := fun _ => true;
  encrypt := slack_encrypt;
  decrypt := slack_decrypt;
  derive_key_ok := fun _ _ => eq_refl;
  decrypt_encrypt := fun key iv data _ => slack_decrypt_encrypt key iv data
|}.

End SlackFacts.

(** Disks and screens for the examples of the vault below. *)
Module KeyScenario.
Import OS Storage Reference.

(** A vault in full use: credentials, a configuration and a secure
    record under the key ['a'], nothing protected. *)
Definition disk_full : FS :=
  Scenario.disk_with_secret (str_of "a")
    (save_config (JL := ref_json (PDict Scenario.saved_config))
       Scenario.vault Scenario.timestamp 0%nat Scenario.caller_heap
       (Scenario.disk_saved true)).2.

(** The credentials saved with the cipher of [Slack]. *)
Definition disk_slack_saved : FS :=
  (save_credentials (CL := slack_cipher) (JL := ref_json (Scenario.record true))
     Scenario.vault Scenario.timestamp Scenario.iv (str_of "alice")
     (str_of "s3cret") (str_of "Main") true None Scenario.disk_ready).2.

(** One bit of the last byte flipped. *)
Definition flip_last (data : pybytes) : pybytes :=
  match reverse data with
  | b :: r => reverse (N.lxor b 1 :: r)
  | [] => []
  end.

(** The same disk with the last byte of the credentials file changed. *)
Definition disk_slack_changed : FS :=
  {| files :=
       map (fun gb => if bool_decide (gb.1 = resolve (data_file Scenario.vault))
                      then (gb.1, flip_last gb.2) else gb)
         (files disk_slack_saved);
     dirs := dirs disk_slack_saved; readonly := readonly disk_slack_saved;
     unreadable := unreadable disk_slack_saved;
     removals := removals disk_slack_saved |}.

(** A storage directory whose key file holds three bytes. *)
Definition disk_bad_key : FS :=
  {| files := [(resolve (str_of "/vault/storage.key"), [1; 2; 3]%N)];
     dirs := [(true, []); resolve (str_of "/vault")];
     readonly := []; unreadable := []; removals := [] |}.

(** [{'remember': True, 'note': 'lab'}] *)
Definition extra : pydict :=
  [ (str_of "remember", PBool true); (str_of "note", PStr (str_of "lab")) ].

(** The record [save_credentials("alice", "s3cret", "Main", False,
    extra)] serialises. *)
Definition record_extra : PyVal :=
  PDict (credentials_data (str_of "alice") (str_of "s3cret") (str_of "Main")
           false Scenario.timestamp (Some extra)).

(** The password ['ab'] followed by the high and the low surrogate of
    U+1F600, as two code points. *)
Definition surrogate_password : pystr := [97; 98; 55357; 56832]%N.

Definition record_surrogate : PyVal :=
  PDict (credentials_data (str_of "alice") surrogate_password (str_of "Main")
           true Scenario.timestamp None).

Definition disk_saved_surrogate : FS :=
  (save_credentials (CL := ref_cipher) (JL := ref_json record_surrogate)
     Scenario.vault Scenario.timestamp Scenario.iv (str_of "alice")
     surrogate_password (str_of "Main") true None Scenario.disk_ready).2.

Definition disk_saved_extra : FS :=
  (save_credentials (CL := ref_cipher) (JL := ref_json record_extra)
     Scenario.vault Scenario.timestamp Scenario.iv (str_of "alice")
     (str_of "s3cret") (str_of "Main") false (Some extra) Scenario.disk_ready).2.

(** The login screen with [' alice '] and ['s3cret'] typed in. *)
Definition screen : App.LoginScreen :=
  {| App.username_text := str_of " alice "; App.password_text := str_of "s3cret" |}.

(** What [login_success] serialises for that screen. *)
Definition record_login : PyVal :=
  PDict (credentials_data (str_of "alice") (str_of "s3cret") [] false
           Scenario.timestamp None).

Definition disk_after_login : FS :=
  (App.login_success (CL := ref_cipher) (JL := ref_json record_login)
     Scenario.vault Scenario.timestamp Scenario.iv screen Scenario.disk_ready).2.

End KeyScenario.

(** Predicates the properties below are stated with. *)
Module Checks.

(** The results that keep [valid] and [errors] in step. *)
Definition consistent (r : Validators.NetworkResult) : Prop :=
  Validators.valid r = true <-> Validators.errors r = [].

(** The five kinds [validate_and_clean_input] knows. *)
Definition known_kinds : list pystr :=
  map str_of ["username"; "password"; "ssid"; "email"; "domain"]%string.

(** What the class of [AuthService._validate_username_format] implies of
    a code point, checked on the 128 ASCII code points. *)
Definition class_check (n : nat) : bool :=
  let c := N.of_nat n in
  implb (Auth.username_class c)
    (negb (isspace_char c) && negb (c =? 10)%N && Validators.username_class c).

End Checks.

(* ===================================================================== *)
(** ** Properties of the string helpers                                  *)
(* ===================================================================== *)

Section StripFacts.

Lemma lstrip_suffix (s : pystr) : lstrip s `suffix_of` s.
Proof.
  induction s as [|c r IH]; simpl; [done|].
  destruct (isspace_char c); [by apply suffix_cons_r | done].
Qed.

Lemma lstrip_head_ok (s : pystr) : head_ok (lstrip s) = true.
Proof.
  induction s as [|c r IH]; simpl; [done|].
  destruct (isspace_char c) eqn:E; [done|]. simpl. by rewrite E.
Qed.

Lemma lstrip_id (s : pystr) : head_ok s = true -> lstrip s = s.
Proof.
  destruct s as [|c r]; simpl; [done|].
  by destruct (isspace_char c).
Qed.

Lemma rstrip_prefix (s : pystr) : rstrip s `prefix_of` s.
Proof.
  unfold rstrip. destruct (lstrip_suffix (reverse s)) as [k Hk].
  exists (reverse k).
  rewrite <- reverse_app, <- Hk. by rewrite reverse_involutive.
Qed.

Lemma rstrip_id (s : pystr) : head_ok (reverse s) = true -> rstrip s = s.
Proof.
  intros Hs. unfold rstrip. rewrite lstrip_id by done.
  apply reverse_involutive.
Qed.

Lemma head_ok_prefix (p s : pystr) :
  p `prefix_of` s -> head_ok s = true -> head_ok p = true.
Proof. intros [k ->]. by destruct p. Qed.

Lemma strip_trimmed (s : pystr) : trimmed (strip s) = true.
Proof.
  unfold trimmed, strip. apply andb_true_intro; split.
  - eapply head_ok_prefix; [apply rstrip_prefix | apply lstrip_head_ok].
  - unfold rstrip. rewrite reverse_involutive. apply lstrip_head_ok.
Qed.

Lemma strip_id (s : pystr) : trimmed s = true -> strip s = s.
Proof.
  unfold trimmed, strip. intros [H1 H2]%andb_prop.
  rewrite lstrip_id by done. by apply rstrip_id.
Qed.

Lemma strip_idempotent (s : pystr) : strip (strip s) = strip s.
Proof. apply strip_id, strip_trimmed. Qed.

(** What [strip] returns is a contiguous piece of its argument. *)
Lemma strip_infix (s : pystr) : exists a b, s = a ++ strip s ++ b.
Proof.
  unfold strip.
  destruct (lstrip_suffix s) as [a Ha].
  destruct (rstrip_prefix (lstrip s)) as [b Hb].
  exists a, b. by rewrite <- Hb.
Qed.

Lemma strip_Forall (P : N -> Prop) (s : pystr) : Forall P s -> Forall P (strip s).
Proof.
  destruct (strip_infix s) as (a & b & E). intros HF. rewrite E in HF.
  by apply Forall_app in HF as [_ [HF _]%Forall_app].
Qed.

Lemma strip_length (s : pystr) : (length (strip s) <= length s)%nat.
Proof.
  destruct (strip_infix s) as (a & b & E).
  rewrite E at 2. rewrite !length_app. lia.
Qed.

End StripFacts.

(* ===================================================================== *)
(** ** Properties of the validators                                      *)
(* ===================================================================== *)

Section SanitizeFacts.
Import Validators.

Lemma sanitize_input_non_string (v : PyVal) (m : Z) :
  is_str v = false -> sanitize_input v m = [].
Proof.
  intros Hv. unfold sanitize_input. rewrite Hv.
  by rewrite orb_true_r.
Qed.

(** On a string the guard only catches the empty one, which the
    pipeline maps to the empty string as well. *)
Lemma sanitize_input_str (s : pystr) (m : Z) :
  sanitize_input (PStr s) m =
    strip (let t := List.filter sanitize_keep s in
           if m <? strlen t then slice_to t m else t).
Proof.
  unfold sanitize_input. simpl. rewrite orb_false_r.
  case_bool_decide as Hs; simpl; [|done].
  subst s. simpl. destruct (m <? strlen []) eqn:E; [|done].
  unfold slice_to. by destruct (0 <=? m); rewrite take_nil.
Qed.

Lemma filter_keep_all (P : N -> bool) (s : pystr) :
  Forall (fun c => P c = true) s -> List.filter P s = s.
Proof.
  induction 1 as [|c r Hc _ IH]; simpl; [done|].
  by rewrite Hc, IH.
Qed.

Lemma filter_Forall (P : N -> bool) (s : pystr) :
  Forall (fun c => P c = true) (List.filter P s).
Proof.
  induction s as [|c r IH]; simpl; [done|].
  destruct (P c) eqn:E; [by constructor | done].
Qed.

Lemma sanitize_input_kept (s : pystr) (m : Z) :
  Forall (fun c => sanitize_keep c = true) (sanitize_input (PStr s) m).
Proof.
  rewrite sanitize_input_str. apply strip_Forall. cbv zeta.
  pose proof (filter_Forall sanitize_keep s) as HF.
  destruct (m <? strlen _); [|done].
  unfold slice_to. destruct (0 <=? m); by apply Forall_take.
Qed.

Lemma sanitize_input_length (s : pystr) (m : Z) :
  0 <= m -> strlen (sanitize_input (PStr s) m) <= m.
Proof.
  intros Hm. rewrite sanitize_input_str. cbv zeta.
  set (t := List.filter sanitize_keep s).
  assert (strlen (if m <? strlen t then slice_to t m else t) <= m) as Ht.
  { destruct (m <? strlen t) eqn:E.
    - unfold slice_to, strlen. assert ((0 <=? m) = true) as -> by lia.
      rewrite length_take. lia.
    - by apply Z.ltb_ge in E. }
  pose proof (strip_length (if m <? strlen t then slice_to t m else t)).
  unfold strlen in *. lia.
Qed.

Lemma sanitize_input_trimmed (v : PyVal) (m : Z) :
  trimmed (sanitize_input v m) = true.
Proof.
  destruct (is_str v) eqn:Hv.
  - destruct v; try discriminate. rewrite sanitize_input_str. apply strip_trimmed.
  - by rewrite sanitize_input_non_string.
Qed.

(** Sanitizing twice with the same non-negative bound changes nothing
    more. *)
Lemma sanitize_input_idempotent_bound (v : PyVal) (m : Z) :
  0 <= m ->
  sanitize_input (PStr (sanitize_input v m)) m = sanitize_input v m.
Proof.
  intros Hm. destruct (is_str v) eqn:Hv.
  - destruct v as [| | |s| | |]; try discriminate.
    pose proof (sanitize_input_kept s m) as HK.
    pose proof (sanitize_input_length s m Hm) as HL.
    pose proof (sanitize_input_trimmed (PStr s) m) as HT.
    set (r := sanitize_input (PStr s) m) in *.
    rewrite sanitize_input_str. cbv zeta.
    rewrite (filter_keep_all _ _ HK).
    apply Z.ltb_ge in HL as ->. by apply strip_id.
  - rewrite (sanitize_input_non_string v m Hv). reflexivity.
Qed.

(** [sanitize_input(sanitize_input(s)) == sanitize_input(s)] with the
    default [max_length]. *)
Lemma sanitize_input_idempotent (v : PyVal) :
  sanitize_input (PStr (sanitize_input v default_max_length)) default_max_length
  = sanitize_input v default_max_length.
Proof. by apply sanitize_input_idempotent_bound. Qed.

(** 1500 times ['a'] gives exactly 1000 times ['a']. *)
Lemma sanitize_input_1500_a :
  sanitize_input (PStr (replicate 1500 97%N)) default_max_length
  = replicate 1000 97%N.
Proof. vm_compute. reflexivity. Qed.

(** With a negative [max_length] the slice drops characters from the
    end at every call, so the function is not idempotent there. *)
Lemma sanitize_input_negative_bound :
  sanitize_input (PStr (str_of "abc")) (-1) = str_of "ab"
  /\ sanitize_input (PStr (str_of "ab")) (-1) = str_of "a".
Proof. split; vm_compute; reflexivity. Qed.

End SanitizeFacts.

Section CleanSsidFacts.
Import Validators.

Lemma take_32_or_all (t : pystr) :
  (if 32 <? strlen t then slice_to t 32 else t) = take 32 t.
Proof.
  unfold strlen. destruct (32 <? Z.of_nat (length t)) eqn:E.
  - reflexivity.
  - apply Z.ltb_ge in E. symmetry. apply take_ge. lia.
Qed.

(** On a string, [clean_ssid] is: strip, drop the code points below 32,
    keep the first 32. *)
Lemma clean_ssid_str (s : pystr) :
  clean_ssid (PStr s)
  = Ok (take 32 (List.filter (fun c => (32 <=? c)%N) (strip s))).
Proof.
  unfold clean_ssid. simpl. case_bool_decide as Hs; simpl.
  - by subst s.
  - by rewrite take_32_or_all.
Qed.

(** C9 as stated fails: removing a control character that [strip] left
    in front exposes the whitespace behind it. *)
Lemma clean_ssid_result_not_trimmed :
  clean_ssid (PStr [0; 32; 97]%N) = Ok [32; 97]%N
  /\ trimmed [32; 97]%N = false.
Proof. split; vm_compute; reflexivity. Qed.

(** Truncation does the same at the other end: 31 letters, a space and
    one more letter are cut after the space. *)
Lemma clean_ssid_truncation_not_trimmed :
  clean_ssid (PStr (replicate 31 97%N ++ [32; 98]%N))
    = Ok (replicate 31 97%N ++ [32]%N)
  /\ trimmed (replicate 31 97%N ++ [32]%N) = false.
Proof. split; vm_compute; reflexivity. Qed.

(** DEL (127) passes the [ord(char) >= 32] filter of [clean_ssid],
    although [validate_campus_ssid] counts it as a control character
    and rejects the cleaned SSID. *)
Lemma clean_ssid_keeps_del :
  clean_ssid (PStr [97; 127; 98]%N) = Ok [97; 127; 98]%N
  /\ validate_campus_ssid (PStr [97; 127; 98]%N) = false.
Proof. split; vm_compute; reflexivity. Qed.

(** A [bytes] object of whitespace only is cleaned to the empty string;
    any other non-empty one makes [ord] raise. *)
Lemma clean_ssid_bytes :
  clean_ssid (PBytes [32; 9; 11; 12]%N) = Ok []
  /\ clean_ssid (PBytes [32; 97; 32]%N) = Raise TypeError
  /\ clean_ssid (PBytes [28]%N) = Raise TypeError
  /\ clean_ssid (PBytes []) = Ok [].
Proof. repeat split; vm_compute; reflexivity. Qed.

(** On a string without DEL the filter of [clean_ssid] removes exactly
    the control characters [validate_campus_ssid] refuses. *)
Lemma filter_control_no_del (t : pystr) :
  Forall (fun c => c <> 127%N) t ->
  List.filter (fun c => (32 <=? c)%N) t = List.filter ssid_char_ok t.
Proof.
  induction 1 as [|c r Hc _ IH]; [done|].
  cbn [List.filter]. rewrite IH.
  assert ((32 <=? c)%N = ssid_char_ok c) as ->; [|done].
  unfold ssid_char_ok.
  assert ((c =? 127)%N = false) as -> by (by apply N.eqb_neq).
  rewrite orb_false_r, N.ltb_antisym. by rewrite negb_involutive.
Qed.

(** C9, amended: for every string [s] that holds no DEL (code point
    127), [clean_ssid(s)] is the first 32 code points of what is left of
    [s.strip()] once the control characters (code points below 32, or
    127) are dropped; it has at most 32 code points and no control
    character; and when [s.strip()] itself has at most 32 code points
    and no control character, the result is [s.strip()], free of
    surrounding whitespace.  What becomes of a DEL is left open. *)
Theorem clean_ssid_spec (s : pystr) :
  Forall (fun c => c <> 127%N) s ->
  exists r,
    clean_ssid (PStr s) = Ok r
    /\ r = take 32 (List.filter ssid_char_ok (strip s))
    /\ (length r <= 32)%nat
    /\ Forall (fun c => (32 <= c)%N /\ c <> 127%N) r
    /\ (Forall (fun c => (32 <= c)%N) (strip s) ->
        (length (strip s) <= 32)%nat ->
        r = strip s /\ trimmed r = true).
Proof.
  intros Hdel. pose proof (strip_Forall _ _ Hdel) as Hdel'.
  eexists. split; [apply clean_ssid_str|].
  rewrite (filter_control_no_del _ Hdel').
  split; [done|]. split; [rewrite length_take; lia|]. split.
  - apply Forall_take.
    eapply Forall_impl; [apply filter_Forall|].
    intros c Hc. unfold ssid_char_ok in Hc.
    apply negb_true_iff, orb_false_elim in Hc as [H1 H2].
    apply N.ltb_ge in H1. apply N.eqb_neq in H2. done.
  - intros Hall Hlen.
    rewrite <- (filter_control_no_del _ Hdel'), filter_keep_all.
    + rewrite take_ge by done. split; [done | apply strip_trimmed].
    + eapply Forall_impl; [exact Hall|]. intros c Hc. by apply N.leb_le.
Qed.

Lemma clean_ssid_spec_witness :
  clean_ssid (PStr (str_of "  CampusWiFi  ")) = Ok (str_of "CampusWiFi")
  /\ trimmed (str_of "CampusWiFi") = true.
Proof.
  destruct (clean_ssid_spec (str_of "  CampusWiFi  ")) as (r & Hr & _ & _ & _ & Ht).
  - vm_compute. repeat constructor; discriminate.
  - destruct Ht as [Hs Htr].
    + vm_compute. repeat constructor; discriminate.
    + vm_compute. lia.
    + assert (r = str_of "CampusWiFi") as Er
        by (rewrite Hs; vm_compute; reflexivity).
      rewrite Er in Hr, Htr. split; assumption.
Defined.

End CleanSsidFacts.

Section GuardFacts.
Import Validators.
Context {SL : StrLib}.

(** Every single-value validator starts with
    [if not x or not isinstance(x, str): return False]. *)
Lemma validators_reject_non_strings (v : PyVal) :
  is_str v = false ->
  validate_username v = false
  /\ validate_password v = false
  /\ validate_campus_ssid v = false
  /\ validate_email v = false
  /\ validate_domain v = false
  /\ validate_ip_address v = false
  /\ validate_port v = false
  /\ validate_url v = false
  /\ validate_phone_number v = false
  /\ validate_mac_address v = false
  /\ validate_file_path v = false
  /\ (forall allow_special, is_safe_string v allow_special = false).
Proof.
  intros Hv.
  unfold validate_username, validate_password, validate_campus_ssid,
    validate_email, validate_domain, validate_ip_address, validate_port,
    validate_url, validate_phone_number, validate_mac_address,
    validate_file_path, is_safe_string.
  rewrite Hv, orb_true_r. simpl. repeat split.
Qed.

(** [None] takes the [if not username] branch of the aggregate and is
    reported as an empty field. *)
Lemma validate_credentials_format_none :
  validate_credentials_format PNone PNone
  = Ok {| username_valid := false; password_valid := false;
          username_error := str_of "Username cannot be empty";
          password_error := str_of "Password cannot be empty";
          overall_valid := false |}.
Proof. reflexivity. Qed.

(** A non-zero integer is true, so the aggregate goes on to
    [len(username)], which integers do not have. *)
Lemma validate_credentials_format_int (z : Z) (password : PyVal) :
  z <> 0 ->
  validate_credentials_format (PInt z) password = Raise TypeError.
Proof.
  intros Hz. unfold validate_credentials_format.
  destruct (validators_reject_non_strings (PInt z) eq_refl) as [-> _].
  cbn [negb]. unfold username_error_for. cbn [truthy].
  apply Z.eqb_neq in Hz. rewrite Hz. reflexivity.
Qed.

(** C5 fails on the code: [validate_credentials_format(123, "validpass")]
    raises [TypeError] instead of returning a result that marks the
    username invalid. *)
Theorem validate_credentials_format_raises :
  validate_credentials_format (PInt 123) (PStr (str_of "validpass"))
  = Raise TypeError.
Proof. reflexivity. Qed.

(** [validate_and_clean_input] does not raise: [sanitize_input] has
    already turned its argument into a string. *)
Lemma validate_and_clean_input_returns (v : PyVal) (kind : pystr) :
  exists r, validate_and_clean_input v kind = Ok r.
Proof.
  unfold validate_and_clean_input.
  destruct (truthy v); simpl; [|by eexists].
  repeat (case_bool_decide; [by eexists|]).
  case_bool_decide; [|repeat (case_bool_decide; [by eexists|]); by eexists].
  rewrite clean_ssid_str. by eexists.
Qed.

End GuardFacts.

Section SanitizeDel.
Import Validators.

(** C4 fails on the code at DEL: [sanitize_input("a\x7fb")] returns its
    argument, control character included, while the sibling check of
    [validate_campus_ssid] counts code point 127 as a control
    character. *)
Theorem sanitize_input_keeps_del :
  sanitize_input (PStr [97; 127; 98]%N) default_max_length = [97; 127; 98]%N
  /\ ssid_char_ok 127%N = false.
Proof. split; vm_compute; reflexivity. Qed.

End SanitizeDel.

(* ===================================================================== *)
(** ** The repository's own test cases, run on the embedding             *)
(* ===================================================================== *)

Section RepositoryTests.
Import Validators.

(** [test_sanitize_input] *)
Lemma test_sanitize_input :
  sanitize_input (PStr (str_of "normal text")) default_max_length
    = str_of "normal text"
  /\ sanitize_input (PStr (str_of "  spaces  ")) default_max_length
    = str_of "spaces"
  /\ sanitize_input (PStr (str_of "text" ++ [0%N] ++ str_of "with" ++ [1%N]
                           ++ str_of "control")) default_max_length
    = str_of "textwithcontrol"
  /\ sanitize_input (PStr (str_of "text" ++ [9%N] ++ str_of "with" ++ [9%N]
                           ++ str_of "tabs")) default_max_length
    = str_of "text" ++ [9%N] ++ str_of "with" ++ [9%N] ++ str_of "tabs"
  /\ sanitize_input (PStr []) default_max_length = [].
Proof. repeat split; vm_compute; reflexivity. Qed.

(** [test_clean_ssid] *)
Lemma test_clean_ssid :
  clean_ssid (PStr (str_of "  CampusWiFi  ")) = Ok (str_of "CampusWiFi")
  /\ clean_ssid (PStr (str_of "Campus" ++ [0%N] ++ str_of "WiFi"))
    = Ok (str_of "CampusWiFi")
  /\ clean_ssid (PStr (replicate 50 97%N)) = Ok (replicate 32 97%N)
  /\ clean_ssid (PStr []) = Ok [].
Proof. repeat split; vm_compute; reflexivity. Qed.

(** [test_validate_username_valid] and [test_validate_username_invalid] *)
Lemma test_validate_username :
  validate_username (PStr (str_of "test_user")) = true
  /\ validate_username (PStr (str_of "user@domain.com")) = true
  /\ validate_username (PStr (replicate 50 97%N)) = true
  /\ validate_username (PStr []) = false
  /\ validate_username (PStr (str_of "a")) = false
  /\ validate_username (PStr (replicate 101 97%N)) = false
  /\ validate_username (PStr (str_of "user with spaces")) = false
  /\ validate_username (PStr (str_of "user#hash")) = false
  /\ validate_username PNone = false
  /\ validate_username (PInt 123) = false.
Proof. repeat split; vm_compute; reflexivity. Qed.

(** The password bounds of the specification: three characters are too
    few, four are enough. *)
Lemma test_validate_password_bounds :
  validate_password (PStr (str_of "abc")) = false
  /\ validate_password (PStr (str_of "abcd")) = true
  /\ validate_password (PStr (replicate 256 97%N)) = true
  /\ validate_password (PStr (replicate 257 97%N)) = false
  /\ validate_password (PStr (str_of "    ")) = false.
Proof. repeat split; vm_compute; reflexivity. Qed.

(** [test_validate_credentials_format] *)
Lemma test_validate_credentials_format :
  validate_credentials_format (PStr (str_of "validuser")) (PStr (str_of "validpass"))
    = Ok {| username_valid := true; password_valid := true;
            username_error := []; password_error := [];
            overall_valid := true |}
  /\ validate_credentials_format (PStr []) (PStr (str_of "validpass"))
    = Ok {| username_valid := false; password_valid := true;
            username_error := str_of "Username cannot be empty";
            password_error := []; overall_valid := false |}.
Proof. split; vm_compute; reflexivity. Qed.

End RepositoryTests.

(* ===================================================================== *)
(** ** Properties of the lockout                                         *)
(* ===================================================================== *)

Section Lockout.
Import Auth.
Context {AE : AuthEnv}.

Lemma Qltb_lt (x y : Q) : Qltb x y = true <-> (x < y)%Q.
Proof.
  unfold Qltb. rewrite negb_true_iff. split.
  - intros Hb. apply Qnot_le_lt. intros Hle.
    apply Qle_bool_iff in Hle. congruence.
  - intros Hlt. destruct (Qle_bool y x) eqn:E; [|done].
    apply Qle_bool_iff in E. by apply Qlt_not_le in Hlt.
Qed.

Lemma Qltb_ge (x y : Q) : Qltb x y = false <-> (y <= x)%Q.
Proof.
  unfold Qltb. rewrite negb_false_iff. apply Qle_bool_iff.
Qed.

(** While the lockout lasts, [is_locked_out] says so and touches
    nothing. *)
Lemma is_locked_out_during now self :
  max_attempts self <= failed_attempts self ->
  (now - last_auth_attempt self < lockout_duration self)%Q ->
  is_locked_out now self = (true, self).
Proof.
  intros Hmax Hlt. unfold is_locked_out.
  apply Z.leb_le in Hmax. rewrite Hmax.
  apply Qltb_lt in Hlt. by rewrite Hlt.
Qed.

(** Once it has elapsed, [is_locked_out] resets the counter. *)
Lemma is_locked_out_after now self :
  max_attempts self <= failed_attempts self ->
  (lockout_duration self <= now - last_auth_attempt self)%Q ->
  is_locked_out now self = (false, reset_lockout self).
Proof.
  intros Hmax Hge. unfold is_locked_out.
  apply Z.leb_le in Hmax. rewrite Hmax.
  apply Qltb_ge in Hge. by rewrite Hge.
Qed.

Lemma is_locked_out_below now self :
  failed_attempts self < max_attempts self ->
  is_locked_out now self = (false, self).
Proof.
  intros Hlt. unfold is_locked_out.
  apply Z.leb_gt in Hlt. by rewrite Hlt.
Qed.

(** A user name the local check accepts is a string of at least three
    characters. *)
Lemma valid_username_truthy (username : PyVal) :
  _validate_username_format username = Ok true ->
  truthy username = true /\ exists s, username = PStr s.
Proof.
  unfold _validate_username_format.
  destruct username as [| | |s| | |]; simpl; try done.
  - destruct ((_ <? 3) || _) eqn:E; [done|]. intros _.
    split; [|by exists s]. destruct s; [done|]. reflexivity.
  - by destruct ((_ <? 3) || _).
  - by destruct ((_ <? 3) || _).
  - by destruct ((_ <? 3) || _).
Qed.

Lemma valid_password_truthy (password : PyVal) :
  _validate_password_format password = Ok true -> truthy password = true.
Proof.
  unfold _validate_password_format.
  destruct password as [| | |s|b|l|d]; simpl; try done.
  - destruct s; [done|]. reflexivity.
  - destruct b; [done|]. reflexivity.
  - destruct l; [done|]. reflexivity.
  - destruct d; [done|]. reflexivity.
Qed.

(** A local attempt with well-formed credentials succeeds and leaves the
    counter at zero. *)
Lemma _authenticate_local_valid now username password self :
  _validate_username_format username = Ok true ->
  _validate_password_format password = Ok true ->
  exists self',
    _authenticate_local now username password self = (true, self')
    /\ failed_attempts self' = 0
    /\ authenticated self' = true.
Proof.
  intros Hu Hp. unfold _authenticate_local. rewrite Hu, Hp.
  destruct (valid_username_truthy _ Hu) as [_ [s ->]].
  eexists. split; [reflexivity|]. split; reflexivity.
Qed.

(** A server attempt the server accepts succeeds and leaves the counter
    at zero. *)
Lemma _authenticate_with_server_valid now username password self
    url payload result expiry :
  auth_config_get self "url" = Ok url ->
  opt_truthy url = true ->
  build_payload (config self) username password now = Ok payload ->
  opt_truthy (dict_get result (str_of "success")) = true ->
  expiry_from now (dict_get result (str_of "expires_in")) = Ok expiry ->
  exists self',
    _authenticate_with_server now (Response 200 (Ok (PDict result)))
      username password self = (true, self')
    /\ failed_attempts self' = 0
    /\ authenticated self' = true.
Proof.
  intros Hurl Htr Hpay Hsucc Hexp. unfold _authenticate_with_server.
  rewrite Hurl, Htr, Hpay. cbn [negb]. unfold server_verdict.
  rewrite Z.eqb_refl, Hsucc, Hexp.
  eexists. split; [reflexivity|]. split; reflexivity.
Qed.

(** Every way [authenticate] answers [True] sets the counter to zero. *)
Lemma authenticate_true_resets now reply username password self self' :
  authenticate now reply username password self = (true, self') ->
  failed_attempts self' = 0.
Proof.
  unfold authenticate.
  destruct (is_locked_out now self) as [locked self1].
  destruct locked; [done|].
  destruct (negb (truthy username) || negb (truthy password)); [done|].
  destruct (auth_config_get self1 "enabled") as [enabled|]; [|done].
  destruct (opt_truthy enabled).
  - unfold _authenticate_with_server.
    destruct (auth_config_get self1 "url") as [url|]; [|done].
    destruct (negb (opt_truthy url)); [done|].
    destruct (build_payload _ _ _ _); [|done].
    unfold server_verdict. destruct reply as [|code json]; [done|].
    destruct (code =? 200); [|done].
    destruct json as [[]|]; try done.
    destruct (opt_truthy _); [|done].
    destruct (expiry_from _ _); [|done].
    by intros [= <-].
  - unfold _authenticate_local.
    destruct (_validate_username_format username) as [[]|]; try done.
    destruct (_validate_password_format password) as [[]|]; try done.
    destruct username; try done. by intros [= <-].
Qed.

(** Outside a lockout [is_locked_out] answers [False] and keeps the
    configuration. *)
Lemma is_locked_out_released now self :
  failed_attempts self < max_attempts self
  \/ (lockout_duration self <= now - last_auth_attempt self)%Q ->
  exists self1,
    is_locked_out now self = (false, self1) /\ config self1 = config self.
Proof.
  intros Hfree. unfold is_locked_out.
  destruct (max_attempts self <=? failed_attempts self) eqn:Hmax;
    [|by exists self].
  destruct Hfree as [Hlt|Hge]; [apply Z.leb_le in Hmax; lia|].
  apply Qltb_ge in Hge. rewrite Hge. by exists (reset_lockout self).
Qed.

(** C6: while the service is locked out, that is with at least
    [max_attempts] failures counted and less than [lockout_duration]
    seconds since the last one, [authenticate] answers [False] whatever
    the credentials and the server say, and changes nothing.  Outside a
    lockout, that is with fewer failures counted or once
    [lockout_duration] seconds have passed, a valid attempt answers
    [True] and leaves [failed_attempts] at 0 whatever the count was,
    valid meaning credentials that pass the local format checks when no
    server is enabled, and non-empty credentials the server accepts when
    one is.  The passing of the lockout alone already sets the count
    back: a failed attempt made then is counted as the first. *)
Theorem lockout_blocks_then_releases :
  (forall now reply username password self,
      max_attempts self <= failed_attempts self ->
      (now - last_auth_attempt self < lockout_duration self)%Q ->
      authenticate now reply username password self = (false, self))
  /\ (forall now reply username password self enabled,
      failed_attempts self < max_attempts self
      \/ (lockout_duration self <= now - last_auth_attempt self)%Q ->
      auth_config_get self "enabled" = Ok enabled ->
      opt_truthy enabled = false ->
      _validate_username_format username = Ok true ->
      _validate_password_format password = Ok true ->
      exists self',
        authenticate now reply username password self = (true, self')
        /\ failed_attempts self' = 0
        /\ authenticated self' = true)
  /\ (forall now username password self enabled url payload result expiry,
      failed_attempts self < max_attempts self
      \/ (lockout_duration self <= now - last_auth_attempt self)%Q ->
      truthy username = true ->
      truthy password = true ->
      auth_config_get self "enabled" = Ok enabled ->
      opt_truthy enabled = true ->
      auth_config_get self "url" = Ok url ->
      opt_truthy url = true ->
      build_payload (config self) username password now = Ok payload ->
      opt_truthy (dict_get result (str_of "success")) = true ->
      expiry_from now (dict_get result (str_of "expires_in")) = Ok expiry ->
      exists self',
        authenticate now (Response 200 (Ok (PDict result))) username password self
          = (true, self')
        /\ failed_attempts self' = 0
        /\ authenticated self' = true)
  /\ (forall now reply username password self enabled,
      max_attempts self <= failed_attempts self ->
      (lockout_duration self <= now - last_auth_attempt self)%Q ->
      auth_config_get self "enabled" = Ok enabled ->
      opt_truthy enabled = false ->
      truthy username = true ->
      truthy password = true ->
      _validate_password_format password = Ok false ->
      exists self',
        authenticate now reply username password self = (false, self')
        /\ failed_attempts self' = 1
        /\ last_auth_attempt self' = now).
Proof.
  split; [|split; [|split]].
  - intros now reply username password self Hmax Hlt.
    unfold authenticate. by rewrite is_locked_out_during.
  - intros now reply username password self enabled Hfree Hcfg Hen Hu Hp.
    unfold authenticate.
    destruct (is_locked_out_released now self Hfree) as (self1 & -> & Hconf).
    destruct (valid_username_truthy _ Hu) as [-> _].
    rewrite (valid_password_truthy _ Hp). cbn [negb orb].
    assert (auth_config_get self1 "enabled" = Ok enabled) as ->.
    { unfold auth_config_get in *. by rewrite Hconf. }
    rewrite Hen. by apply _authenticate_local_valid.
  - intros now username password self enabled url payload result expiry
      Hfree Hu Hp Hcfg Hen Hurl Htr Hpay Hsucc Hexp.
    unfold authenticate.
    destruct (is_locked_out_released now self Hfree) as (self1 & -> & Hconf).
    rewrite Hu, Hp. cbn [negb orb].
    assert (auth_config_get self1 "enabled" = Ok enabled) as ->.
    { unfold auth_config_get in *. by rewrite Hconf. }
    rewrite Hen.
    apply (_authenticate_with_server_valid _ _ _ _ url payload result expiry);
      try done.
    + unfold auth_config_get in *. by rewrite Hconf.
    + by rewrite Hconf.
  - intros now reply username password self enabled Hmax Hge Hcfg Hen Hu Hp Hbad.
    unfold authenticate. rewrite is_locked_out_after by done.
    rewrite Hu, Hp. cbn [negb orb].
    change (auth_config_get (reset_lockout self) "enabled")
      with (auth_config_get self "enabled").
    rewrite Hcfg, Hen. unfold _authenticate_local. rewrite Hbad.
    destruct (_validate_username_format username) as [[]|];
      (eexists; split; [reflexivity|]; split; reflexivity).
Qed.

End Lockout.

Section LockoutExamples.
Import Auth Reference LockoutScenario.

Lemma scenario_after_failures :
  failed_attempts after_failures = 5
  /\ last_auth_attempt after_failures = 5%Q
  /\ authenticated after_failures = false
  /\ failed_attempts after_server_failures = 5
  /\ last_auth_attempt after_server_failures = 5%Q.
Proof. repeat split; vm_compute; reflexivity. Qed.

Lemma lockout_blocks_then_releases_witness :
  attempt 6 good_password after_failures = (false, after_failures)
  /\ (exists self',
      attempt 305 good_password after_failures = (true, self')
      /\ failed_attempts self' = 0
      /\ authenticated self' = true)
  /\ (exists self',
      authenticate (AE := ref_auth_env) 305 (Response 200 (Ok (PDict accepted)))
        alice good_password after_server_failures = (true, self')
      /\ failed_attempts self' = 0
      /\ authenticated self' = true)
  /\ (exists self',
      attempt 305 short_password after_failures = (false, self')
      /\ failed_attempts self' = 1
      /\ last_auth_attempt self' = 305%Q)
  /\ failed_attempts (attempt 305 short_password after_failures).2 = 1
  /\ exists self',
      attempt 306 good_password (attempt 305 short_password after_failures).2
      = (true, self')
      /\ failed_attempts self' = 0
      /\ authenticated self' = true.
Proof.
  split; [|split; [|split; [|split; [|split]]]].
  - apply (proj1 (lockout_blocks_then_releases (AE := ref_auth_env))).
    + vm_compute. discriminate.
    + vm_compute. reflexivity.
  - apply (proj1 (proj2 (lockout_blocks_then_releases (AE := ref_auth_env)))
             305%Q RequestException alice good_password after_failures None).
    + right. vm_compute. discriminate.
    + reflexivity.
    + reflexivity.
    + vm_compute. reflexivity.
    + vm_compute. reflexivity.
  - apply (proj1 (proj2 (proj2 (lockout_blocks_then_releases (AE := ref_auth_env))))
             305%Q alice good_password after_server_failures
             (Some (PBool true))
             (Some (PStr (str_of "https://auth.example/login")))
             [] accepted (305 + 60)%Q).
    + right. vm_compute. discriminate.
    + reflexivity.
    + reflexivity.
    + vm_compute. reflexivity.
    + reflexivity.
    + vm_compute. reflexivity.
    + reflexivity.
    + reflexivity.
    + reflexivity.
    + reflexivity.
  - apply (proj2 (proj2 (proj2 (lockout_blocks_then_releases (AE := ref_auth_env))))
             305%Q RequestException alice short_password after_failures None).
    + vm_compute. discriminate.
    + vm_compute. discriminate.
    + reflexivity.
    + reflexivity.
    + reflexivity.
    + reflexivity.
    + vm_compute. reflexivity.
  - vm_compute. reflexivity.
  - apply (proj1 (proj2 (lockout_blocks_then_releases (AE := ref_auth_env)))
             306%Q RequestException alice good_password
             (attempt 305 short_password after_failures).2 None).
    + left. vm_compute. reflexivity.
    + reflexivity.
    + reflexivity.
    + vm_compute. reflexivity.
    + vm_compute. reflexivity.
Defined.

(** One second before the lockout ends the valid attempt is still
    refused; at the 300th second it is accepted. *)
Lemma scenario_lockout_boundary :
  (attempt (304 + 999 # 1000) good_password after_failures).1 = false
  /\ (attempt 305 good_password after_failures).1 = true.
Proof. split; vm_compute; reflexivity. Qed.

(** An attempt with an empty password is turned away before any counting:
    it does not bring the lockout nearer. *)
Lemma empty_password_not_counted now self :
  failed_attempts self < max_attempts self ->
  authenticate (AE := ref_auth_env) now RequestException alice (PStr []) self
  = (false, self).
Proof.
  intros Hlt. unfold authenticate.
  by rewrite (is_locked_out_below now self Hlt).
Qed.

(** An attempt refused by the lockout does not restart it: the time of
    the last counted failure stays. *)
Lemma scenario_blocked_attempt_keeps_clock :
  last_auth_attempt (attempt 200 good_password after_failures).2 = 5%Q.
Proof. vm_compute. reflexivity. Qed.

End LockoutExamples.

(* ===================================================================== *)
(** ** Properties of the file-system operations                          *)
(* ===================================================================== *)

Section FileFacts.
Import OS.

Lemma lookup_store_eq l f b : lookup_file (store_file l f b) f = Some b.
Proof.
  induction l as [|[g c] r IH]; simpl.
  - by rewrite bool_decide_eq_true_2.
  - case_bool_decide as E; simpl.
    + by rewrite bool_decide_eq_true_2.
    + by rewrite bool_decide_eq_false_2.
Qed.

Lemma lookup_store_ne l f g b :
  f <> g -> lookup_file (store_file l f b) g = lookup_file l g.
Proof.
  intros Hne. induction l as [|[h c] r IH]; simpl.
  - by rewrite bool_decide_eq_false_2.
  - case_bool_decide as E; simpl.
    + subst h. by rewrite !bool_decide_eq_false_2.
    + by rewrite IH.
Qed.

Lemma lookup_drop_eq l f : lookup_file (drop_file l f) f = None.
Proof.
  induction l as [|[g c] r IH]; simpl; [done|].
  case_bool_decide as E; simpl; [done|].
  by rewrite bool_decide_eq_false_2.
Qed.

Lemma lookup_drop_ne l f g :
  f <> g -> lookup_file (drop_file l f) g = lookup_file l g.
Proof.
  intros Hne. induction l as [|[h c] r IH]; simpl; [done|].
  case_bool_decide as E; simpl.
  - subst h. by rewrite bool_decide_eq_false_2.
  - by rewrite IH.
Qed.

Lemma lookup_drop_None l f g :
  lookup_file l g = None -> lookup_file (drop_file l f) g = None.
Proof.
  intros Hg. destruct (decide (f = g)) as [->|Hne].
  - apply lookup_drop_eq.
  - by rewrite lookup_drop_ne.
Qed.

(** A successful write leaves the bytes where the next read finds
    them. *)
Lemma read_after_write path b fs fs' :
  is_unreadable fs (resolve path) = false ->
  write_file path b fs = Ok fs' ->
  read_file path fs' = Ok b /\ path_exists path fs' = true.
Proof.
  unfold write_file, read_file, path_exists, is_file.
  destruct (is_readonly fs (resolve path) || is_dir fs (resolve path)
            || negb (is_dir fs (parent (resolve path)))); [done|].
  intros Hu [= <-]. unfold is_unreadable in *. simpl.
  rewrite Hu, lookup_store_eq. done.
Qed.

(** What one [os.remove] does to the state. *)
Lemma os_remove_ok path fs fs' :
  os_remove path fs = (Ok tt, fs') ->
  files fs' = drop_file (files fs) (resolve path)
  /\ dirs fs' = dirs fs /\ readonly fs' = readonly fs
  /\ unreadable fs' = unreadable fs
  /\ removals fs' = removals fs ++ [Removed (resolve path)]
  /\ is_file fs (resolve path) = true.
Proof.
  unfold os_remove.
  destruct (negb (is_readonly fs (resolve path))); simpl; [|done].
  destruct (is_file fs (resolve path)); [|done].
  by intros [= <-].
Qed.

Lemma os_remove_raise path fs fs' e :
  os_remove path fs = (Raise e, fs') ->
  files fs' = files fs /\ dirs fs' = dirs fs /\ readonly fs' = readonly fs
  /\ unreadable fs' = unreadable fs
  /\ removals fs' = removals fs ++ [RemoveFailed (resolve path)].
Proof.
  unfold os_remove.
  destruct (negb (is_readonly fs (resolve path)) && is_file fs (resolve path));
    [done|].
  by intros [= <- <-].
Qed.

End FileFacts.

(* ===================================================================== *)
(** ** Properties of the vault: credentials                              *)
(* ===================================================================== *)

(** Unfold one sequencing step of [PyResult]. *)
Ltac py_step := cbn [mbind PyResult_bind Py.bind mret PyResult_ret].

Section VaultCredentials.
Import OS Storage.
Context {CL : Cipher} {JL : Json}.

Lemma write_encrypted_inv key iv path data fs fs' :
  write_encrypted key iv path data fs = Ok fs' ->
  exists text plaintext,
    json_dumps (PDict data) = Ok text
    /\ str_encode text = Ok plaintext
    /\ write_file path (encrypt key iv plaintext) fs = Ok fs'.
Proof.
  unfold write_encrypted.
  destruct (json_dumps (PDict data)) as [text|] eqn:D; py_step; [|done].
  destruct (str_encode text) as [plaintext|] eqn:E; py_step; [|done].
  destruct (write_file path (encrypt key iv plaintext) fs) as [fs1|] eqn:W;
    py_step; [|done].
  intros [= <-]. by exists text, plaintext.
Qed.

Lemma write_encrypted_ok key iv path data fs text plaintext fs' :
  json_dumps (PDict data) = Ok text ->
  str_encode text = Ok plaintext ->
  write_file path (encrypt key iv plaintext) fs = Ok fs' ->
  write_encrypted key iv path data fs = Ok fs'.
Proof.
  intros Hd He Hw. unfold write_encrypted.
  rewrite Hd. py_step. rewrite He. py_step. rewrite Hw. reflexivity.
Qed.

Lemma merge_surrogates_cons (hi lo : N) (r : pystr) :
  merge_surrogates (hi :: lo :: r)
  = if is_high_surrogate hi && is_low_surrogate lo
    then join_surrogates hi lo :: merge_surrogates r
    else hi :: merge_surrogates (lo :: r).
Proof. reflexivity. Qed.

(** The pair of U+1F600 is joined; a high surrogate is joined with the
    low one next to it only; of two keys that become equal the first
    keeps its place and the second gives the value. *)
Lemma json_image_examples :
  merge_surrogates [97; 98; 55357; 56832]%N = [97; 98; 128512]%N
  /\ merge_surrogates [55357; 55357; 56832]%N = [55357; 128512]%N
  /\ merge_surrogates [55357; 56832; 56832]%N = [128512; 56832]%N
  /\ merge_surrogates [56832; 55357]%N = [56832; 55357]%N
  /\ json_image (PDict [ ([55357; 56832]%N, PInt 1); (str_of "x", PInt 2);
                         ([128512]%N, PInt 3) ])
     = PDict [ ([128512]%N, PInt 3); (str_of "x", PInt 2) ].
Proof. repeat split; vm_compute; reflexivity. Qed.

(** A string without a surrogate pair is read back as it is. *)
Lemma merge_surrogates_pair_free (s : pystr) :
  pair_free s = true -> merge_surrogates s = s.
Proof.
  induction s as [|hi t IH]; [done|]. destruct t as [|lo r]; [done|].
  rewrite merge_surrogates_cons.
  change (pair_free (hi :: lo :: r))
    with (negb (is_high_surrogate hi && is_low_surrogate lo) && pair_free (lo :: r)).
  intros [Hn Ht]%andb_prop. apply negb_true_iff in Hn. rewrite Hn.
  by rewrite IH.
Qed.




(** What [json.loads] makes of the record [save_credentials] writes. *)
Lemma json_image_credentials (u p c : pystr) remember (ts : pystr) :
  json_image (PDict (credentials_data u p c remember ts None))
  = PDict (credentials_data (merge_surrogates u) (merge_surrogates p)
             (merge_surrogates c) remember (merge_surrogates ts) None).
Proof. reflexivity. Qed.


(** What was written under a key the cipher accepts is read back as
    [json.loads] returns it. *)
Lemma read_after_write_encrypted key iv path data fs fs' :
  fernet_key_ok key = true ->
  is_unreadable fs (resolve path) = false ->
  write_encrypted key iv path data fs = Ok fs' ->
  read_encrypted key path fs' = Ok (json_image (PDict data))
  /\ path_exists path fs' = true.
Proof.
  intros Hkey Hu (text & plaintext & Hd & He & Hw)%write_encrypted_inv.
  apply read_after_write in Hw as [Hr Hex]; [|done]. split; [|done].
  unfold read_encrypted. rewrite Hr. py_step.
  rewrite decrypt_encrypt by done. py_step.
  rewrite (decode_encode _ _ He). py_step.
  by apply json_loads_dumps.
Qed.

Lemma save_credentials_inv self ts iv u p c remember extra fs fs' :
  save_credentials self ts iv u p c remember extra fs = (true, fs') ->
  exists key,
    cipher self = Some key
    /\ write_encrypted key iv (data_file self)
         (credentials_data u p c remember ts extra) fs = Ok fs'.
Proof.
  unfold save_credentials. destruct (cipher self) as [key|]; [|done].
  destruct (write_encrypted _ _ _ _ _) as [fs1|] eqn:W; [|done].
  intros [= <-]. by exists key.
Qed.

(** When the record serialises and the file can be written,
    [save_credentials] answers [True]. *)
Lemma save_credentials_succeeds self ts iv u p c remember extra fs key
    text plaintext fs' :
  cipher self = Some key ->
  json_dumps (PDict (credentials_data u p c remember ts extra)) = Ok text ->
  str_encode text = Ok plaintext ->
  write_file (data_file self) (encrypt key iv plaintext) fs = Ok fs' ->
  save_credentials self ts iv u p c remember extra fs = (true, fs').
Proof.
  intros Hc Hd He Hw. unfold save_credentials. rewrite Hc.
  by rewrite (write_encrypted_ok _ _ _ _ _ _ _ _ Hd He Hw).
Qed.

(** [load_credentials] once the stored record is known. *)
Lemma load_credentials_of_record self fs key d :
  cipher self = Some key ->
  read_encrypted key (data_file self) fs = Ok (PDict d) ->
  load_credentials self fs =
    Some (if negb (opt_truthy (dict_get d (str_of "remember")))
          then dict_set d (str_of "password") (PStr [])
          else d).
Proof.
  intros Hc Hr. unfold load_credentials.
  assert (path_exists (data_file self) fs = true) as ->.
  { unfold read_encrypted, read_file in Hr. unfold path_exists, is_file.
    destruct (is_unreadable fs _); [done|].
    by destruct (lookup_file _ _). }
  simpl. rewrite Hc, Hr. py_step. unfold try_except.
  by destruct (negb _).
Qed.

(** C1: on a vault whose cipher is initialised and whose credentials
    file the system lets it read, after [save_credentials(username,
    password, campus, remember=True)] has answered [True],
    [load_credentials()] returns a record whose [username], [password]
    and [campus] are the saved strings as JSON gives them back: with
    every surrogate pair joined into the code point it encodes.  They
    are the saved strings themselves whenever these hold no surrogate
    pair. *)
Theorem save_load_credentials_round_trip
    self ts iv (username password campus : pystr) fs fs' key :
  cipher self = Some key ->
  fernet_key_ok key = true ->
  is_unreadable fs (resolve (data_file self)) = false ->
  save_credentials self ts iv username password campus true None fs = (true, fs') ->
  exists d,
    load_credentials self fs' = Some d
    /\ dict_get d (str_of "username") = Some (PStr (merge_surrogates username))
    /\ dict_get d (str_of "password") = Some (PStr (merge_surrogates password))
    /\ dict_get d (str_of "campus") = Some (PStr (merge_surrogates campus))
    /\ (pair_free username = true ->
        dict_get d (str_of "username") = Some (PStr username))
    /\ (pair_free password = true ->
        dict_get d (str_of "password") = Some (PStr password))
    /\ (pair_free campus = true ->
        dict_get d (str_of "campus") = Some (PStr campus)).
Proof.
  intros Hc Hkey Hu (key' & Hc' & Hw)%save_credentials_inv.
  rewrite Hc in Hc'. injection Hc' as <-.
  apply read_after_write_encrypted in Hw as [Hr _]; [|done..].
  rewrite json_image_credentials in Hr.
  rewrite (load_credentials_of_record _ _ _ _ Hc Hr).
  eexists. split; [reflexivity|].
  split; [reflexivity|]. split; [reflexivity|]. split; [reflexivity|].
  split; [|split]; intros Hf.
  - transitivity (Some (PStr (merge_surrogates username))); [reflexivity|].
    by rewrite merge_surrogates_pair_free.
  - transitivity (Some (PStr (merge_surrogates password))); [reflexivity|].
    by rewrite merge_surrogates_pair_free.
  - transitivity (Some (PStr (merge_surrogates campus))); [reflexivity|].
    by rewrite merge_surrogates_pair_free.
Qed.

Lemma dict_get_set_eq d k v : dict_get (dict_set d k v) k = Some v.
Proof.
  induction d as [|[k' v'] r IH]; simpl.
  - by rewrite bool_decide_eq_true_2.
  - case_bool_decide as E; simpl.
    + by rewrite bool_decide_eq_true_2.
    + by rewrite bool_decide_eq_false_2.
Qed.

Lemma dict_get_set_ne d k k' v :
  k <> k' -> dict_get (dict_set d k v) k' = dict_get d k'.
Proof.
  intros Hne. induction d as [|[k0 v0] r IH]; simpl.
  - by rewrite bool_decide_eq_false_2.
  - case_bool_decide as E; simpl.
    + subst k0. by rewrite !bool_decide_eq_false_2.
    + by rewrite IH.
Qed.

(** Redaction on read: whatever record the file holds, if its
    [remember] entry is false or missing the password comes back
    empty and nothing else changes. *)
Lemma load_credentials_redacts_stored self fs key d :
  cipher self = Some key ->
  read_encrypted key (data_file self) fs = Ok (PDict d) ->
  opt_truthy (dict_get d (str_of "remember")) = false ->
  exists d',
    load_credentials self fs = Some d'
    /\ dict_get d' (str_of "password") = Some (PStr [])
    /\ forall k, k <> str_of "password" -> dict_get d' k = dict_get d k.
Proof.
  intros Hc Hr Hrem.
  rewrite (load_credentials_of_record _ _ _ _ Hc Hr), Hrem. simpl.
  eexists. split; [done|]. split.
  - apply dict_get_set_eq.
  - intros k Hk. by apply dict_get_set_ne.
Qed.

(** Not on write: what [save_credentials(..., remember=False)] hands to
    the cipher is the serialised record with the password it was given,
    and the file holds the token made of it. *)
Lemma save_credentials_stores_password self ts iv (u p c : pystr) fs fs' key :
  cipher self = Some key ->
  fernet_key_ok key = true ->
  is_unreadable fs (resolve (data_file self)) = false ->
  save_credentials self ts iv u p c false None fs = (true, fs') ->
  exists text plaintext,
    json_dumps (PDict (credentials_data u p c false ts None)) = Ok text
    /\ str_encode text = Ok plaintext
    /\ read_file (data_file self) fs' = Ok (encrypt key iv plaintext)
    /\ decrypt key (encrypt key iv plaintext) = Ok plaintext.
Proof.
  intros Hc Hkey Hu (key' & Hc' & Hw)%save_credentials_inv.
  rewrite Hc in Hc'. injection Hc' as <-.
  apply write_encrypted_inv in Hw as (text & plaintext & Hd & He & Hw).
  apply read_after_write in Hw as [Hr _]; [|done].
  exists text, plaintext. repeat split; try done. by apply decrypt_encrypt.
Qed.

(** C2: a stored record whose [remember] is false is returned with
    [password] set to the empty string whatever password it holds, the
    other entries as stored; and [save_credentials(...,
    remember=False)] still serialises and encrypts the record with the
    real password, which is what the file then holds and what the key
    decrypts from it, so the redaction is made by the read. *)
Theorem load_credentials_redaction_on_read :
  (forall self fs key d,
      cipher self = Some key ->
      read_encrypted key (data_file self) fs = Ok (PDict d) ->
      opt_truthy (dict_get d (str_of "remember")) = false ->
      exists d',
        load_credentials self fs = Some d'
        /\ dict_get d' (str_of "password") = Some (PStr [])
        /\ forall k, k <> str_of "password" -> dict_get d' k = dict_get d k)
  /\ (forall self ts iv (username password campus : pystr) fs fs' key,
      cipher self = Some key ->
      fernet_key_ok key = true ->
      is_unreadable fs (resolve (data_file self)) = false ->
      save_credentials self ts iv username password campus false None fs
        = (true, fs') ->
      (exists text plaintext,
          json_dumps (PDict (credentials_data username password campus false ts None))
          = Ok text
          /\ dict_get (credentials_data username password campus false ts None)
               (str_of "password") = Some (PStr password)
          /\ str_encode text = Ok plaintext
          /\ read_file (data_file self) fs' = Ok (encrypt key iv plaintext)
          /\ decrypt key (encrypt key iv plaintext) = Ok plaintext)
      /\ exists d',
          load_credentials self fs' = Some d'
          /\ dict_get d' (str_of "password") = Some (PStr [])
          /\ dict_get d' (str_of "username") = Some (PStr (merge_surrogates username))
          /\ dict_get d' (str_of "campus") = Some (PStr (merge_surrogates campus))).
Proof.
  split.
  - apply load_credentials_redacts_stored.
  - intros self ts iv u p c fs fs' key Hc Hkey Hu Hsave.
    destruct (save_credentials_stores_password _ _ _ _ _ _ _ _ _ Hc Hkey Hu Hsave)
      as (text & plaintext & Hd & He & Hr & Hdec).
    split; [by exists text, plaintext|].
    apply save_credentials_inv in Hsave as (key' & Hc' & Hw).
    rewrite Hc in Hc'. injection Hc' as <-.
    apply read_after_write_encrypted in Hw as [Hr' _]; [|done..].
    rewrite json_image_credentials in Hr'.
    rewrite (load_credentials_of_record _ _ _ _ Hc Hr').
    eexists. split; [reflexivity|]. repeat split; reflexivity.
Qed.

(** C3: [load_credentials()] returns [None] whenever the cipher rejects
    the bytes of the credentials file: the [InvalidToken] is handled.
    It never returns part of a file: a record it returns is the whole
    JSON object that the vault's key decrypts from the file, with the
    password blanked when ['remember'] is false.  Which bytes the
    cipher rejects is the cipher's matter. *)
Theorem load_credentials_fails_closed self fs key :
  cipher self = Some key ->
  (forall content e,
      lookup_file (files fs) (resolve (data_file self)) = Some content ->
      decrypt key content = Raise e ->
      load_credentials self fs = None)
  /\ (forall d,
      load_credentials self fs = Some d ->
      exists content plaintext text stored,
        read_file (data_file self) fs = Ok content
        /\ decrypt key content = Ok plaintext
        /\ bytes_decode plaintext = Ok text
        /\ json_loads text = Ok (PDict stored)
        /\ d = if negb (opt_truthy (dict_get stored (str_of "remember")))
               then dict_set stored (str_of "password") (PStr [])
               else stored).
Proof.
  intros Hc. split.
  - intros content e Hf Hd. unfold load_credentials.
    destruct (negb (path_exists (data_file self) fs)); [done|].
    rewrite Hc. unfold read_encrypted, read_file.
    destruct (is_unreadable fs _); [done|].
    rewrite Hf. py_step. rewrite Hd. reflexivity.
  - intros d. unfold load_credentials.
    destruct (negb (path_exists (data_file self) fs)); [done|].
    rewrite Hc. unfold read_encrypted.
    destruct (read_file (data_file self) fs) as [content|]; py_step; [|done].
    destruct (decrypt key content) as [plaintext|] eqn:E1; py_step; [|done].
    destruct (bytes_decode plaintext) as [text|] eqn:E2; py_step; [|done].
    destruct (json_loads text) as [[| | | | | |stored]|] eqn:E3; py_step;
      try done.
    unfold try_except. intros Hd.
    exists content, plaintext, text, stored. repeat split; try done.
    destruct (negb (opt_truthy (dict_get stored (str_of "remember"))));
      by injection Hd.
Qed.

(** The same holds for every other way the read can go wrong: bytes
    that are not text, text that is not JSON, JSON that is not an
    object. *)
Lemma load_credentials_absent_unless_dict self fs key :
  cipher self = Some key ->
  (forall d, read_encrypted key (data_file self) fs <> Ok (PDict d)) ->
  load_credentials self fs = None.
Proof.
  intros Hc Hno. unfold load_credentials.
  destruct (negb (path_exists (data_file self) fs)); [done|].
  rewrite Hc.
  destruct (read_encrypted key (data_file self) fs) as [[]|] eqn:E;
    try reflexivity.
  by destruct (Hno d).
Qed.

End VaultCredentials.

Section ScenarioFacts.
Import OS Storage Reference.

(** The constructor builds exactly [Scenario.vault]. *)
Lemma scenario_init :
  __init__ (CL := ref_cipher) Scenario.env Scenario.salt (Some (str_of "/vault"))
    Scenario.disk
  = Ok (Scenario.vault, Scenario.disk_ready).
Proof. vm_compute. reflexivity. Qed.

Lemma scenario_save remember :
  save_credentials (CL := ref_cipher) (JL := ref_json (Scenario.record remember))
    Scenario.vault Scenario.timestamp Scenario.iv
    (str_of "alice") (str_of "s3cret") (str_of "Main") remember None
    Scenario.disk_ready
  = (true, Scenario.disk_saved remember).
Proof. destruct remember; vm_compute; reflexivity. Qed.

Lemma save_load_credentials_round_trip_witness :
  exists d,
    load_credentials (CL := ref_cipher) (JL := ref_json (Scenario.record true))
      Scenario.vault (Scenario.disk_saved true) = Some d
    /\ dict_get d (str_of "username") = Some (PStr (str_of "alice"))
    /\ dict_get d (str_of "password") = Some (PStr (str_of "s3cret"))
    /\ dict_get d (str_of "campus") = Some (PStr (str_of "Main")).
Proof.
  destruct (save_load_credentials_round_trip (CL := ref_cipher)
              (JL := ref_json (Scenario.record true))
              Scenario.vault Scenario.timestamp Scenario.iv
              (str_of "alice") (str_of "s3cret") (str_of "Main")
              Scenario.disk_ready (Scenario.disk_saved true) Scenario.key)
    as (d & Hload & _ & _ & _ & Hu & Hp & Hc).
  - reflexivity.
  - reflexivity.
  - reflexivity.
  - vm_compute. reflexivity.
  - exists d. split; [exact Hload|]. split; [|split].
    + apply Hu. reflexivity.
    + apply Hp. reflexivity.
    + apply Hc. reflexivity.
Defined.

(** The password ['ab'] followed by the two surrogates of U+1F600 is a
    password [validate_password] accepts; it is saved, and it comes
    back as ['ab'] followed by U+1F600, one code point shorter. *)
Lemma save_load_credentials_joins_surrogates :
  Validators.validate_password (PStr KeyScenario.surrogate_password) = true
  /\ save_credentials (CL := ref_cipher) (JL := ref_json KeyScenario.record_surrogate)
       Scenario.vault Scenario.timestamp Scenario.iv (str_of "alice")
       KeyScenario.surrogate_password (str_of "Main") true None Scenario.disk_ready
     = (true, KeyScenario.disk_saved_surrogate)
  /\ exists d,
       load_credentials (CL := ref_cipher) (JL := ref_json KeyScenario.record_surrogate)
         Scenario.vault KeyScenario.disk_saved_surrogate = Some d
       /\ dict_get d (str_of "password") = Some (PStr [97; 98; 128512]%N)
       /\ dict_get d (str_of "password")
          <> Some (PStr KeyScenario.surrogate_password).
Proof.
  split; [vm_compute; reflexivity|]. split; [vm_compute; reflexivity|].
  eexists. split; [vm_compute; reflexivity|]. split; [vm_compute; reflexivity|].
  vm_compute. discriminate.
Qed.

End ScenarioFacts.

Section CredentialWitnesses.
Import OS Storage Reference.

Lemma load_credentials_redaction_on_read_witness :
  (exists text plaintext,
      json_dumps (Json := ref_json (Scenario.record false))
        (PDict (credentials_data (str_of "alice") (str_of "s3cret") (str_of "Main")
                  false Scenario.timestamp None)) = Ok text
      /\ dict_get (credentials_data (str_of "alice") (str_of "s3cret")
                     (str_of "Main") false Scenario.timestamp None)
           (str_of "password") = Some (PStr (str_of "s3cret"))
      /\ str_encode (Json := ref_json (Scenario.record false)) text = Ok plaintext
      /\ read_file (data_file Scenario.vault) (Scenario.disk_saved false)
         = Ok (encrypt (Cipher := ref_cipher) Scenario.key Scenario.iv plaintext)
      /\ decrypt (Cipher := ref_cipher) Scenario.key
           (encrypt (Cipher := ref_cipher) Scenario.key Scenario.iv plaintext)
         = Ok plaintext)
  /\ exists d',
      load_credentials (CL := ref_cipher) (JL := ref_json (Scenario.record false))
        Scenario.vault (Scenario.disk_saved false) = Some d'
      /\ dict_get d' (str_of "password") = Some (PStr [])
      /\ dict_get d' (str_of "username") = Some (PStr (str_of "alice"))
      /\ dict_get d' (str_of "campus") = Some (PStr (str_of "Main")).
Proof.
  apply (proj2 (load_credentials_redaction_on_read (CL := ref_cipher)
                  (JL := ref_json (Scenario.record false)))
           Scenario.vault Scenario.timestamp Scenario.iv
           (str_of "alice") (str_of "s3cret") (str_of "Main")
           Scenario.disk_ready (Scenario.disk_saved false) Scenario.key).
  - reflexivity.
  - reflexivity.
  - reflexivity.
  - vm_compute. reflexivity.
Defined.

Lemma load_credentials_fails_closed_witness :
  load_credentials (CL := ref_cipher) (JL := ref_json (Scenario.record true))
    Scenario.vault Scenario.disk_tampered = None.
Proof.
  eapply (proj1 (load_credentials_fails_closed (CL := ref_cipher)
                   (JL := ref_json (Scenario.record true))
                   Scenario.vault Scenario.disk_tampered Scenario.key eq_refl)).
  - vm_compute. reflexivity.
  - vm_compute. reflexivity.
Defined.

(** A changed file that loads: with a cipher that does not read the last
    octet of a token, the credentials file with one bit of its last
    byte flipped is another file of the same length, and
    [load_credentials()] returns the whole record from it. *)
Lemma load_credentials_unnoticed_change :
  (exists content content',
      lookup_file (files KeyScenario.disk_slack_saved)
        (resolve (data_file Scenario.vault)) = Some content
      /\ lookup_file (files KeyScenario.disk_slack_changed)
           (resolve (data_file Scenario.vault)) = Some content'
      /\ content' <> content
      /\ length content' = length content
      /\ removelast content' = removelast content)
  /\ load_credentials (CL := slack_cipher)
       (JL := ref_json (Scenario.record true))
       Scenario.vault KeyScenario.disk_slack_changed
     = Some (credentials_data (str_of "alice") (str_of "s3cret") (str_of "Main")
               true Scenario.timestamp None).
Proof.
  split.
  - eexists _, _. split; [vm_compute; reflexivity|].
    split; [vm_compute; reflexivity|].
    split; [vm_compute; discriminate|]. split; vm_compute; reflexivity.
  - vm_compute. reflexivity.
Qed.

(** The untouched file of the same vault still loads. *)
Lemma scenario_untampered_loads :
  load_credentials (CL := ref_cipher) (JL := ref_json (Scenario.record true))
    Scenario.vault (Scenario.disk_saved true)
  = Some (credentials_data (str_of "alice") (str_of "s3cret") (str_of "Main")
            true Scenario.timestamp None).
Proof. vm_compute. reflexivity. Qed.

End CredentialWitnesses.

(* ===================================================================== *)
(** ** Properties of the vault: configuration and machine seed           *)
(* ===================================================================== *)

Section VaultConfig.
Import OS Storage.
Context {JL : Json}.

Lemma setitem_dict (heap : Heap) obj d k v :
  heap !! obj = Some (PDict d) ->
  setitem heap obj k v = Ok (<[obj := PDict (dict_set d k v)]> heap).
Proof. intros Hd. unfold setitem. by rewrite Hd. Qed.

(** The heap [save_config] leaves behind does not depend on how the
    write to the file goes. *)
Lemma save_config_heap self ts config (heap : Heap) fs d :
  heap !! config = Some (PDict d) ->
  (save_config self ts config heap fs).1.2
  = <[config :=
        PDict (dict_set (dict_set d (str_of "version") (PStr (str_of "1.0")))
                 (str_of "updated_at") (PStr ts))]> heap.
Proof.
  intros Hd. unfold save_config.
  rewrite (setitem_dict _ _ _ _ _ Hd). cbv beta iota.
  erewrite setitem_dict by apply lookup_insert_eq. cbv beta iota.
  rewrite insert_insert_eq.
  destruct (write_file (config_file self) [] fs) as [opened|]; [|done].
  destruct (json_dumps _) as [text|].
  - by destruct (_ ≫= _).
  - by destruct (_ ≫= _).
Qed.

(** C10: [save_config(config)] changes the caller's dictionary itself:
    after the call the object passed in has ['version'] equal to ['1.0']
    and ['updated_at'] equal to the timestamp, whatever it held under
    those keys, every other entry as before, and no other object has
    changed; this holds whether the call answers [True] or [False]. *)
Theorem save_config_mutates_argument self ts config (heap : Heap) fs d :
  heap !! config = Some (PDict d) ->
  exists ok heap' fs' d',
    save_config self ts config heap fs = (ok, heap', fs')
    /\ heap' !! config = Some (PDict d')
    /\ dict_get d' (str_of "version") = Some (PStr (str_of "1.0"))
    /\ dict_get d' (str_of "updated_at") = Some (PStr ts)
    /\ (forall k, k <> str_of "version" -> k <> str_of "updated_at" ->
                  dict_get d' k = dict_get d k)
    /\ (forall other, other <> config -> heap' !! other = heap !! other).
Proof.
  intros Hd. pose proof (save_config_heap self ts config heap fs d Hd) as Hh.
  destruct (save_config self ts config heap fs) as [[ok heap'] fs'].
  simpl in Hh. subst heap'.
  eexists ok, _, fs', _. split; [reflexivity|].
  split; [apply lookup_insert_eq|]. split; [|split; [|split]].
  - rewrite dict_get_set_ne by done. apply dict_get_set_eq.
  - apply dict_get_set_eq.
  - intros k H1 H2. by rewrite !dict_get_set_ne.
  - intros other Ho. by rewrite lookup_insert_ne.
Qed.

(** An argument that is not a dictionary makes the first assignment
    raise; the handler answers [False] and nothing is written. *)
Lemma save_config_not_a_dict self ts config (heap : Heap) fs :
  (forall d, heap !! config <> Some (PDict d)) ->
  save_config self ts config heap fs = (false, heap, fs).
Proof.
  intros Hno. unfold save_config, setitem.
  destruct (heap !! config) as [[]|] eqn:E; try reflexivity.
  by destruct (Hno d).
Qed.

End VaultConfig.

Section ConfigWitnesses.
Import OS Storage Reference.

Lemma save_config_mutates_argument_witness :
  exists ok heap' fs' d',
    save_config (JL := ref_json (PDict Scenario.saved_config))
      Scenario.vault Scenario.timestamp 0%nat Scenario.caller_heap
      Scenario.disk_ready = (ok, heap', fs')
    /\ heap' !! 0%nat = Some (PDict d')
    /\ dict_get d' (str_of "version") = Some (PStr (str_of "1.0"))
    /\ dict_get d' (str_of "updated_at") = Some (PStr Scenario.timestamp)
    /\ (forall k, k <> str_of "version" -> k <> str_of "updated_at" ->
                  dict_get d' k = dict_get Scenario.caller_config k)
    /\ (forall other, other <> 0%nat ->
                      heap' !! other = Scenario.caller_heap !! other).
Proof.
  apply (save_config_mutates_argument (JL := ref_json (PDict Scenario.saved_config))
           Scenario.vault Scenario.timestamp 0%nat Scenario.caller_heap
           Scenario.disk_ready Scenario.caller_config).
  reflexivity.
Defined.

(** The call on the scenario: the caller's ['version'] is overwritten,
    ['updated_at'] is added, ['theme'] stays. *)
Lemma scenario_save_config :
  exists fs',
    save_config (JL := ref_json (PDict Scenario.saved_config))
      Scenario.vault Scenario.timestamp 0%nat Scenario.caller_heap
      Scenario.disk_ready
    = (true, {[ 0%nat := PDict Scenario.saved_config ]}, fs').
Proof. eexists. vm_compute. reflexivity. Qed.

(** With the file write-protected the call answers [False], and the
    caller's dictionary has been changed all the same. *)
Lemma scenario_save_config_fails_after_mutation :
  save_config (JL := ref_json (PDict Scenario.saved_config))
    Scenario.vault Scenario.timestamp 0%nat Scenario.caller_heap
    Scenario.disk_config_protected
  = (false, {[ 0%nat := PDict Scenario.saved_config ]},
     Scenario.disk_config_protected).
Proof. vm_compute. reflexivity. Qed.

End ConfigWitnesses.

Section MachineSeed.
Import OS Storage.

(** C8: [_get_machine_seed()] is the platform name, the machine
    architecture, the user name taken from [USERNAME], else from [USER],
    else ["unknown"], and the constant ["campus-wifi-connector-v1"], in
    that order and with nothing between them; it is a function of these
    readings alone, so that calls made while they stay the same return
    the same string. *)
Theorem get_machine_seed_deterministic :
  (forall env,
      _get_machine_seed env
      = platform_system env ++ platform_machine env
        ++ match environ env !! str_of "USERNAME" with
           | Some user => user
           | None =>
               match environ env !! str_of "USER" with
               | Some user => user
               | None => str_of "unknown"
               end
           end
        ++ str_of "campus-wifi-connector-v1")
  /\ (forall env1 env2,
      platform_system env1 = platform_system env2 ->
      platform_machine env1 = platform_machine env2 ->
      environ env1 !! str_of "USERNAME" = environ env2 !! str_of "USERNAME" ->
      environ env1 !! str_of "USER" = environ env2 !! str_of "USER" ->
      _get_machine_seed env1 = _get_machine_seed env2).
Proof.
  assert (forall env,
      _get_machine_seed env
      = platform_system env ++ platform_machine env
        ++ match environ env !! str_of "USERNAME" with
           | Some user => user
           | None =>
               match environ env !! str_of "USER" with
               | Some user => user
               | None => str_of "unknown"
               end
           end
        ++ str_of "campus-wifi-connector-v1") as Hseed.
  { intros env. unfold _get_machine_seed, environ_get.
    cbn [app concat]. by rewrite app_nil_r. }
  split; [exact Hseed|].
  intros env1 env2 Hs Hm Hu1 Hu2. rewrite !Hseed.
  unfold pystr in *. by rewrite Hs, Hm, Hu1, Hu2.
Qed.

Lemma get_machine_seed_deterministic_witness :
  _get_machine_seed Scenario.env
  = _get_machine_seed
      {| platform_system := str_of "Linux";
         platform_machine := str_of "x86_64";
         environ := {[ str_of "USER" := str_of "alice";
                       str_of "HOME" := str_of "/home/alice" ]};
         home := str_of "/root" |}.
Proof.
  apply (proj2 get_machine_seed_deterministic).
  - reflexivity.
  - reflexivity.
  - vm_compute. reflexivity.
  - vm_compute. reflexivity.
Defined.

(** On the machine of the scenario. *)
Lemma scenario_seed :
  _get_machine_seed Scenario.env
  = str_of "Linuxx86_64alicecampus-wifi-connector-v1".
Proof. vm_compute. reflexivity. Qed.

(** With neither [USERNAME] nor [USER] set the user part is
    ["unknown"]. *)
Lemma seed_without_user :
  _get_machine_seed
    {| platform_system := str_of "Linux"; platform_machine := str_of "x86_64";
       environ := ∅; home := [] |}
  = str_of "Linuxx86_64unknowncampus-wifi-connector-v1".
Proof. vm_compute. reflexivity. Qed.

End MachineSeed.

(* ===================================================================== *)
(** ** Properties of paths and directory listings                        *)
(* ===================================================================== *)

Section PathFacts.
Import OS.

Lemma split_slash_nonempty (s : pystr) : split_slash s <> [].
Proof.
  destruct s as [|c r]; simpl; [done|].
  destruct (c =? 47)%N; [done|]. by destruct (split_slash r).
Qed.

Lemma split_slash_app (a b : pystr) :
  split_slash (a ++ 47%N :: b) = split_slash a ++ split_slash b.
Proof.
  induction a as [|c a IH]; simpl; [done|].
  destruct (c =? 47)%N; [by rewrite IH|].
  rewrite IH. pose proof (split_slash_nonempty a).
  by destruct (split_slash a).
Qed.

Lemma split_slash_one (n : pystr) :
  char_in 47%N n = false -> split_slash n = [n].
Proof.
  unfold char_in. intros Hn%bool_decide_eq_false.
  induction n as [|c r IH]; simpl; [done|].
  destruct (c =? 47)%N eqn:E.
  - apply N.eqb_eq in E. subst c. destruct Hn. by left.
  - rewrite IH; [done|]. intros Hr. apply Hn. by right.
Qed.

Lemma norm_step_plain absolute stack (n : pystr) :
  plain n = true -> norm_step absolute stack n = n :: stack.
Proof.
  unfold plain, norm_step.
  intros [[[_ H1]%andb_prop H2]%andb_prop H3]%andb_prop.
  apply negb_true_iff in H1, H2, H3.
  by rewrite H1, H2, H3.
Qed.

Lemma norm_step_empty absolute stack : norm_step absolute stack [] = stack.
Proof. reflexivity. Qed.

Lemma plain_no_slash (n : pystr) : plain n = true -> char_in 47%N n = false.
Proof.
  unfold plain. intros [[[H _]%andb_prop _]%andb_prop _]%andb_prop.
  by apply negb_true_iff.
Qed.

Lemma plain_not_absolute (n : pystr) : plain n = true -> startswith n [47%N] = false.
Proof.
  intros Hn%plain_no_slash. unfold startswith, char_in in *.
  apply bool_decide_eq_false in Hn. apply bool_decide_eq_false.
  destruct n as [|c r]; simpl; [done|].
  rewrite take_0. intros [= ->]. apply Hn. by left.
Qed.

Lemma endswith_slash (d : pystr) :
  endswith d [47%N] = true -> exists d', d = d' ++ [47%N].
Proof.
  unfold endswith. intros [H1 H2]%andb_prop.
  apply bool_decide_eq_true in H1, H2. simpl in *.
  exists (take (length d - 1) d).
  rewrite <- H1 at 1. by rewrite take_drop.
Qed.

Lemma startswith_app (d rest : pystr) :
  d <> [] -> startswith (d ++ rest) [47%N] = startswith d [47%N].
Proof. unfold startswith. by destruct d. Qed.

(** Joining a directory and a plain name names the entry of that name
    in the directory. *)
Lemma resolve_join_plain (d n : pystr) :
  plain n = true -> resolve (join d n) = child (resolve d) n.
Proof.
  intros Hn. pose proof (plain_not_absolute n Hn) as Hrel.
  pose proof (split_slash_one n (plain_no_slash n Hn)) as Hsplit.
  unfold join. rewrite Hrel.
  destruct (bool_decide (d = [])) eqn:Hd; simpl.
  { apply bool_decide_eq_true in Hd. subst d. simpl.
    unfold resolve, child. rewrite Hrel, Hsplit. simpl.
    by rewrite norm_step_plain. }
  apply bool_decide_eq_false in Hd.
  destruct (endswith d [47%N]) eqn:He.
  - destruct (endswith_slash d He) as [d' ->].
    unfold resolve, child. cbn [fst snd].
    rewrite (startswith_app (d' ++ [47%N]) n) by (by destruct d').
    rewrite <- app_assoc. cbn [app].
    rewrite !split_slash_app, Hsplit. cbn [split_slash].
    rewrite !fold_left_app. cbn [fold_left].
    rewrite norm_step_plain by done. rewrite norm_step_empty.
    by rewrite reverse_cons.
  - unfold resolve, child. cbn [fst snd app].
    rewrite (startswith_app d (47%N :: n)) by done.
    rewrite split_slash_app, Hsplit, fold_left_app. cbn [fold_left].
    rewrite norm_step_plain by done.
    by rewrite reverse_cons.
Qed.

Lemma endswith_app (k suffix : pystr) : endswith (k ++ suffix) suffix = true.
Proof.
  unfold endswith. rewrite length_app.
  apply andb_true_intro; split; apply bool_decide_eq_true; [|lia].
  replace (length k + length suffix - length suffix)%nat with (length k) by lia.
  apply drop_app_length.
Qed.

(** A key without a slash gives a plain file name. *)
Lemma plain_dat (k : pystr) :
  char_in 47%N k = false -> plain (k ++ str_of ".dat") = true.
Proof.
  intros Hk. unfold plain, char_in in *.
  apply bool_decide_eq_false in Hk.
  repeat (apply andb_true_intro; split); apply negb_true_iff, bool_decide_eq_false.
  - rewrite elem_of_app. intros [?|Hd]; [done|].
    vm_compute in Hd. repeat (apply elem_of_cons in Hd as [Hd|Hd]; [done|]).
    by apply elem_of_nil in Hd.
  - by destruct k.
  - intros E. apply (f_equal length) in E. rewrite length_app in E.
    simpl in E. lia.
  - intros E. apply (f_equal length) in E. rewrite length_app in E.
    simpl in E. lia.
Qed.

Lemma lookup_file_elem l f b :
  lookup_file l f = Some b -> exists b', (f, b') ∈ l.
Proof.
  induction l as [|[g c] r IH]; simpl; [done|].
  case_bool_decide as E.
  - subst g. intros _. exists c. by left.
  - intros [b' Hb]%IH. exists b'. by right.
Qed.

Lemma name_in_child d n : plain n = true -> name_in d (child d n) = Some n.
Proof.
  intros Hn. unfold name_in, child. simpl.
  rewrite last_snoc. rewrite bool_decide_eq_true_2 by done.
  by rewrite Hn.
Qed.

(** [os.listdir] reports every file of the directory. *)
Lemma os_listdir_complete path fs names n :
  os_listdir path fs = Ok names ->
  plain n = true ->
  is_file fs (child (resolve path) n) = true ->
  n ∈ names.
Proof.
  unfold os_listdir, is_file.
  destruct (is_unreadable fs (resolve path) || negb (is_dir fs (resolve path)));
    [done|].
  intros [= <-] Hn Hf.
  destruct (lookup_file (files fs) (child (resolve path) n)) as [b|] eqn:E;
    [|done].
  apply lookup_file_elem in E as [b' Hb'].
  apply elem_of_app. left. apply list_elem_of_omap.
  exists (child (resolve path) n, b'). split; [done|].
  by apply name_in_child.
Qed.

End PathFacts.

(* ===================================================================== *)
(** ** Properties of the vault: clearing                                 *)
(* ===================================================================== *)

Section Clearing.
Import OS Storage.

Lemma only_removes_refl fs : only_removes fs fs [].
Proof.
  unfold only_removes. rewrite app_nil_r. repeat split; try done.
  intros f. by left.
Qed.

Lemma only_removes_trans fs1 fs2 fs3 evs1 evs2 :
  only_removes fs1 fs2 evs1 -> only_removes fs2 fs3 evs2 ->
  only_removes fs1 fs3 (evs1 ++ evs2).
Proof.
  intros (Hd1 & Hr1 & Hu1 & He1 & Hf1) (Hd2 & Hr2 & Hu2 & He2 & Hf2).
  unfold only_removes.
  rewrite Hd2, Hd1, Hr2, Hr1, Hu2, Hu1, He2, He1, app_assoc.
  repeat split; try done.
  intros f. destruct (Hf2 f) as [E2|[E2 In2]].
  - destruct (Hf1 f) as [E1|[E1 In1]].
    + left. by rewrite E2.
    + right. split; [by rewrite E2|]. apply elem_of_app. by left.
  - right. split; [done|]. apply elem_of_app. by right.
Qed.

Lemma only_removes_gone fs fs' evs f :
  only_removes fs fs' evs ->
  lookup_file (files fs) f = None -> lookup_file (files fs') f = None.
Proof.
  intros (_ & _ & _ & _ & Hf) Hn. destruct (Hf f) as [E|[E _]]; [|done].
  by rewrite E.
Qed.

Lemma os_remove_only_removes path fs r fs' :
  os_remove path fs = (r, fs') ->
  (r = Ok tt /\ only_removes fs fs' [Removed (resolve path)]
   /\ lookup_file (files fs') (resolve path) = None)
  \/ ((exists e, r = Raise e)
      /\ only_removes fs fs' [RemoveFailed (resolve path)]).
Proof.
  intros Hrm. destruct r as [[]|e].
  - left. destruct (os_remove_ok _ _ _ Hrm) as (Hf & Hd & Hr & Hu & He & _).
    split; [done|]. split.
    + unfold only_removes. repeat split; try done.
      intros f. rewrite Hf. destruct (decide (resolve path = f)) as [<-|Hne].
      * right. split; [apply lookup_drop_eq | by left].
      * left. by apply lookup_drop_ne.
    + rewrite Hf. apply lookup_drop_eq.
  - right. destruct (os_remove_raise _ _ _ _ Hrm) as (Hf & Hd & Hr & Hu & He).
    split; [by exists e|].
    unfold only_removes. repeat split; try done.
    intros f. left. by rewrite Hf.
Qed.

(** [if os.path.exists(path): os.remove(path)], guarded. *)
Lemma remove_if_exists_spec path fs ok fs' :
  remove_if_exists path fs = (ok, fs') ->
  exists evs,
    only_removes fs fs' evs
    /\ (path_exists path fs = true ->
        evs = [Removed (resolve path)] \/ evs = [RemoveFailed (resolve path)])
    /\ (ok = true ->
        forallb is_removed evs = true
        /\ lookup_file (files fs') (resolve path) = None).
Proof.
  unfold remove_if_exists.
  destruct (path_exists path fs) eqn:Hex.
  - destruct (os_remove path fs) as [r fs1] eqn:Hrm.
    destruct (os_remove_only_removes _ _ _ _ Hrm)
      as [(-> & Hon & Hgone)|([e ->] & Hon)]; intros [= <- <-].
    + exists [Removed (resolve path)]. split; [done|]. split; [by left|done].
    + exists [RemoveFailed (resolve path)]. split; [done|]. split; [by right|done].
  - intros [= <- <-]. exists []. split; [apply only_removes_refl|].
    split; [done|]. intros _. split; [done|].
    unfold path_exists, is_file in Hex.
    apply orb_false_elim in Hex as [Hex _].
    by destruct (lookup_file (files fs) (resolve path)).
Qed.

(** The loop over the listing. *)
Lemma remove_listed_spec self names fs ok fs' :
  remove_listed self names fs = (ok, fs') ->
  exists evs,
    only_removes fs fs' evs
    /\ (ok = true ->
        forallb is_removed evs = true
        /\ forall n,
            n ∈ names ->
            endswith n (str_of ".dat") = true ->
            n <> str_of "credentials.dat" ->
            lookup_file (files fs') (resolve (join (storage_dir self) n)) = None).
Proof.
  revert fs. induction names as [|file rest IH]; intros fs; cbn [remove_listed].
  - intros [= <- <-]. exists []. split; [apply only_removes_refl|].
    intros _. split; [done|]. intros n Hn. by apply elem_of_nil in Hn.
  - destruct (endswith file (str_of ".dat")
              && negb (bool_decide (file = str_of "credentials.dat"))) eqn:Hsel.
    + destruct (os_remove (join (storage_dir self) file) fs) as [r fs1] eqn:Hrm.
      destruct (os_remove_only_removes _ _ _ _ Hrm)
        as [(-> & Hon & Hgone)|([e ->] & Hon)].
      * intros (evs & Hon' & Hok)%IH.
        eexists. split; [by eapply only_removes_trans|].
        intros Hok'. destruct (Hok Hok') as [Hall Hrest]. split; [done|].
        intros n [->|Hn]%elem_of_cons Hdat Hcred.
        -- by eapply only_removes_gone.
        -- by apply Hrest.
      * intros [= <- <-]. eexists. split; [exact Hon|]. done.
    + intros (evs & Hon' & Hok)%IH. exists evs. split; [done|].
      intros Hok'. destruct (Hok Hok') as [Hall Hrest]. split; [done|].
      intros n [->|Hn]%elem_of_cons Hdat Hcred; [|by apply Hrest].
      rewrite Hdat in Hsel. cbn [andb] in Hsel.
      apply negb_false_iff, bool_decide_eq_true in Hsel. done.
Qed.

(** Where nothing stands in the way, the removals succeed. *)
Lemma remove_if_exists_unprotected path fs ok fs' :
  remove_if_exists path fs = (ok, fs') ->
  is_readonly fs (resolve path) = false ->
  is_dir fs (resolve path) = false ->
  ok = true.
Proof.
  unfold remove_if_exists, path_exists, os_remove. intros Hrm Hro Hd.
  rewrite Hro, Hd, orb_false_r in Hrm.
  destruct (is_file fs (resolve path)); cbn [negb andb] in Hrm; by inversion Hrm.
Qed.

Lemma NoDup_drop_file l f : NoDup l.*1 -> NoDup (drop_file l f).*1.
Proof.
  induction l as [|[g c] r IH]; [done|].
  cbn [fmap list_fmap fst]. intros [Hnin Hnd]%NoDup_cons.
  unfold drop_file. cbn [List.filter fst].
  destruct (negb (bool_decide (g = f))); [|by apply IH].
  cbn [fmap list_fmap fst]. apply NoDup_cons. split; [|by apply IH].
  intros Hin. apply Hnin.
  apply list_elem_of_fmap in Hin as ([g' c'] & -> & Hin).
  apply list_elem_of_fmap. exists (g', c'). split; [done|].
  apply list_elem_of_In in Hin. apply filter_In in Hin as [Hin _].
  by apply list_elem_of_In.
Qed.

(** The guarded removal keeps what the success of later removals needs. *)
Lemma remove_if_exists_keeps path fs ok fs' :
  remove_if_exists path fs = (ok, fs') ->
  readonly fs' = readonly fs /\ dirs fs' = dirs fs
  /\ unreadable fs' = unreadable fs
  /\ (NoDup (files fs).*1 -> NoDup (files fs').*1).
Proof.
  unfold remove_if_exists, os_remove.
  destruct (path_exists path fs); [|by intros [= <- <-]].
  destruct (negb (is_readonly fs (resolve path)) && is_file fs (resolve path));
    intros [= <- <-]; cbn [readonly dirs unreadable files];
    repeat split; try done.
  apply NoDup_drop_file.
Qed.

Lemma name_in_Some d f n :
  name_in d f = Some n -> f = child d n /\ plain n = true.
Proof.
  unfold name_in. destruct (last f.2) as [m|]; [|done].
  case_bool_decide as E; cbn [andb]; [|done].
  destruct (plain m) eqn:Hp; [|done]. by intros [= <-].
Qed.

Lemma lookup_file_listed l f : f ∈ l.*1 -> exists b, lookup_file l f = Some b.
Proof.
  induction l as [|[g c] r IH]; cbn [fmap list_fmap fst lookup_file].
  - by intros ?%elem_of_nil.
  - intros [->|Hin]%elem_of_cons.
    + exists c. by rewrite bool_decide_eq_true_2.
    + case_bool_decide; [by exists c | by apply IH].
Qed.

(** The loop removes every listed file when none is protected. *)
Lemma remove_listed_unprotected self (l : list (fileid * pybytes)) : forall fs,
  readonly fs = [] ->
  NoDup l.*1 ->
  (forall f, f ∈ l.*1 -> is_file fs f = true) ->
  (remove_listed self
     (omap (fun gb => name_in (resolve (storage_dir self)) gb.1) l) fs).1 = true.
Proof.
  induction l as [|[f b] r IH]; intros fs Hro Hnd Hfiles; [done|].
  cbn [fmap list_fmap fst] in Hnd, Hfiles.
  apply NoDup_cons in Hnd as [Hnin Hnd].
  assert (forall f', f' ∈ r.*1 -> is_file fs f' = true) as Hrest.
  { intros f' Hin. apply Hfiles. by right. }
  cbn [omap list_omap fst].
  destruct (name_in (resolve (storage_dir self)) f) as [n|] eqn:Hn;
    [|by apply IH].
  cbn [remove_listed].
  destruct (endswith n (str_of ".dat")
            && negb (bool_decide (n = str_of "credentials.dat")));
    [|by apply IH].
  apply name_in_Some in Hn as [-> Hp].
  unfold os_remove. cbv zeta. rewrite (resolve_join_plain _ _ Hp).
  assert (is_readonly fs (child (resolve (storage_dir self)) n) = false) as ->.
  { unfold is_readonly. rewrite Hro. apply bool_decide_eq_false_2.
    by intros ?%elem_of_nil. }
  rewrite (Hfiles (child (resolve (storage_dir self)) n)) by (by left).
  cbn [negb andb].
  apply IH; [done | done |].
  intros f' Hin. unfold is_file. cbn [files].
  rewrite lookup_drop_ne by (intros E; apply Hnin; by rewrite E).
  by apply Hrest.
Qed.

Lemma omap_all_None {A B} (g : A -> option B) (l : list A) :
  (forall x, x ∈ l -> g x = None) -> omap g l = [].
Proof.
  induction l as [|x r IH]; [done|]. intros Hall.
  cbn [omap list_omap]. rewrite (Hall x) by (by left).
  apply IH. intros y Hy. apply Hall. by right.
Qed.

End Clearing.

Section ClearAll.
Import OS Storage.
Context {CL : Cipher} {JL : Json}.

Lemma load_credentials_no_file self fs :
  lookup_file (files fs) (resolve (data_file self)) = None ->
  load_credentials self fs = None.
Proof.
  intros Hn. unfold load_credentials.
  destruct (negb (path_exists (data_file self) fs)); [done|].
  destruct (cipher self) as [key|]; [|done].
  unfold read_encrypted, read_file. rewrite Hn.
  by destruct (is_unreadable fs _).
Qed.

Lemma load_config_no_file self fs :
  lookup_file (files fs) (resolve (config_file self)) = None ->
  load_config self fs = None.
Proof.
  intros Hn. unfold load_config.
  destruct (negb (path_exists (config_file self) fs)); [done|].
  unfold read_file. rewrite Hn.
  by destruct (is_unreadable fs _).
Qed.

Lemma load_secure_data_no_file self key fs :
  lookup_file (files fs) (resolve (secure_file self key)) = None ->
  load_secure_data self key fs = PNone.
Proof.
  intros Hn. unfold load_secure_data.
  destruct (negb (path_exists (secure_file self key) fs)); [done|].
  destruct (cipher self) as [k|]; [|done].
  unfold read_encrypted, read_file. rewrite Hn.
  by destruct (is_unreadable fs _).
Qed.

(** A path that exists either still exists after some removals or was
    removed by one of them. *)
Lemma only_removes_exists fs fs' evs path :
  only_removes fs fs' evs ->
  path_exists path fs = true ->
  path_exists path fs' = true \/ Removed (resolve path) ∈ evs.
Proof.
  intros (Hd & _ & _ & _ & Hf) Hex.
  destruct (Hf (resolve path)) as [E|[_ Hin]]; [|by right].
  left. unfold path_exists, is_file, is_dir in *. by rewrite E, Hd.
Qed.

Lemma attempted_app_l path evs1 evs2 :
  attempted path evs1 -> attempted path (evs1 ++ evs2).
Proof. intros [?|?]; [left|right]; apply elem_of_app; by left. Qed.

Lemma attempted_app_r path evs1 evs2 :
  attempted path evs2 -> attempted path (evs1 ++ evs2).
Proof. intros [?|?]; [left|right]; apply elem_of_app; by right. Qed.

Lemma attempted_single path evs :
  evs = [Removed (resolve path)] \/ evs = [RemoveFailed (resolve path)] ->
  attempted path evs.
Proof. intros [-> | ->]; [left|right]; by left. Qed.

(** C7, amended: [clear_all_data()] only removes files.  It calls
    [os.remove] on the credentials file, the configuration file and the
    key file, each one if it exists and whatever became of the others.
    It answers [True] only if every [os.remove] it called succeeded, and
    when it answers [True] the key file is gone, no file of a key
    without a slash is left, and [load_credentials()], [load_config()]
    and [load_secure_data(k)], for every such key [k], are absent.  It
    does answer [True] when nothing is write-protected and the storage
    directory can be listed and holds no sub-directory.  The
    directories, the storage directory among them, are as before. *)
Theorem clear_all_data_spec self fs :
  well_formed self ->
  exists ok fs' evs,
    clear_all_data self fs = (ok, fs')
    /\ only_removes fs fs' evs
    /\ (forall path,
           path ∈ [data_file self; config_file self; key_file self] ->
           path_exists path fs = true -> attempted path evs)
    /\ (ok = true ->
        forallb is_removed evs = true
        /\ is_file fs' (resolve (key_file self)) = false
        /\ load_credentials self fs' = None
        /\ load_config self fs' = None
        /\ forall k, char_in 47%N k = false ->
                     is_file fs' (resolve (secure_file self k)) = false
                     /\ load_secure_data self k fs' = PNone)
    /\ dirs fs' = dirs fs
    /\ (readonly fs = [] ->
        NoDup (files fs).*1 ->
        is_dir fs (resolve (storage_dir self)) = true ->
        is_unreadable fs (resolve (storage_dir self)) = false ->
        (forall f, f ∈ dirs fs -> name_in (resolve (storage_dir self)) f = None) ->
        ok = true).
Proof.
  intros (Hkey & Hdata & Hconf).
  unfold clear_all_data, clear_credentials, clear_config.
  destruct (remove_if_exists (data_file self) fs) as [ok1 fs1] eqn:H1.
  destruct (remove_if_exists (config_file self) fs1) as [ok2 fs2] eqn:H2.
  destruct (remove_if_exists (key_file self) fs2) as [ok3 fs3] eqn:H3.
  destruct (remove_if_exists_spec _ _ _ _ H1) as (evs1 & On1 & At1 & Ok1).
  destruct (remove_if_exists_spec _ _ _ _ H2) as (evs2 & On2 & At2 & Ok2).
  destruct (remove_if_exists_spec _ _ _ _ H3) as (evs3 & On3 & At3 & Ok3).
  pose proof (only_removes_trans _ _ _ _ _ On1 On2) as On12.
  pose proof (only_removes_trans _ _ _ _ _ On12 On3) as On123.
  assert (exists ok4 fs4 evs4,
      match os_listdir (storage_dir self) fs3 with
      | Ok names => remove_listed self names fs3
      | Raise _ => (false, fs3)
      end = (ok4, fs4)
      /\ only_removes fs3 fs4 evs4
      /\ (ok4 = true ->
          forallb is_removed evs4 = true
          /\ forall k, char_in 47%N k = false ->
                k ++ str_of ".dat" <> str_of "credentials.dat" ->
                lookup_file (files fs4) (resolve (secure_file self k)) = None))
    as (ok4 & fs4 & evs4 & H4 & On4 & Ok4).
  { destruct (os_listdir (storage_dir self) fs3) as [names|e] eqn:HL.
    - destruct (remove_listed self names fs3) as [ok4 fs4] eqn:HR.
      destruct (remove_listed_spec _ _ _ _ _ HR) as (evs4 & On4 & Ok4).
      exists ok4, fs4, evs4. split; [done|]. split; [done|].
      intros Hok. destruct (Ok4 Hok) as [Hall Hlisted]. split; [done|].
      intros k Hk Hne. unfold secure_file.
      destruct (lookup_file (files fs3)
                  (resolve (join (storage_dir self) (k ++ str_of ".dat"))))
        as [b|] eqn:E.
      + apply Hlisted; [|apply endswith_app|done].
        eapply os_listdir_complete; [exact HL | by apply plain_dat |].
        rewrite <- resolve_join_plain by (by apply plain_dat).
        unfold is_file. by rewrite E.
      + by eapply only_removes_gone.
    - exists false, fs3, []. split; [done|].
      split; [apply only_removes_refl | done]. }
  rewrite H4.
  pose proof (only_removes_trans _ _ _ _ _ On123 On4) as On.
  eexists _, fs4, _. split; [reflexivity|]. split; [exact On|].
  split; [|split; [|split; [by destruct On as [-> _]|]]].
  - intros path Hp Hex.
    apply elem_of_cons in Hp as [->|Hp]; [|apply elem_of_cons in Hp as [->|Hp]].
    + do 3 apply attempted_app_l. by apply attempted_single, At1.
    + apply attempted_app_l.
      destruct (only_removes_exists _ _ _ _ On1 Hex) as [Hex1|Hin].
      * apply attempted_app_l, attempted_app_r. by apply attempted_single, At2.
      * left. apply elem_of_app; left. apply elem_of_app; by left.
    + apply list_elem_of_singleton in Hp as ->. apply attempted_app_l.
      destruct (only_removes_exists _ _ _ _ On12 Hex) as [Hex2|Hin].
      * apply attempted_app_r. by apply attempted_single, At3.
      * left. apply elem_of_app; by left.
  - intros Hok.
    destruct ok1, ok2, ok3, ok4; try discriminate Hok.
    destruct (Ok1 eq_refl) as [A1 G1]. destruct (Ok2 eq_refl) as [A2 G2].
    destruct (Ok3 eq_refl) as [A3 G3]. destruct (Ok4 eq_refl) as [A4 G4].
    pose proof (only_removes_trans _ _ _ _ _ On2 On3) as On23.
    pose proof (only_removes_trans _ _ _ _ _ On23 On4) as On234.
    pose proof (only_removes_trans _ _ _ _ _ On3 On4) as On34.
    assert (lookup_file (files fs4) (resolve (data_file self)) = None) as Gd
      by exact (only_removes_gone _ _ _ _ On234 G1).
    split; [by rewrite !forallb_app, A1, A2, A3, A4|].
    split; [|split; [|split]].
    + unfold is_file. by rewrite (only_removes_gone _ _ _ _ On4 G3).
    + by apply load_credentials_no_file.
    + apply load_config_no_file. exact (only_removes_gone _ _ _ _ On34 G2).
    + intros k Hk.
      assert (lookup_file (files fs4) (resolve (secure_file self k)) = None) as Gk.
      { destruct (decide (k ++ str_of ".dat" = str_of "credentials.dat"))
          as [E|Hne].
        - unfold secure_file. by rewrite E, <- Hdata.
        - by apply G4. }
      split; [unfold is_file; by rewrite Gk | by apply load_secure_data_no_file].
  - intros Hro Hnd Hdir Hun Hnosub.
    assert (forall n, plain n = true ->
              is_dir fs (resolve (join (storage_dir self) n)) = false) as Hnodir.
    { intros n Hn. rewrite (resolve_join_plain _ _ Hn).
      unfold is_dir. apply bool_decide_eq_false_2. intros Hin.
      apply Hnosub in Hin. by rewrite (name_in_child _ _ Hn) in Hin. }
    assert (forall f, is_readonly fs f = false) as Hfree.
    { intros f. unfold is_readonly. rewrite Hro.
      apply bool_decide_eq_false_2. by intros ?%elem_of_nil. }
    destruct (remove_if_exists_keeps _ _ _ _ H1) as (R1 & D1 & U1 & N1).
    destruct (remove_if_exists_keeps _ _ _ _ H2) as (R2 & D2 & U2 & N2).
    destruct (remove_if_exists_keeps _ _ _ _ H3) as (R3 & D3 & U3 & N3).
    assert (ok1 = true) as ->.
    { apply (remove_if_exists_unprotected _ _ _ _ H1); [done|].
      rewrite Hdata. by apply Hnodir. }
    assert (ok2 = true) as ->.
    { apply (remove_if_exists_unprotected _ _ _ _ H2).
      - unfold is_readonly. rewrite R1. apply Hfree.
      - unfold is_dir. rewrite D1, Hconf. by apply Hnodir. }
    assert (ok3 = true) as ->.
    { apply (remove_if_exists_unprotected _ _ _ _ H3).
      - unfold is_readonly. rewrite R2, R1. apply Hfree.
      - unfold is_dir. rewrite D2, D1, Hkey. by apply Hnodir. }
    assert (ok4 = true) as ->; [|done].
    unfold os_listdir in H4.
    assert (is_unreadable fs3 (resolve (storage_dir self)) = false) as Hun3.
    { unfold is_unreadable in *. by rewrite U3, U2, U1. }
    assert (is_dir fs3 (resolve (storage_dir self)) = true) as Hdir3.
    { unfold is_dir in *. by rewrite D3, D2, D1. }
    rewrite Hun3, Hdir3 in H4. cbn [negb orb] in H4.
    rewrite (omap_all_None (name_in (resolve (storage_dir self))) (dirs fs3)),
      app_nil_r in H4 by (rewrite D3, D2, D1; exact Hnosub).
    pose proof (remove_listed_unprotected self (files fs3) fs3) as Hall.
    rewrite H4 in Hall. apply Hall.
    + by rewrite R3, R2, R1.
    + by apply N3, N2, N1.
    + intros f Hin. unfold is_file.
      by destruct (lookup_file_listed _ _ Hin) as [b ->].
Qed.

End ClearAll.

Section ClearAllExamples.
Import OS Storage Reference.

Lemma scenario_well_formed : well_formed Scenario.vault.
Proof. repeat split. Qed.

(** The constructor always yields a well-formed vault with a key the
    cipher accepts. *)
Lemma init_well_formed {CL : Cipher} env salt storage_path fs self fs' :
  __init__ env salt storage_path fs = Ok (self, fs') ->
  well_formed self
  /\ exists key, cipher self = Some key /\ fernet_key_ok key = true.
Proof.
  unfold __init__.
  set (dir := match storage_path with Some p => _ | None => _ end).
  destruct (os_makedirs dir fs) as [fs1|]; py_step; [|done].
  destruct (_get_or_create_key env salt _ fs1) as [[key fs2]|]; py_step; [|done].
  cbn [fst snd]. destruct (fernet_key_ok key) eqn:Hk; [|done].
  intros [= <- <-]. split; [by repeat split|]. by exists key.
Qed.

(** The vault in full use holds the four files. *)
Lemma scenario_disk_full :
  is_file KeyScenario.disk_full (resolve (data_file Scenario.vault)) = true
  /\ is_file KeyScenario.disk_full (resolve (config_file Scenario.vault)) = true
  /\ is_file KeyScenario.disk_full (resolve (key_file Scenario.vault)) = true
  /\ is_file KeyScenario.disk_full
       (resolve (secure_file Scenario.vault (str_of "a"))) = true.
Proof. repeat split; vm_compute; reflexivity. Qed.

Lemma clear_all_data_spec_witness :
  exists fs' evs,
    clear_all_data Scenario.vault KeyScenario.disk_full = (true, fs')
    /\ only_removes KeyScenario.disk_full fs' evs
    /\ forallb is_removed evs = true
    /\ is_file fs' (resolve (key_file Scenario.vault)) = false
    /\ load_credentials (CL := ref_cipher)
         (JL := ref_json (Scenario.record true)) Scenario.vault fs' = None
    /\ load_config (JL := ref_json (Scenario.record true))
         Scenario.vault fs' = None
    /\ (forall k, char_in 47%N k = false ->
          is_file fs' (resolve (secure_file Scenario.vault k)) = false
          /\ load_secure_data (CL := ref_cipher)
               (JL := ref_json (Scenario.record true))
               Scenario.vault k fs' = PNone)
    /\ dirs fs' = dirs KeyScenario.disk_full.
Proof.
  destruct (clear_all_data_spec (CL := ref_cipher)
              (JL := ref_json (Scenario.record true))
              Scenario.vault KeyScenario.disk_full)
    as (ok & fs' & evs & Heq & Hon & _ & Hok & Hdirs & Hsucc).
  - repeat split.
  - assert (ok = true) as ->.
    { apply Hsucc.
      - vm_compute. reflexivity.
      - apply (bool_decide_unpack (NoDup (files KeyScenario.disk_full).*1)).
        vm_compute. exact I.
      - vm_compute. reflexivity.
      - vm_compute. reflexivity.
      - apply Forall_forall.
        apply (bool_decide_unpack
                 (Forall (fun f => name_in (resolve (storage_dir Scenario.vault)) f
                                   = None)
                    (dirs KeyScenario.disk_full))).
        vm_compute. exact I. }
    destruct (Hok eq_refl) as (Hall & Hkey & Hc & Hcfg & Hsec).
    exists fs', evs.
    split; [exact Heq|]. split; [exact Hon|]. split; [exact Hall|].
    split; [exact Hkey|]. split; [exact Hc|]. split; [exact Hcfg|].
    split; [exact Hsec | exact Hdirs].
Defined.

(** On the scenario the call removes the credentials and the key. *)
Lemma scenario_clear_all :
  exists fs',
    clear_all_data Scenario.vault (Scenario.disk_saved true) = (true, fs')
    /\ files fs' = []
    /\ removals fs'
       = [ Removed (resolve (data_file Scenario.vault));
           Removed (resolve (key_file Scenario.vault)) ]
    /\ is_dir fs' (resolve (storage_dir Scenario.vault)) = true.
Proof. eexists. repeat split; vm_compute; reflexivity. Qed.

(** C7 as stated fails on the code in two ways.  When a deletion is
    refused, [clear_all_data()] answers [False] and what it could not
    delete still loads: here [config.json] cannot be removed.  And a
    record saved under a key with a slash lies outside the storage
    directory, where [os.listdir] does not see it: here the key is
    ['../x'], the call answers [True], and the record still loads. *)
Lemma clear_all_data_leaves_data :
  (exists fs',
      clear_all_data Scenario.vault Scenario.disk_config_locked = (false, fs')
      /\ load_config (JL := ref_json (PDict Scenario.saved_config))
           Scenario.vault fs' = Some Scenario.saved_config)
  /\ (exists fs',
      clear_all_data Scenario.vault Scenario.disk_outside = (true, fs')
      /\ load_secure_data (CL := ref_cipher)
           (JL := ref_json
                    (PDict (secure_envelope (str_of "../x") Scenario.secret
                              Scenario.timestamp)))
           Scenario.vault (str_of "../x") fs' = Scenario.secret).
Proof.
  split; eexists; split; vm_compute; reflexivity.
Qed.

(** The loop over the listing stops at the first [os.remove] that
    raises: with ['a.dat'] protected and listed before ['b.dat'], the
    call answers [False], no [os.remove] is made on ['b.dat'], and the
    file stays. *)
Lemma clear_all_data_stops_at_first_failure :
  exists fs',
    clear_all_data Scenario.vault Scenario.disk_two_secrets = (false, fs')
    /\ removals fs'
       = [ Removed (resolve (key_file Scenario.vault));
           RemoveFailed (resolve (secure_file Scenario.vault (str_of "a"))) ]
    /\ is_file fs' (resolve (secure_file Scenario.vault (str_of "b"))) = true.
Proof. eexists. repeat split; vm_compute; reflexivity. Qed.

End ClearAllExamples.

(* ===================================================================== *)
(** ** Further properties of the validators                              *)
(* ===================================================================== *)

Section SanitizeContract.
Import Validators.

Lemma sanitize_input_kept_any (v : PyVal) (m : Z) :
  Forall (fun c => sanitize_keep c = true) (sanitize_input v m).
Proof.
  destruct (is_str v) eqn:Hv.
  - destruct v; try discriminate. apply sanitize_input_kept.
  - rewrite sanitize_input_non_string by done. constructor.
Qed.

Lemma sanitize_input_length_any (v : PyVal) (m : Z) :
  0 <= m -> strlen (sanitize_input v m) <= m.
Proof.
  intros Hm. destruct (is_str v) eqn:Hv.
  - destruct v; try discriminate. by apply sanitize_input_length.
  - rewrite sanitize_input_non_string by done. exact Hm.
Qed.

(** X1: for every value and every bound [max_length >= 0], what
    [sanitize_input] returns has at most [max_length] code points, has
    no whitespace at either end, holds only code points that are at
    least 32 or tab, line feed or carriage return, and is left unchanged
    by a second [sanitize_input] with the same bound. *)
Theorem sanitize_input_contract (v : PyVal) (max_length : Z) :
  0 <= max_length ->
  strlen (sanitize_input v max_length) <= max_length
  /\ trimmed (sanitize_input v max_length) = true
  /\ Forall (fun c => (32 <= c)%N \/ c = 9%N \/ c = 10%N \/ c = 13%N)
       (sanitize_input v max_length)
  /\ sanitize_input (PStr (sanitize_input v max_length)) max_length
     = sanitize_input v max_length.
Proof.
  intros Hm. split; [by apply sanitize_input_length_any|].
  split; [apply sanitize_input_trimmed|].
  split; [|by apply sanitize_input_idempotent_bound].
  eapply Forall_impl; [apply sanitize_input_kept_any|].
  intros c Hc. unfold sanitize_keep, char_in in Hc.
  apply orb_prop in Hc as [Hc|Hc].
  - left. by apply N.leb_le.
  - right. apply bool_decide_eq_true in Hc.
    repeat (apply elem_of_cons in Hc as [Hc|Hc]; [by auto|]).
    by apply elem_of_nil in Hc.
Qed.

Lemma sanitize_input_contract_witness :
  strlen (sanitize_input (PStr (str_of "  spaces  ")) 6) <= 6
  /\ trimmed (sanitize_input (PStr (str_of "  spaces  ")) 6) = true
  /\ Forall (fun c => (32 <= c)%N \/ c = 9%N \/ c = 10%N \/ c = 13%N)
       (sanitize_input (PStr (str_of "  spaces  ")) 6)
  /\ sanitize_input (PStr (sanitize_input (PStr (str_of "  spaces  ")) 6)) 6
     = sanitize_input (PStr (str_of "  spaces  ")) 6.
Proof. apply (sanitize_input_contract (PStr (str_of "  spaces  ")) 6). lia. Defined.

(** With the bound 6 the cut comes before the trimming: of
    ["  spaces  "] the first six code points are kept and then
    stripped. *)
Lemma sanitize_input_cut_before_strip :
  sanitize_input (PStr (str_of "  spaces  ")) 6 = str_of "spac".
Proof. vm_compute. reflexivity. Qed.

End SanitizeContract.

Section ValidatorGuards.
Import Validators.
Context {SL : StrLib}.

(** X2: every validator of a single value answers [False], without
    raising, for [None] and for every value that is not a string. *)
Theorem validators_guard_non_strings (v : PyVal) :
  is_str v = false ->
  validate_username v = false
  /\ validate_password v = false
  /\ validate_campus_ssid v = false
  /\ validate_email v = false
  /\ validate_domain v = false
  /\ validate_ip_address v = false
  /\ validate_port v = false
  /\ validate_url v = false
  /\ validate_phone_number v = false
  /\ validate_mac_address v = false
  /\ validate_file_path v = false
  /\ (forall allow_special, is_safe_string v allow_special = false).
Proof. exact (validators_reject_non_strings v). Qed.

End ValidatorGuards.

Section ValidatorGuardsWitness.
Import Validators ReferenceText.

Lemma validators_guard_non_strings_witness :
  validate_username (PInt 123) = false
  /\ validate_password (PInt 123) = false
  /\ validate_campus_ssid (PInt 123) = false
  /\ validate_email (SL := ref_str_lib) (PInt 123) = false
  /\ validate_domain (SL := ref_str_lib) (PInt 123) = false
  /\ validate_ip_address (SL := ref_str_lib) (PInt 123) = false
  /\ validate_port (SL := ref_str_lib) (PInt 123) = false
  /\ validate_url (SL := ref_str_lib) (PInt 123) = false
  /\ validate_phone_number (SL := ref_str_lib) (PInt 123) = false
  /\ validate_mac_address (SL := ref_str_lib) (PInt 123) = false
  /\ validate_file_path (PInt 123) = false
  /\ (forall allow_special,
         is_safe_string (SL := ref_str_lib) (PInt 123) allow_special = false).
Proof.
  apply (validators_guard_non_strings (SL := ref_str_lib) (PInt 123)).
  reflexivity.
Defined.

End ValidatorGuardsWitness.

Section CredentialsFormat.
Import Validators.

Lemma str_of_nonempty (a : Ascii.ascii) (r : string) : str_of (String a r) <> [].
Proof. done. Qed.

Lemma username_error_for_str (s : pystr) :
  exists e, username_error_for (PStr s) = Ok e /\ e <> [].
Proof.
  unfold username_error_for. destruct (negb (truthy (PStr s))); [by eexists|].
  cbn [len mbind PyResult_bind Py.bind].
  destruct (_ <? 2); [by eexists|]. destruct (100 <? _); by eexists.
Qed.

Lemma password_error_for_str (s : pystr) :
  exists e, password_error_for (PStr s) = Ok e /\ e <> [].
Proof.
  unfold password_error_for. destruct (negb (truthy (PStr s))); [by eexists|].
  cbn [len mbind PyResult_bind Py.bind].
  destruct (_ <? 4); [by eexists|]. destruct (256 <? _); by eexists.
Qed.

(** X3: on two strings [validate_credentials_format] returns a result
    and does not raise; each validity flag is the verdict of the
    validator of that field, [overall_valid] is their conjunction, and
    an error message is empty exactly when its field is valid. *)
Theorem validate_credentials_format_on_strings (username password : pystr) :
  exists r,
    validate_credentials_format (PStr username) (PStr password) = Ok r
    /\ username_valid r = validate_username (PStr username)
    /\ password_valid r = validate_password (PStr password)
    /\ overall_valid r = username_valid r && password_valid r
    /\ (username_error r = [] <-> username_valid r = true)
    /\ (password_error r = [] <-> password_valid r = true).
Proof.
  unfold validate_credentials_format.
  destruct (username_error_for_str username) as (eu & Heu & Hnu).
  destruct (password_error_for_str password) as (ep & Hep & Hnp).
  rewrite Heu, Hep.
  destruct (validate_username (PStr username)),
           (validate_password (PStr password));
    cbn [negb mbind PyResult_bind Py.bind fst snd];
    eexists; (split; [reflexivity|]); cbn; repeat split; try done.
Qed.

End CredentialsFormat.

Section NetworkConfig.
Import Validators Checks.
Context {SL : StrLib}.

Lemma add_error_consistent r msg : consistent (add_error r msg).
Proof.
  unfold consistent, add_error. simpl. split; [done|].
  intros E. by destruct (errors r).
Qed.

Lemma check_optional_consistent config key check msg r :
  consistent r -> consistent (check_optional config key check msg r).
Proof.
  intros Hr. unfold check_optional.
  destruct (dict_get config (str_of key)) as [v|]; [|done].
  destruct (truthy v); [|done].
  destruct (negb (check v)); [apply add_error_consistent | done].
Qed.

Lemma check_method_consistent config key methods msg r :
  consistent r -> consistent (check_method config key methods msg r).
Proof.
  intros Hr. unfold check_method.
  destruct (dict_get config (str_of key)) as [v|]; [|done].
  destruct (negb (existsb (eq_str v) methods));
    [apply add_error_consistent | done].
Qed.

(** X4: in the result of [validate_network_config], ['valid'] is true
    exactly when the list ['errors'] is empty. *)
Theorem validate_network_config_valid_iff_no_errors (config : pydict) :
  valid (validate_network_config config) = true
  <-> errors (validate_network_config config) = [].
Proof.
  unfold validate_network_config. cbv zeta.
  apply check_method_consistent, check_method_consistent.
  do 4 apply check_optional_consistent.
  destruct (dict_get config (str_of "ssid")) as [v|]; [|done].
  destruct (negb (validate_campus_ssid v)); [apply add_error_consistent | done].
Qed.

(** A configuration with none of the seven keys is valid. *)
Lemma validate_network_config_empty :
  validate_network_config [] = {| valid := true; errors := [] |}.
Proof. reflexivity. Qed.

End NetworkConfig.

Section CleanAndValidate.
Import Validators Checks.
Context {SL : StrLib}.

Lemma clean_outcome_valid ok cleaned msg :
  cr_valid (clean_outcome ok cleaned msg) = ok.
Proof. by destruct ok. Qed.

Lemma clean_outcome_true cleaned msg :
  clean_outcome true cleaned msg
  = {| cr_valid := true; cr_cleaned := cleaned; cr_error := [] |}.
Proof. reflexivity. Qed.

Lemma clean_outcome_false cleaned a msg :
  cr_cleaned (clean_outcome false cleaned (String a msg)) = []
  /\ cr_error (clean_outcome false cleaned (String a msg)) <> [].
Proof. done. Qed.

(** X5: [validate_and_clean_input] always returns a result.  When the
    result is valid its error is empty, the input was not empty and the
    kind is one of the five known ones; for the kinds ['username'],
    ['password'] and ['ssid'] the cleaned string it returns passes the
    validator of that kind.  When the result is not valid, the cleaned
    string is empty and the error is not. *)
Theorem validate_and_clean_input_outcome (input_str : PyVal) (kind : pystr) :
  exists r,
    validate_and_clean_input input_str kind = Ok r
    /\ (cr_valid r = true ->
        cr_error r = [] /\ truthy input_str = true /\ kind ∈ known_kinds
        /\ (kind = str_of "username" ->
            validate_username (PStr (cr_cleaned r)) = true)
        /\ (kind = str_of "password" ->
            validate_password (PStr (cr_cleaned r)) = true)
        /\ (kind = str_of "ssid" ->
            validate_campus_ssid (PStr (cr_cleaned r)) = true))
    /\ (cr_valid r = false -> cr_cleaned r = [] /\ cr_error r <> []).
Proof.
  unfold validate_and_clean_input.
  destruct (truthy input_str) eqn:Ht; cbn [negb].
  2:{ eexists. split; [reflexivity|]. split; [done|]. intros _. split; [done|].
      cbn [cr_error]. intros E. by apply app_eq_nil in E as [_ E]. }
  set (cleaned := sanitize_input input_str default_max_length).
  case_bool_decide as K1.
  { subst kind. destruct (validate_username (PStr cleaned)) eqn:E;
      (eexists; split; [reflexivity|]); (split; [|done]); [|done].
    intros _. rewrite clean_outcome_true. cbn [cr_error cr_cleaned].
    repeat split; try done. vm_compute. by left. }
  case_bool_decide as K2.
  { subst kind. destruct (validate_password (PStr cleaned)) eqn:E;
      (eexists; split; [reflexivity|]); (split; [|done]); [|done].
    intros _. rewrite clean_outcome_true. cbn [cr_error cr_cleaned].
    repeat split; try done. vm_compute. right. by left. }
  case_bool_decide as K3.
  { subst kind. rewrite clean_ssid_str. cbn [mbind PyResult_bind Py.bind].
    set (ssid := take 32 _).
    destruct (validate_campus_ssid (PStr ssid)) eqn:E;
      (eexists; split; [reflexivity|]); (split; [|done]); [|done].
    intros _. rewrite clean_outcome_true. cbn [cr_error cr_cleaned].
    repeat split; try done. vm_compute. right. right. by left. }
  case_bool_decide as K4.
  { subst kind. destruct (validate_email (PStr cleaned)) eqn:E;
      (eexists; split; [reflexivity|]); (split; [|done]); [|done].
    intros _. rewrite clean_outcome_true. cbn [cr_error cr_cleaned].
    repeat split; try done. vm_compute. do 3 right. by left. }
  case_bool_decide as K5.
  { subst kind. destruct (validate_domain (PStr cleaned)) eqn:E;
      (eexists; split; [reflexivity|]); (split; [|done]); [|done].
    intros _. rewrite clean_outcome_true. cbn [cr_error cr_cleaned].
    repeat split; try done. vm_compute. do 4 right. by left. }
  eexists. split; [reflexivity|]. split; [done|]. intros _. split; [done|].
  cbn [cr_error]. intros E. by apply app_eq_nil in E as [E _].
Qed.

End CleanAndValidate.

Section SsidPipeline.
Import Validators.

Lemma forallb_Forall (P : N -> bool) (s : pystr) :
  forallb P s = true <-> Forall (fun c => P c = true) s.
Proof.
  induction s as [|c r IH]; simpl.
  - split; [constructor | done].
  - rewrite andb_true_iff, IH. split.
    + intros [? ?]. by constructor.
    + by intros [? ?]%Forall_cons.
Qed.

(** X6: what [clean_ssid] returns passes [validate_campus_ssid] whenever
    the input holds no DEL (code point 127) and the result is not blank:
    cleaning then leaves nothing for the validator to object to. *)
Theorem clean_ssid_then_validate (s r : pystr) :
  Forall (fun c => c <> 127%N) s ->
  clean_ssid (PStr s) = Ok r ->
  strip r <> [] ->
  validate_campus_ssid (PStr r) = true.
Proof.
  intros Hdel Hr Hblank. rewrite clean_ssid_str in Hr. injection Hr as <-.
  set (r := take 32 (List.filter (fun c => (32 <=? c)%N) (strip s))) in *.
  assert (Forall (fun c => ssid_char_ok c = true) r) as Hok.
  { unfold r. apply Forall_take.
    pose proof (filter_Forall (fun c => (32 <=? c)%N) (strip s)) as H32.
    assert (Forall (fun c => c <> 127%N)
              (List.filter (fun c => (32 <=? c)%N) (strip s))) as H127.
    { apply strip_Forall in Hdel. revert Hdel. generalize (strip s).
      induction 1 as [|c l Hc _ IH]; simpl; [constructor|].
      destruct (32 <=? c)%N; [by constructor | done]. }
    revert H32 H127. generalize (List.filter (fun c => (32 <=? c)%N) (strip s)).
    induction 1 as [|c l Hc _ IH]; intros H127; [constructor|].
    apply Forall_cons in H127 as [Hn Hrest]. constructor; [|by apply IH].
    unfold ssid_char_ok. apply N.leb_le in Hc.
    apply negb_true_iff, orb_false_intro; [apply N.ltb_ge; lia|].
    by apply N.eqb_neq. }
  assert (length r <= 32)%nat as Hlen by (unfold r; rewrite length_take; lia).
  unfold validate_campus_ssid. cbn [truthy is_str negb orb].
  rewrite bool_decide_eq_false_2 by (intros ->; by apply Hblank).
  cbn [negb]. pose proof (strip_length r) as Hsl.
  assert ((strlen (strip r) <? 1) || (32 <? strlen (strip r)) = false) as ->.
  { unfold strlen. apply orb_false_intro.
    - apply Z.ltb_ge. destruct (strip r); [done|]. simpl. lia.
    - apply Z.ltb_ge. lia. }
  apply forallb_Forall. by apply strip_Forall.
Qed.

Lemma clean_ssid_then_validate_witness :
  validate_campus_ssid (PStr (str_of "CampusWiFi")) = true.
Proof.
  apply (clean_ssid_then_validate (str_of "  CampusWiFi  ") (str_of "CampusWiFi")).
  - vm_compute. repeat constructor; discriminate.
  - vm_compute. reflexivity.
  - vm_compute. discriminate.
Defined.

(** X7: leading and trailing whitespace never changes the verdict of
    [validate_username] or of [validate_campus_ssid]: each gives a string
    the verdict it gives the stripped string. *)
Theorem validators_ignore_surrounding_whitespace (s : pystr) :
  validate_username (PStr s) = validate_username (PStr (strip s))
  /\ validate_campus_ssid (PStr s) = validate_campus_ssid (PStr (strip s)).
Proof.
  unfold validate_username, validate_campus_ssid.
  cbn [truthy is_str negb orb]. rewrite !orb_false_r, strip_idempotent.
  destruct s as [|c s']; [done|].
  rewrite (bool_decide_eq_false_2 (c :: s' = [])) by done. cbn [negb].
  case_bool_decide as E; [|done]. by rewrite E.
Qed.

(** The password is taken as typed: a leading space counts. *)
Lemma validate_password_counts_whitespace :
  validate_password (PStr (str_of " abc")) = true
  /\ validate_password (PStr (strip (str_of " abc"))) = false.
Proof. split; vm_compute; reflexivity. Qed.

End SsidPipeline.

(* ===================================================================== *)
(** ** The two user-name checks                                          *)
(* ===================================================================== *)

Section TwoUsernameChecks.
Import Checks.

Lemma auth_class_ascii (c : N) : Auth.username_class c = true -> (c < 128)%N.
Proof.
  unfold Auth.username_class, is_ascii_alnum, char_in.
  intros [H|H]%orb_prop.
  - repeat (apply orb_prop in H as [H|H]);
      apply andb_prop in H as [_ H]; apply N.leb_le in H; lia.
  - apply bool_decide_eq_true in H. vm_compute in H.
    repeat (apply elem_of_cons in H as [->|H]; [done|]).
    by apply elem_of_nil in H.
Qed.

Lemma auth_class_facts (c : N) :
  Auth.username_class c = true ->
  isspace_char c = false /\ (c =? 10)%N = false
  /\ Validators.username_class c = true.
Proof.
  intros Hc. pose proof (auth_class_ascii c Hc) as Hlt.
  assert (forallb class_check (seq 0 128) = true) as Hall
    by (vm_compute; reflexivity).
  rewrite List.forallb_forall in Hall.
  specialize (Hall (N.to_nat c)). unfold class_check in Hall.
  rewrite N2Nat.id, Hc in Hall. simpl in Hall.
  assert (List.In (N.to_nat c) (seq 0 128)) as Hin by (apply in_seq; lia).
  apply Hall in Hin. apply andb_prop in Hin as [[H1 H2]%andb_prop H3].
  by apply negb_true_iff in H1, H2.
Qed.

Lemma nonspace_trimmed (s : pystr) :
  Forall (fun c => isspace_char c = false) s -> trimmed s = true.
Proof.
  intros Hs. unfold trimmed. apply andb_true_intro; split.
  - destruct Hs as [|c l Hc _]; [done|]. simpl. by rewrite Hc.
  - apply Forall_reverse in Hs. destruct Hs as [|c l Hc _]; [done|].
    simpl. by rewrite Hc.
Qed.

(** A final line feed is the one thing [strip] takes from a string that
    is otherwise free of whitespace. *)
Lemma strip_final_newline (body : pystr) :
  Forall (fun c => isspace_char c = false) body ->
  strip (body ++ [10%N]) = body.
Proof.
  intros Hb. destruct body as [|c0 l0]; [reflexivity|]. unfold strip.
  assert (lstrip ((c0 :: l0) ++ [10%N]) = (c0 :: l0) ++ [10%N]) as ->.
  { apply Forall_cons in Hb as [Hc _]. simpl. by rewrite Hc. }
  unfold rstrip. rewrite reverse_app. simpl.
  apply nonspace_trimmed in Hb. unfold trimmed in Hb.
  apply andb_prop in Hb as [_ Hb].
  rewrite lstrip_id by done. apply reverse_involutive.
Qed.

Lemma match_class_plus_cases (cls : N -> bool) (s : pystr) :
  match_class_plus cls s = true ->
  (forallb cls s = true /\ s <> [])
  \/ exists body, s = body ++ [10%N] /\ body <> [] /\ forallb cls body = true.
Proof.
  unfold match_class_plus. destruct (reverse s) as [|c r] eqn:Er; [done|].
  assert (s = reverse r ++ [c]) as Hs.
  { rewrite <- (reverse_involutive s), Er. by rewrite reverse_cons. }
  destruct (c =? 10)%N eqn:Ec.
  - apply N.eqb_eq in Ec. subst c. intros [Hne Hall]%andb_prop. right.
    exists (reverse r). split; [done|]. split.
    + apply negb_true_iff, bool_decide_eq_false in Hne.
      intros E. apply Hne. by rewrite <- (reverse_involutive r), E.
    + apply forallb_Forall. apply Forall_reverse. by apply forallb_Forall.
  - intros Hall. left. split; [done|]. rewrite Hs. by destruct (reverse r).
Qed.

Lemma match_class_plus_all (cls : N -> bool) (s : pystr) :
  s <> [] ->
  Forall (fun c => cls c = true /\ (c =? 10)%N = false) s ->
  match_class_plus cls s = true.
Proof.
  intros Hne Hs. unfold match_class_plus.
  destruct (reverse s) as [|c r] eqn:Er.
  - destruct Hne. by rewrite <- (reverse_involutive s), Er.
  - assert (c ∈ s) as Hc.
    { apply elem_of_reverse. rewrite Er. by left. }
    rewrite Forall_forall in Hs. destruct (Hs c Hc) as [_ ->].
    apply forallb_Forall. apply Forall_forall. intros x Hx. by apply Hs.
Qed.

(** X8: a user name that [AuthService._validate_username_format]
    accepts is accepted by [InputValidator.validate_username] as well:
    of the two checks the one in the authentication service is the
    stricter. *)
Theorem auth_username_passes_validator (s : pystr) :
  Auth._validate_username_format (PStr s) = Ok true ->
  Validators.validate_username (PStr s) = true.
Proof.
  unfold Auth._validate_username_format.
  cbn [len mbind PyResult_bind Py.bind].
  destruct ((Z.of_nat (length s) <? 3) || (50 <? Z.of_nat (length s))) eqn:Hlen;
    [done|].
  apply orb_false_elim in Hlen as [H3 H50].
  apply Z.ltb_ge in H3, H50.
  destruct (match_class_plus Auth.username_class s) eqn:Hm; [|done].
  intros _. cbn [negb] in *.
  assert (exists t,
      strip s = t /\ (2 <= length t <= 50)%nat
      /\ Forall (fun c => Validators.username_class c = true
                          /\ (c =? 10)%N = false) t) as (t & Ht & Hlt & Hall).
  { destruct (match_class_plus_cases _ _ Hm) as [[Hall _]|(body & -> & Hb & Hall)].
    - exists s. apply forallb_Forall in Hall.
      split; [|split; [lia|]].
      + apply strip_id, nonspace_trimmed.
        eapply Forall_impl; [exact Hall|]. intros c Hc.
        by destruct (auth_class_facts c Hc).
      + eapply Forall_impl; [exact Hall|]. intros c Hc.
        by destruct (auth_class_facts c Hc) as (_ & ? & ?).
    - exists body. apply forallb_Forall in Hall.
      rewrite length_app in H3, H50. simpl in H3, H50.
      split; [|split; [lia|]].
      + apply strip_final_newline.
        eapply Forall_impl; [exact Hall|]. intros c Hc.
        by destruct (auth_class_facts c Hc).
      + eapply Forall_impl; [exact Hall|]. intros c Hc.
        by destruct (auth_class_facts c Hc) as (_ & ? & ?). }
  unfold Validators.validate_username. cbn [truthy is_str negb orb].
  rewrite bool_decide_eq_false_2 by (intros ->; simpl in H3; lia).
  cbn [negb]. rewrite Ht. unfold strlen.
  assert ((Z.of_nat (length t) <? 2) || (100 <? Z.of_nat (length t)) = false)
    as -> by (apply orb_false_intro; apply Z.ltb_ge; lia).
  rewrite match_class_plus_all; [done| |done].
  intros ->. simpl in Hlt. lia.
Qed.

Lemma auth_username_passes_validator_witness :
  Validators.validate_username (PStr (str_of "alice")) = true.
Proof.
  apply auth_username_passes_validator. vm_compute. reflexivity.
Defined.

(** The converse fails: two characters, or an [@], are enough for the
    validator and too little or too much for the service. *)
Lemma validator_username_not_auth :
  Validators.validate_username (PStr (str_of "ab")) = true
  /\ Auth._validate_username_format (PStr (str_of "ab")) = Ok false
  /\ Validators.validate_username (PStr (str_of "user@domain.com")) = true
  /\ Auth._validate_username_format (PStr (str_of "user@domain.com")) = Ok false.
Proof. repeat split; vm_compute; reflexivity. Qed.

End TwoUsernameChecks.

(* ===================================================================== *)
(** ** Further properties of the authentication service                  *)
(* ===================================================================== *)

Section LocalAuthentication.
Import Auth.
Context {AE : AuthEnv}.

(** [is_locked_out] leaves the service as it is or resets the two
    lockout attributes. *)
Lemma is_locked_out_state now self :
  (is_locked_out now self).2 = self
  \/ ((is_locked_out now self).1 = false
      /\ (is_locked_out now self).2 = reset_lockout self).
Proof.
  unfold is_locked_out. destruct (max_attempts self <=? failed_attempts self);
    [|by left].
  destruct (Qltb _ _); [by left | by right].
Qed.

Lemma is_locked_out_keeps now self :
  config (is_locked_out now self).2 = config self
  /\ authenticated (is_locked_out now self).2 = authenticated self.
Proof.
  destruct (is_locked_out_state now self) as [->|[_ ->]]; done.
Qed.

(** X9: with no server enabled, [authenticate] answers [True] exactly
    when the service is not locked out and the user name and the
    password pass the two format checks; a [True] sets
    [failed_attempts] to 0 and [authenticated] to true, and a [False]
    leaves [authenticated] as it was, so that a failed attempt does not
    end a session. *)
Theorem authenticate_local_iff now reply username password self enabled :
  auth_config_get self "enabled" = Ok enabled ->
  opt_truthy enabled = false ->
  ((authenticate now reply username password self).1 = true
   <-> (is_locked_out now self).1 = false
       /\ _validate_username_format username = Ok true
       /\ _validate_password_format password = Ok true)
  /\ authenticated (authenticate now reply username password self).2
     = (authenticate now reply username password self).1 || authenticated self
  /\ ((authenticate now reply username password self).1 = true ->
      failed_attempts (authenticate now reply username password self).2 = 0).
Proof.
  intros Hcfg Hen. unfold authenticate.
  destruct (is_locked_out_keeps now self) as [Hconf Hauth].
  destruct (is_locked_out now self) as [locked self1]. cbn [fst snd] in *.
  destruct locked.
  { cbn [fst snd]. rewrite Hauth. repeat split; try done. by intros [? _]. }
  destruct (negb (truthy username) || negb (truthy password)) eqn:Hempty.
  { cbn [fst snd]. rewrite Hauth. repeat split; try done.
    intros (_ & Hu & Hp).
    destruct (valid_username_truthy _ Hu) as [Htu _].
    rewrite Htu, (valid_password_truthy _ Hp) in Hempty. done. }
  assert (auth_config_get self1 "enabled" = Ok enabled) as ->.
  { unfold auth_config_get in *. by rewrite Hconf. }
  rewrite Hen. unfold _authenticate_local.
  destruct (_validate_username_format username) as [[]|] eqn:Hu;
    try (cbn [fst snd record_failure authenticated]; rewrite Hauth;
         repeat split; try done; by intros (_ & ? & _)).
  destruct (_validate_password_format password) as [[]|] eqn:Hp;
    try (cbn [fst snd record_failure authenticated]; rewrite Hauth;
         repeat split; try done; by intros (_ & _ & ?)).
  destruct (valid_username_truthy _ Hu) as [_ [s ->]].
  cbn [fst snd]. repeat split; done.
Qed.

(** X10: with no server enabled, on a service one failure short of
    [max_attempts], a non-empty attempt that fails a format check is
    counted, its time is recorded, and from then on every attempt made
    less than [lockout_duration] seconds later is refused, whatever its
    credentials, without changing the service. *)
Theorem lockout_starts_at_max_attempts now reply username password self enabled :
  failed_attempts self + 1 = max_attempts self ->
  auth_config_get self "enabled" = Ok enabled ->
  opt_truthy enabled = false ->
  truthy username = true ->
  truthy password = true ->
  _validate_username_format username <> Ok true
  \/ _validate_password_format password <> Ok true ->
  exists self',
    authenticate now reply username password self = (false, self')
    /\ failed_attempts self' = max_attempts self'
    /\ last_auth_attempt self' = now
    /\ forall later reply' username' password',
        (later - now < lockout_duration self')%Q ->
        authenticate later reply' username' password' self' = (false, self').
Proof.
  intros Hone Hcfg Hen Hu Hp Hbad.
  exists (record_failure now self).
  assert (authenticate now reply username password self
          = (false, record_failure now self)) as Hfail.
  { unfold authenticate. rewrite is_locked_out_below by lia.
    rewrite Hu, Hp. cbn [negb orb]. rewrite Hcfg, Hen.
    unfold _authenticate_local.
    destruct (_validate_username_format username) as [[]|]; try done.
    destruct (_validate_password_format password) as [[]|]; try done.
    by destruct Hbad. }
  split; [done|]. split; [simpl; lia|]. split; [done|].
  intros later reply' username' password' Hlt.
  unfold authenticate. rewrite is_locked_out_during; [done|simpl; lia|done].
Qed.

End LocalAuthentication.

Section LocalAuthenticationExamples.
Import Auth.

Lemma authenticate_local_iff_witness :
  ((authenticate (AE := Reference.ref_auth_env) 1 RequestException
      LockoutScenario.alice LockoutScenario.good_password (__init__ [])).1 = true
   <-> (is_locked_out 1 (__init__ [])).1 = false
       /\ _validate_username_format LockoutScenario.alice = Ok true
       /\ _validate_password_format LockoutScenario.good_password = Ok true)
  /\ authenticated
       (authenticate (AE := Reference.ref_auth_env) 1 RequestException
          LockoutScenario.alice LockoutScenario.good_password (__init__ [])).2
     = (authenticate (AE := Reference.ref_auth_env) 1 RequestException
          LockoutScenario.alice LockoutScenario.good_password (__init__ [])).1
       || authenticated (__init__ [])
  /\ ((authenticate (AE := Reference.ref_auth_env) 1 RequestException
         LockoutScenario.alice LockoutScenario.good_password (__init__ [])).1 = true ->
      failed_attempts
        (authenticate (AE := Reference.ref_auth_env) 1 RequestException
           LockoutScenario.alice LockoutScenario.good_password (__init__ [])).2 = 0).
Proof.
  apply (authenticate_local_iff (AE := Reference.ref_auth_env) 1 RequestException
           LockoutScenario.alice LockoutScenario.good_password (__init__ []) None).
  - reflexivity.
  - reflexivity.
Defined.

Lemma lockout_starts_at_max_attempts_witness :
  exists self',
    authenticate (AE := Reference.ref_auth_env) 5 RequestException
      LockoutScenario.alice LockoutScenario.short_password
      (LockoutScenario.attempt 4 LockoutScenario.short_password
         (LockoutScenario.attempt 3 LockoutScenario.short_password
            (LockoutScenario.attempt 2 LockoutScenario.short_password
               (LockoutScenario.attempt 1 LockoutScenario.short_password
                  (__init__ [])).2).2).2).2
    = (false, self')
    /\ failed_attempts self' = max_attempts self'
    /\ last_auth_attempt self' = 5%Q
    /\ forall later reply' username' password',
        (later - 5 < lockout_duration self')%Q ->
        authenticate (AE := Reference.ref_auth_env) later reply' username'
          password' self' = (false, self').
Proof.
  apply (lockout_starts_at_max_attempts (AE := Reference.ref_auth_env)
           5%Q RequestException LockoutScenario.alice
           LockoutScenario.short_password _ None).
  - vm_compute. reflexivity.
  - reflexivity.
  - reflexivity.
  - reflexivity.
  - reflexivity.
  - right. vm_compute. discriminate.
Defined.

End LocalAuthenticationExamples.

(* ===================================================================== *)
(** ** Properties of the session                                         *)
(* ===================================================================== *)

Section SessionFacts.
Import Auth Session.
Context {AE : AuthEnv}.

(** What a successful local authentication leaves in the service. *)
Lemma authenticate_local_success now reply username password self self' enabled :
  auth_config_get self "enabled" = Ok enabled ->
  opt_truthy enabled = false ->
  authenticate now reply username password self = (true, self') ->
  authenticated self' = true
  /\ auth_expiry self' = Some (now + 3600)%Q
  /\ (exists token, auth_token self' = Some (PStr token))
  /\ failed_attempts self' = 0.
Proof.
  intros Hcfg Hen. unfold authenticate.
  destruct (is_locked_out_keeps now self) as [Hconf _].
  destruct (is_locked_out now self) as [locked self1]. cbn [fst snd] in *.
  destruct locked; [done|].
  destruct (negb (truthy username) || negb (truthy password)); [done|].
  assert (auth_config_get self1 "enabled" = Ok enabled) as ->.
  { unfold auth_config_get in *. by rewrite Hconf. }
  rewrite Hen. unfold _authenticate_local.
  destruct (_validate_username_format username) as [[]|]; try done.
  destruct (_validate_password_format password) as [[]|]; try done.
  destruct username; try done.
  intros [= <-]. cbn. eauto.
Qed.

Lemma expiry_truthy_positive (e : Q) :
  (0 < e)%Q -> expiry_truthy (Some e) = true.
Proof.
  intros He. unfold expiry_truthy.
  destruct (Qeq_bool e 0) eqn:E; [|done].
  apply Qeq_bool_iff in E. rewrite E in He. by apply Qlt_irrefl in He.
Qed.

Lemma is_authenticated_fresh t self e :
  authenticated self = true ->
  auth_expiry self = Some e ->
  (t <= e)%Q ->
  is_authenticated t self = (true, self).
Proof.
  intros Ha He Hle. unfold is_authenticated. rewrite Ha, He. cbn [negb].
  apply Qltb_ge in Hle. rewrite Hle. by rewrite andb_false_r.
Qed.

Lemma is_authenticated_expired t self e :
  authenticated self = true ->
  auth_expiry self = Some e ->
  (0 < e)%Q ->
  (e < t)%Q ->
  is_authenticated t self = (false, clear_session self).
Proof.
  intros Ha He Hpos Hlt. unfold is_authenticated. rewrite Ha, He. cbn [negb].
  rewrite (expiry_truthy_positive e Hpos).
  apply Qltb_lt in Hlt. by rewrite Hlt.
Qed.

Lemma is_authenticated_logged_out t self :
  authenticated self = false ->
  is_authenticated t self = (false, self).
Proof. intros Ha. unfold is_authenticated. by rewrite Ha. Qed.

(** X11: a session opened by a local authentication at time [now]
    lasts 3600 seconds.  Up to [now + 3600], [is_authenticated] is
    [True] and [get_auth_token] returns the token, a string; at any
    later time both calls end the session: [is_authenticated] is
    [False], [get_auth_token] is [None], and the token and the expiry
    are erased. *)
Theorem local_session_lasts_one_hour now reply username password self self'
    enabled t :
  (0 <= now)%Q ->
  auth_config_get self "enabled" = Ok enabled ->
  opt_truthy enabled = false ->
  authenticate now reply username password self = (true, self') ->
  ((t <= now + 3600)%Q ->
     is_authenticated t self' = (true, self')
     /\ exists token, get_auth_token t self' = (Some (PStr token), self'))
  /\ ((now + 3600 < t)%Q ->
     is_authenticated t self' = (false, clear_session self')
     /\ get_auth_token t self' = (None, clear_session self')
     /\ auth_token (clear_session self') = None
     /\ auth_expiry (clear_session self') = None).
Proof.
  intros Hnow Hcfg Hen Hauth.
  destruct (authenticate_local_success _ _ _ _ _ _ _ Hcfg Hen Hauth)
    as (Ha & He & [token Ht] & _).
  split.
  - intros Hle.
    pose proof (is_authenticated_fresh t self' _ Ha He Hle) as Hia.
    split; [done|]. exists token. unfold get_auth_token. by rewrite Hia, Ht.
  - intros Hlt.
    assert (0 < now + 3600)%Q as Hpos.
    { apply Qlt_le_trans with (0 + 3600)%Q; [done|].
      apply Qplus_le_l. exact Hnow. }
    pose proof (is_authenticated_expired t self' _ Ha He Hpos Hlt) as Hia.
    repeat split; try done. unfold get_auth_token. by rewrite Hia.
Qed.

(** X12: when the [auth_server] entry of the configuration is absent
    or a dictionary, [logout] returns [True] whatever the server
    answers, and afterwards the service is not authenticated and has no
    token; the lockout state is not touched, so logging out does not
    lift a lockout. *)
Theorem logout_ends_session_keeps_lockout reply self enabled t :
  auth_config_get self "enabled" = Ok enabled ->
  exists self',
    logout reply self = (true, self')
    /\ is_authenticated t self' = (false, self')
    /\ get_auth_token t self' = (None, self')
    /\ (is_locked_out t self').1 = (is_locked_out t self).1
    /\ failed_attempts self' = failed_attempts self
    /\ last_auth_attempt self' = last_auth_attempt self.
Proof.
  intros Hcfg. exists (clear_session self).
  unfold logout. rewrite Hcfg.
  repeat split.
  unfold is_locked_out. cbn [clear_session max_attempts failed_attempts
    last_auth_attempt lockout_duration].
  destruct (_ <=? _); [|done]. by destruct (Qltb _ _).
Qed.

(** A configuration whose [auth_server] entry is not a dictionary makes
    [logout] return [False] and leave the session open. *)
Lemma logout_malformed_config reply self e :
  auth_config_get self "enabled" = Raise e ->
  logout reply self = (false, self).
Proof. intros Hcfg. unfold logout. by rewrite Hcfg. Qed.

(** X13: with no server enabled, [refresh_token] succeeds exactly when
    the session is still valid at that time; the expiry is then 3600
    seconds from now, so that the session is valid at every time up to
    then, and the token, the configuration and the lockout state are as
    they were.  When it fails the service is not authenticated
    afterwards at any time: a session that has expired cannot be
    revived by refreshing it. *)
Theorem refresh_token_local now reply self enabled :
  auth_config_get self "enabled" = Ok enabled ->
  opt_truthy enabled = false ->
  (refresh_token now reply self).1 = (is_authenticated now self).1
  /\ ((refresh_token now reply self).1 = true ->
      auth_expiry (refresh_token now reply self).2 = Some (now + 3600)%Q
      /\ authenticated (refresh_token now reply self).2 = true
      /\ auth_token (refresh_token now reply self).2 = auth_token self
      /\ config (refresh_token now reply self).2 = config self
      /\ failed_attempts (refresh_token now reply self).2 = failed_attempts self
      /\ last_auth_attempt (refresh_token now reply self).2
         = last_auth_attempt self
      /\ forall t, (t <= now + 3600)%Q ->
           (is_authenticated t (refresh_token now reply self).2).1 = true)
  /\ ((refresh_token now reply self).1 = false ->
      forall t, (is_authenticated t (refresh_token now reply self).2).1 = false).
Proof.
  intros Hcfg Hen.
  assert (forall s, authenticated s = true ->
            auth_expiry (set_expiry (now + 3600)%Q s) = Some (now + 3600)%Q
            /\ authenticated (set_expiry (now + 3600)%Q s) = true
            /\ auth_token (set_expiry (now + 3600)%Q s) = auth_token s
            /\ config (set_expiry (now + 3600)%Q s) = config s
            /\ failed_attempts (set_expiry (now + 3600)%Q s) = failed_attempts s
            /\ last_auth_attempt (set_expiry (now + 3600)%Q s) = last_auth_attempt s
            /\ forall t, (t <= now + 3600)%Q ->
                 (is_authenticated t (set_expiry (now + 3600)%Q s)).1 = true)
    as Hset.
  { intros s Hs. repeat split; try done.
    intros t Ht.
    by rewrite (is_authenticated_fresh t _ (now + 3600)%Q). }
  assert ((is_authenticated now self = (true, self) /\ authenticated self = true)
          \/ exists s1, is_authenticated now self = (false, s1)
                        /\ authenticated s1 = false) as Hcases.
  { unfold is_authenticated. destruct (authenticated self) eqn:Ha; cbn [negb].
    - destruct (auth_expiry self) as [e|]; [|by left].
      destruct (expiry_truthy (Some e) && Qltb e now); [|by left].
      right. by eexists.
    - right. by exists self. }
  unfold refresh_token.
  destruct Hcases as [[-> Ha]|(s1 & -> & Ha)]; cbn [negb fst snd].
  - rewrite Hcfg, Hen. cbn [fst snd]. split; [done|].
    split; [intros _; by apply Hset | done].
  - split; [done|]. split; [done|]. intros _ t.
    by rewrite is_authenticated_logged_out.
Qed.

Lemma int_of_Q_floor (x : Q) :
  (0 <= x)%Q -> int_of_Q x = Qfloor x.
Proof.
  intros Hx. unfold int_of_Q, Qfloor. destruct x as [n d]. cbn [Qnum Qden].
  apply Z.quot_div_nonneg; [|done].
  unfold Qle in Hx. cbn in Hx. lia.
Qed.

(** X14: [get_lockout_time_remaining] is never negative, is 0 when the
    service is not locked out, and during a lockout is the number of
    whole seconds left of it: the time left, rounded down. *)
Theorem lockout_time_remaining_whole_seconds now self :
  0 <= (get_lockout_time_remaining now self).1
  /\ ((is_locked_out now self).1 = false ->
      (get_lockout_time_remaining now self).1 = 0)
  /\ ((is_locked_out now self).1 = true ->
      (inject_Z (get_lockout_time_remaining now self).1
         <= lockout_duration self - (now - last_auth_attempt self))%Q
      /\ (lockout_duration self - (now - last_auth_attempt self)
            < inject_Z ((get_lockout_time_remaining now self).1 + 1))%Q).
Proof.
  unfold get_lockout_time_remaining, is_locked_out.
  destruct (max_attempts self <=? failed_attempts self);
    [|cbn; repeat split; done].
  destruct (Qltb _ _) eqn:Hlt; [|cbn; repeat split; done].
  cbn [negb fst snd]. apply Qltb_lt in Hlt.
  set (left := (lockout_duration self - (now - last_auth_attempt self))%Q).
  assert (0 < left)%Q as Hpos.
  { unfold left. exact (proj1 (Qlt_minus_iff _ _) Hlt). }
  rewrite (int_of_Q_floor left) by (by apply Qlt_le_weak).
  assert (0 <= Qfloor left) as Hfl.
  { change 0 with (Qfloor 0). apply Qfloor_resp_le. by apply Qlt_le_weak. }
  rewrite Z.max_r by done.
  split; [done|]. split; [done|]. intros _. split.
  - apply Qfloor_le.
  - apply Qlt_floor.
Qed.

End SessionFacts.

Section SessionExamples.
Import Auth Session.

Lemma local_session_lasts_one_hour_witness :
  ((3601 <= 1 + 3600)%Q ->
     is_authenticated 3601 (LockoutScenario.attempt 1 LockoutScenario.good_password (__init__ [])).2
     = (true, (LockoutScenario.attempt 1 LockoutScenario.good_password (__init__ [])).2)
     /\ exists token,
         get_auth_token 3601
           (LockoutScenario.attempt 1 LockoutScenario.good_password (__init__ [])).2
         = (Some (PStr token),
            (LockoutScenario.attempt 1 LockoutScenario.good_password (__init__ [])).2))
  /\ ((1 + 3600 < 3601)%Q ->
     is_authenticated 3601 (LockoutScenario.attempt 1 LockoutScenario.good_password (__init__ [])).2
     = (false, clear_session (LockoutScenario.attempt 1 LockoutScenario.good_password (__init__ [])).2)
     /\ get_auth_token 3601 (LockoutScenario.attempt 1 LockoutScenario.good_password (__init__ [])).2
        = (None, clear_session (LockoutScenario.attempt 1 LockoutScenario.good_password (__init__ [])).2)
     /\ auth_token (clear_session (LockoutScenario.attempt 1 LockoutScenario.good_password (__init__ [])).2) = None
     /\ auth_expiry (clear_session (LockoutScenario.attempt 1 LockoutScenario.good_password (__init__ [])).2) = None).
Proof.
  apply (local_session_lasts_one_hour (AE := Reference.ref_auth_env) 1
           RequestException LockoutScenario.alice LockoutScenario.good_password
           (__init__ []) _ None 3601).
  - done.
  - reflexivity.
  - reflexivity.
  - vm_compute. reflexivity.
Defined.

Lemma logout_ends_session_keeps_lockout_witness :
  exists self',
    logout RequestException LockoutScenario.after_failures = (true, self')
    /\ is_authenticated 6 self' = (false, self')
    /\ get_auth_token 6 self' = (None, self')
    /\ (is_locked_out 6 self').1 = (is_locked_out 6 LockoutScenario.after_failures).1
    /\ failed_attempts self' = failed_attempts LockoutScenario.after_failures
    /\ last_auth_attempt self' = last_auth_attempt LockoutScenario.after_failures.
Proof.
  apply (logout_ends_session_keeps_lockout RequestException
           LockoutScenario.after_failures None 6).
  reflexivity.
Defined.

Lemma refresh_token_local_witness :
  ((refresh_token 10 RequestException
      (LockoutScenario.attempt 1 LockoutScenario.good_password (__init__ [])).2).1
   = true
   /\ auth_expiry
        (refresh_token 10 RequestException
           (LockoutScenario.attempt 1 LockoutScenario.good_password
              (__init__ [])).2).2
      = Some (10 + 3600)%Q)
  /\ (refresh_token 4000 RequestException
        (LockoutScenario.attempt 1 LockoutScenario.good_password (__init__ [])).2).1
     = false
  /\ forall t,
       (is_authenticated t
          (refresh_token 4000 RequestException
             (LockoutScenario.attempt 1 LockoutScenario.good_password
                (__init__ [])).2).2).1 = false.
Proof.
  destruct (refresh_token_local 10 RequestException
              (LockoutScenario.attempt 1 LockoutScenario.good_password
                 (__init__ [])).2 None) as (_ & Hok & _).
  - reflexivity.
  - reflexivity.
  - destruct (refresh_token_local 4000 RequestException
                (LockoutScenario.attempt 1 LockoutScenario.good_password
                   (__init__ [])).2 None) as (_ & _ & Hfail).
    + reflexivity.
    + reflexivity.
    + split; [split|split].
      * vm_compute. reflexivity.
      * apply Hok. vm_compute. reflexivity.
      * vm_compute. reflexivity.
      * apply Hfail. vm_compute. reflexivity.
Defined.

(** The scenario: refreshing at 10 s a session opened at 1 s succeeds
    and the session then lasts until 3610 s. *)
Lemma scenario_refresh_extends :
  (refresh_token 10 RequestException
     (LockoutScenario.attempt 1 LockoutScenario.good_password (__init__ [])).2).1 = true
  /\ (is_authenticated 3605
        (refresh_token 10 RequestException
           (LockoutScenario.attempt 1 LockoutScenario.good_password
              (__init__ [])).2).2).1 = true
  /\ (is_authenticated 3605
        (LockoutScenario.attempt 1 LockoutScenario.good_password (__init__ [])).2).1
     = false.
Proof. vm_compute. repeat split. Qed.

(** The scenario: one second into the lockout of five minutes, 299
    seconds remain. *)
Lemma scenario_lockout_time_remaining :
  (get_lockout_time_remaining 6 LockoutScenario.after_failures).1 = 299
  /\ (get_lockout_time_remaining (13 # 2) LockoutScenario.after_failures).1 = 298
  /\ (get_lockout_time_remaining 305 LockoutScenario.after_failures).1 = 0.
Proof. vm_compute. repeat split. Qed.

End SessionExamples.

(* ===================================================================== *)
(** ** Further properties of the vault                                   *)
(* ===================================================================== *)

Section FileFrame.
Import OS Storage.

Lemma write_file_inv path b fs fs' :
  write_file path b fs = Ok fs' ->
  files fs' = store_file (files fs) (resolve path) b
  /\ dirs fs' = dirs fs /\ readonly fs' = readonly fs
  /\ unreadable fs' = unreadable fs /\ removals fs' = removals fs.
Proof.
  unfold write_file. destruct (_ || _ || _); [done|]. by intros [= <-].
Qed.

(** A write changes what is found at one file only. *)
Lemma write_file_other path b fs fs' q :
  write_file path b fs = Ok fs' ->
  resolve q <> resolve path ->
  path_exists q fs' = path_exists q fs /\ read_file q fs' = read_file q fs.
Proof.
  intros (Hf & Hd & _ & Hu & _)%write_file_inv Hne.
  unfold path_exists, read_file, is_file, is_dir, is_unreadable.
  rewrite Hf, Hd, Hu, lookup_store_ne by congruence. done.
Qed.

Lemma only_removes_other fs fs' evs q :
  only_removes fs fs' evs ->
  Removed (resolve q) ∉ evs ->
  path_exists q fs' = path_exists q fs /\ read_file q fs' = read_file q fs.
Proof.
  intros (Hd & _ & Hu & _ & Hf) Hno.
  destruct (Hf (resolve q)) as [E|[_ Hin]]; [|done].
  unfold path_exists, read_file, is_file, is_dir, is_unreadable.
  by rewrite E, Hd, Hu.
Qed.

(** The guarded removal touches the one file it names. *)
Lemma remove_if_exists_other path fs ok fs' q :
  remove_if_exists path fs = (ok, fs') ->
  resolve q <> resolve path ->
  path_exists q fs' = path_exists q fs /\ read_file q fs' = read_file q fs.
Proof.
  unfold remove_if_exists. intros Hrm Hne.
  destruct (path_exists path fs); [|by inversion Hrm].
  destruct (os_remove path fs) as [r fs1] eqn:Hos.
  destruct (os_remove_only_removes _ _ _ _ Hos)
    as [(-> & Hon & _)|([e ->] & Hon)]; inversion Hrm; subst;
    apply (only_removes_other _ _ _ _ Hon); rewrite list_elem_of_singleton;
    congruence.
Qed.

Lemma remove_if_exists_true path fs fs' :
  remove_if_exists path fs = (true, fs') ->
  lookup_file (files fs') (resolve path) = None.
Proof.
  intros (evs & _ & _ & H)%remove_if_exists_spec. by apply H.
Qed.

Lemma child_inj d (n m : pystr) : child d n = child d m -> n = m.
Proof.
  unfold child. intros [= E]. by apply app_inj_tail in E as [_ E].
Qed.

Lemma secure_file_resolve self key :
  char_in 47%N key = false ->
  resolve (secure_file self key)
  = child (resolve (storage_dir self)) (key ++ str_of ".dat").
Proof.
  intros Hk. unfold secure_file. apply resolve_join_plain. by apply plain_dat.
Qed.

(** Two keys without a slash name the same file only when they are the
    same key. *)
Lemma secure_file_inj self k1 k2 :
  char_in 47%N k1 = false -> char_in 47%N k2 = false ->
  resolve (secure_file self k1) = resolve (secure_file self k2) -> k1 = k2.
Proof.
  intros H1 H2. rewrite !secure_file_resolve by done.
  intros E%child_inj. by apply app_inv_tail in E.
Qed.

(** The key ['credentials'] names the credentials file. *)
Lemma secure_file_credentials self :
  well_formed self -> secure_file self (str_of "credentials") = data_file self.
Proof. intros (_ & Hd & _). by rewrite Hd. Qed.

Lemma secure_file_not_data self key :
  well_formed self -> char_in 47%N key = false -> key <> str_of "credentials" ->
  resolve (secure_file self key) <> resolve (data_file self).
Proof.
  intros Hwf Hk Hne. rewrite <- (secure_file_credentials self Hwf).
  intros E. apply Hne. by apply (secure_file_inj self).
Qed.

Lemma not_dat_suffix self key (name : pystr) :
  char_in 47%N key = false ->
  plain name = true ->
  endswith name (str_of ".dat") = false ->
  resolve (secure_file self key) <> resolve (join (storage_dir self) name).
Proof.
  intros Hk Hp He. rewrite secure_file_resolve, resolve_join_plain by done.
  intros E%child_inj. rewrite <- E, endswith_app in He. done.
Qed.

Lemma secure_file_not_config self key :
  well_formed self -> char_in 47%N key = false ->
  resolve (secure_file self key) <> resolve (config_file self).
Proof.
  intros (_ & _ & Hc) Hk. rewrite Hc. by apply not_dat_suffix.
Qed.

Lemma secure_file_not_key self key :
  well_formed self -> char_in 47%N key = false ->
  resolve (secure_file self key) <> resolve (key_file self).
Proof.
  intros (Hkf & _ & _) Hk. rewrite Hkf. by apply not_dat_suffix.
Qed.

Lemma vault_files_distinct self :
  well_formed self ->
  resolve (data_file self) <> resolve (config_file self)
  /\ resolve (data_file self) <> resolve (key_file self)
  /\ resolve (config_file self) <> resolve (key_file self).
Proof.
  intros (Hk & Hd & Hc). rewrite Hk, Hd, Hc.
  rewrite !resolve_join_plain by done.
  repeat split; intros E%child_inj; discriminate E.
Qed.

End FileFrame.

Section VaultRoundTrips.
Import OS Storage.
Context {CL : Cipher} {JL : Json}.

(** Each loader reads the file system at its own path only. *)
Lemma load_credentials_ext self fs1 fs2 :
  path_exists (data_file self) fs2 = path_exists (data_file self) fs1
  /\ read_file (data_file self) fs2 = read_file (data_file self) fs1 ->
  load_credentials self fs2 = load_credentials self fs1.
Proof.
  intros [He Hr]. unfold load_credentials, read_encrypted. by rewrite He, Hr.
Qed.

Lemma load_config_ext self fs1 fs2 :
  path_exists (config_file self) fs2 = path_exists (config_file self) fs1
  /\ read_file (config_file self) fs2 = read_file (config_file self) fs1 ->
  load_config self fs2 = load_config self fs1.
Proof.
  intros [He Hr]. unfold load_config. by rewrite He, Hr.
Qed.

Lemma load_secure_data_ext self key fs1 fs2 :
  path_exists (secure_file self key) fs2 = path_exists (secure_file self key) fs1
  /\ read_file (secure_file self key) fs2 = read_file (secure_file self key) fs1 ->
  load_secure_data self key fs2 = load_secure_data self key fs1.
Proof.
  intros [He Hr]. unfold load_secure_data, read_encrypted. by rewrite He, Hr.
Qed.

(** What a call of [save_secure_data] or [save_credentials] does to the
    file system: nothing, or one write to its file. *)
Lemma save_secure_data_writes self ts iv key data fs ok fs' :
  save_secure_data self ts iv key data fs = (ok, fs') ->
  (ok = false /\ fs' = fs)
  \/ (ok = true
      /\ exists k, cipher self = Some k
         /\ write_encrypted k iv (secure_file self key)
              (secure_envelope key data ts) fs = Ok fs').
Proof.
  unfold save_secure_data. destruct (cipher self) as [k|].
  - destruct (write_encrypted _ _ _ _ _) as [fs1|] eqn:W; intros [= <- <-].
    + right. split; [done|]. by exists k.
    + by left.
  - intros [= <- <-]. by left.
Qed.

Lemma save_credentials_writes self ts iv u p c remember extra fs ok fs' :
  save_credentials self ts iv u p c remember extra fs = (ok, fs') ->
  (ok = false /\ fs' = fs)
  \/ (ok = true
      /\ exists k, cipher self = Some k
         /\ write_encrypted k iv (data_file self)
              (credentials_data u p c remember ts extra) fs = Ok fs').
Proof.
  unfold save_credentials. destruct (cipher self) as [k|].
  - destruct (write_encrypted _ _ _ _ _) as [fs1|] eqn:W; intros [= <- <-].
    + right. split; [done|]. by exists k.
    + by left.
  - intros [= <- <-]. by left.
Qed.

Lemma write_encrypted_other key iv path data fs fs' q :
  write_encrypted key iv path data fs = Ok fs' ->
  resolve q <> resolve path ->
  path_exists q fs' = path_exists q fs /\ read_file q fs' = read_file q fs.
Proof.
  intros (text & plaintext & _ & _ & Hw)%write_encrypted_inv.
  by apply write_file_other with (b := encrypt key iv plaintext).
Qed.



(** X17: [save_secure_data(key, data)] for a key without a slash,
    whatever it answers, changes nothing that the vault returns for
    another such key, nothing [load_config()] returns and, unless the
    key is ['credentials'], nothing [load_credentials()] returns. *)
Theorem save_secure_data_frame self ts iv key data fs ok fs' :
  well_formed self ->
  char_in 47%N key = false ->
  save_secure_data self ts iv key data fs = (ok, fs') ->
  (forall other, char_in 47%N other = false -> other <> key ->
     load_secure_data self other fs' = load_secure_data self other fs)
  /\ load_config self fs' = load_config self fs
  /\ (key <> str_of "credentials" ->
      load_credentials self fs' = load_credentials self fs).
Proof.
  intros Hwf Hk Hs.
  apply save_secure_data_writes in Hs as [[_ ->]|(_ & k & _ & Hw)]; [done|].
  split; [|split].
  - intros other Ho Hne. apply load_secure_data_ext.
    apply (write_encrypted_other _ _ _ _ _ _ _ Hw).
    intros E. apply Hne. by apply (secure_file_inj self).
  - apply load_config_ext. apply (write_encrypted_other _ _ _ _ _ _ _ Hw).
    intros E. by apply (secure_file_not_config self key).
  - intros Hne. apply load_credentials_ext.
    apply (write_encrypted_other _ _ _ _ _ _ _ Hw).
    intros E. by apply (secure_file_not_data self key).
Qed.


(** X19: [save_credentials], whatever it answers, changes nothing
    [load_config()] returns and nothing [load_secure_data(key)] returns
    for a key without a slash other than ['credentials']. *)
Theorem save_credentials_frame self ts iv u p c remember extra fs ok fs' :
  well_formed self ->
  save_credentials self ts iv u p c remember extra fs = (ok, fs') ->
  load_config self fs' = load_config self fs
  /\ forall key, char_in 47%N key = false -> key <> str_of "credentials" ->
       load_secure_data self key fs' = load_secure_data self key fs.
Proof.
  intros Hwf Hs.
  apply save_credentials_writes in Hs as [[_ ->]|(_ & k & _ & Hw)]; [done|].
  split.
  - apply load_config_ext. apply (write_encrypted_other _ _ _ _ _ _ _ Hw).
    intros E. by apply (proj1 (vault_files_distinct self Hwf)).
  - intros key Hk Hne. apply load_secure_data_ext.
    apply (write_encrypted_other _ _ _ _ _ _ _ Hw).
    by apply secure_file_not_data.
Qed.

End VaultRoundTrips.

Section AdditionalData.
Import OS Storage.
Context {CL : Cipher} {JL : Json}.






End AdditionalData.

Section VaultClearing.
Import OS Storage.
Context {CL : Cipher} {JL : Json}.

(** X21: [clear_credentials()] clears the credentials and nothing
    else.  When it answers [True], [load_credentials()] returns [None]
    afterwards; whatever it answers, [load_config()] and
    [load_secure_data(key)], for every key without a slash other than
    ['credentials'], return what they returned before, and the key file
    stays. *)
Theorem clear_credentials_only_credentials self fs ok fs' :
  well_formed self ->
  clear_credentials self fs = (ok, fs') ->
  (ok = true -> load_credentials self fs' = None)
  /\ load_config self fs' = load_config self fs
  /\ (forall key, char_in 47%N key = false -> key <> str_of "credentials" ->
        load_secure_data self key fs' = load_secure_data self key fs)
  /\ path_exists (key_file self) fs' = path_exists (key_file self) fs.
Proof.
  intros Hwf Hrm. unfold clear_credentials in Hrm.
  destruct (vault_files_distinct self Hwf) as (Hdc & Hdk & _).
  split; [|split; [|split]].
  - intros ->. apply load_credentials_no_file. by apply remove_if_exists_true in Hrm.
  - apply load_config_ext. apply (remove_if_exists_other _ _ _ _ _ Hrm). congruence.
  - intros key Hk Hne. apply load_secure_data_ext.
    apply (remove_if_exists_other _ _ _ _ _ Hrm). by apply secure_file_not_data.
  - apply (remove_if_exists_other _ _ _ _ _ Hrm). congruence.
Qed.

(** X22: [clear_config()] clears the configuration and nothing else.
    When it answers [True], [load_config()] returns [None] afterwards;
    whatever it answers, [load_credentials()] and
    [load_secure_data(key)], for every key without a slash, return what
    they returned before, and the key file stays. *)
Theorem clear_config_only_config self fs ok fs' :
  well_formed self ->
  clear_config self fs = (ok, fs') ->
  (ok = true -> load_config self fs' = None)
  /\ load_credentials self fs' = load_credentials self fs
  /\ (forall key, char_in 47%N key = false ->
        load_secure_data self key fs' = load_secure_data self key fs)
  /\ path_exists (key_file self) fs' = path_exists (key_file self) fs.
Proof.
  intros Hwf Hrm. unfold clear_config in Hrm.
  destruct (vault_files_distinct self Hwf) as (Hdc & _ & Hck).
  split; [|split; [|split]].
  - intros ->. apply load_config_no_file. by apply remove_if_exists_true in Hrm.
  - apply load_credentials_ext. apply (remove_if_exists_other _ _ _ _ _ Hrm). congruence.
  - intros key Hk. apply load_secure_data_ext.
    apply (remove_if_exists_other _ _ _ _ _ Hrm). by apply secure_file_not_config.
  - apply (remove_if_exists_other _ _ _ _ _ Hrm). congruence.
Qed.

(** X23: when [delete_secure_data(key)] answers [True],
    [load_secure_data(key)] returns [None] afterwards; and for a key
    without a slash, whatever the call answers, the records under the
    other such keys and the configuration are as before, and so are the
    credentials unless the key is ['credentials']. *)
Theorem delete_secure_data_one_key self key fs ok fs' :
  well_formed self ->
  delete_secure_data self key fs = (ok, fs') ->
  (ok = true -> load_secure_data self key fs' = PNone)
  /\ (char_in 47%N key = false ->
      (forall other, char_in 47%N other = false -> other <> key ->
         load_secure_data self other fs' = load_secure_data self other fs)
      /\ load_config self fs' = load_config self fs
      /\ (key <> str_of "credentials" ->
          load_credentials self fs' = load_credentials self fs)).
Proof.
  intros Hwf Hrm. unfold delete_secure_data in Hrm. split.
  - intros ->. apply load_secure_data_no_file. by apply remove_if_exists_true in Hrm.
  - intros Hk. split; [|split].
    + intros other Ho Hne. apply load_secure_data_ext.
      apply (remove_if_exists_other _ _ _ _ _ Hrm).
      intros E. apply Hne. by apply (secure_file_inj self).
    + apply load_config_ext. apply (remove_if_exists_other _ _ _ _ _ Hrm).
      intros E. by apply (secure_file_not_config self key).
    + intros Hne. apply load_credentials_ext.
      apply (remove_if_exists_other _ _ _ _ _ Hrm).
      intros E. by apply (secure_file_not_data self key).
Qed.

End VaultClearing.

Section VaultConstruction.
Import OS Storage.
Context {CL : Cipher}.

Lemma ancestors_self (f : fileid) : f ∈ ancestors f.
Proof.
  unfold ancestors. apply (proj2 (list_elem_of_In _ _)), (proj2 (in_map_iff _ _ _)).
  exists (length f.2). split.
  - destruct f as [a l]. cbn [fst snd]. by rewrite firstn_all.
  - apply in_seq. lia.
Qed.

Lemma os_makedirs_inv path fs fs1 :
  os_makedirs path fs = Ok fs1 ->
  files fs1 = files fs /\ readonly fs1 = readonly fs
  /\ unreadable fs1 = unreadable fs /\ removals fs1 = removals fs
  /\ is_dir fs1 (resolve path) = true.
Proof.
  unfold os_makedirs. destruct (is_dir fs (resolve path)) eqn:Hd.
  - by intros [= <-].
  - destruct (existsb _ _); [done|]. intros [= <-].
    cbn [files readonly unreadable removals].
    split; [done|]. split; [done|]. split; [done|]. split; [done|].
    apply bool_decide_eq_true_2.
    change (resolve path
            ∈ dirs fs ++ List.filter (fun a => negb (is_dir fs a))
                           (ancestors (resolve path))).
    apply elem_of_app. right.
    apply (proj2 (list_elem_of_In _ _)), (proj2 (filter_In _ _ _)). split.
    + apply (proj1 (list_elem_of_In _ _)), ancestors_self.
    + fold (is_dir fs (resolve path)). by rewrite Hd.
Qed.

Lemma os_makedirs_existing path fs :
  is_dir fs (resolve path) = true -> os_makedirs path fs = Ok fs.
Proof. intros Hd. unfold os_makedirs. by rewrite Hd. Qed.

Lemma get_or_create_key_inv env salt kf fs1 key fs' :
  _get_or_create_key env salt kf fs1 = Ok (key, fs') ->
  lookup_file (files fs') (resolve kf) = Some key
  /\ dirs fs' = dirs fs1
  /\ (forall f, f <> resolve kf ->
        lookup_file (files fs') f = lookup_file (files fs1) f).
Proof.
  assert (_create_new_key env salt kf fs1 = Ok (key, fs') ->
          lookup_file (files fs') (resolve kf) = Some key
          /\ dirs fs' = dirs fs1
          /\ (forall f, f <> resolve kf ->
                lookup_file (files fs') f = lookup_file (files fs1) f)) as Hnew.
  { unfold _create_new_key.
    destruct (write_file kf _ fs1) as [fs2|] eqn:Hw; py_step; [|done].
    intros [= <- <-]. unfold _set_secure_permissions.
    apply write_file_inv in Hw as (Hf & Hd & _).
    rewrite Hf. split; [apply lookup_store_eq|]. split; [done|].
    intros f Hne. by apply lookup_store_ne. }
  unfold _get_or_create_key.
  destruct (path_exists kf fs1); [|exact Hnew].
  destruct (read_file kf fs1) as [k|] eqn:Hr; [|exact Hnew].
  intros [= <- <-]. split; [|done].
  unfold read_file in Hr. destruct (is_unreadable fs1 _); [done|].
  by destruct (lookup_file _ _) as [b|]; [injection Hr as ->|].
Qed.

(** X24: a vault that has been constructed is well formed; its storage
    directory exists, its key file holds the very key its cipher uses,
    a key the cipher accepts, and no other file has been created or
    changed. *)
Theorem init_postconditions env salt storage_path fs self fs' :
  __init__ env salt storage_path fs = Ok (self, fs') ->
  well_formed self
  /\ is_dir fs' (resolve (storage_dir self)) = true
  /\ (exists key,
        cipher self = Some key
        /\ fernet_key_ok key = true
        /\ lookup_file (files fs') (resolve (key_file self)) = Some key)
  /\ (forall f, f <> resolve (key_file self) ->
        lookup_file (files fs') f = lookup_file (files fs) f).
Proof.
  unfold __init__.
  set (dir := match storage_path with Some p => _ | None => _ end).
  destruct (os_makedirs dir fs) as [fs1|] eqn:Hm; py_step; [|done].
  destruct (_get_or_create_key env salt _ fs1) as [[key fs2]|] eqn:Hk;
    py_step; [|done].
  cbn [fst snd]. destruct (fernet_key_ok key) eqn:Hok; [|done].
  intros [= <- <-]. cbn [storage_dir key_file cipher].
  apply os_makedirs_inv in Hm as (Hf & _ & _ & _ & Hd).
  apply get_or_create_key_inv in Hk as (Hl & Hds & Hother).
  split; [by repeat split|]. split; [|split].
  - unfold is_dir in *. by rewrite Hds.
  - by exists key.
  - intros f Hne. rewrite (Hother f Hne). by rewrite Hf.
Qed.

(** X25: the vault persists.  Constructing it again on the file system
    the first construction left, with the key file readable, gives the
    same vault with the same key and changes nothing, whatever salt
    [os.urandom] returns this time: the stored key is read, no new one
    is derived. *)
Theorem init_again_same_vault env salt salt' storage_path fs self fs' :
  __init__ env salt storage_path fs = Ok (self, fs') ->
  is_unreadable fs' (resolve (key_file self)) = false ->
  __init__ env salt' storage_path fs' = Ok (self, fs').
Proof.
  unfold __init__.
  set (dir := match storage_path with Some p => _ | None => _ end).
  destruct (os_makedirs dir fs) as [fs1|] eqn:Hm; py_step; [|done].
  destruct (_get_or_create_key env salt _ fs1) as [[key fs2]|] eqn:Hk;
    py_step; [|done].
  cbn [fst snd]. destruct (fernet_key_ok key) eqn:Hok; [|done].
  intros [= <- <-]. intros Hu.
  change (is_unreadable fs2 (resolve (join dir (str_of "storage.key"))) = false)
    in Hu.
  apply os_makedirs_inv in Hm as (_ & _ & _ & _ & Hd).
  apply get_or_create_key_inv in Hk as (Hl & Hds & _).
  rewrite os_makedirs_existing by (unfold is_dir in *; by rewrite Hds).
  py_step. unfold _get_or_create_key, path_exists, is_file, read_file.
  rewrite Hl, Hu. cbn [orb]. py_step. cbn [fst snd]. by rewrite Hok.
Qed.

(** X26: a key file whose contents the cipher does not accept is not
    replaced: constructing the vault raises [ValueError]. *)
Theorem init_rejects_corrupt_key env salt (p : pystr) fs fs1 content :
  p <> [] ->
  os_makedirs p fs = Ok fs1 ->
  read_file (join p (str_of "storage.key")) fs = Ok content ->
  fernet_key_ok content = false ->
  __init__ env salt (Some p) fs = Raise ValueError.
Proof.
  intros Hp Hm Hr Hbad. unfold __init__.
  assert (truthy (PStr p) = true) as ->.
  { cbn [truthy]. by rewrite bool_decide_eq_false_2. }
  rewrite Hm. py_step.
  apply os_makedirs_inv in Hm as (Hf & _ & Hu & _).
  assert (read_file (join p (str_of "storage.key")) fs1 = Ok content) as Hr1.
  { unfold read_file, is_unreadable in *. by rewrite Hf, Hu. }
  unfold _get_or_create_key.
  assert (path_exists (join p (str_of "storage.key")) fs1 = true) as ->.
  { unfold path_exists, is_file. unfold read_file in Hr1.
    destruct (is_unreadable fs1 _); [done|].
    by destruct (lookup_file _ _). }
  rewrite Hr1. py_step. cbn [fst]. by rewrite Hbad.
Qed.

End VaultConstruction.

Section ConfigTruncation.
Import OS Storage.
Context {JL : Json}.

(** X27: [save_config] opens the file before it serialises.  When the
    configuration file can be opened for writing and the caller's
    dictionary, with its two new entries, cannot be serialised, the call
    answers [False] and the file no longer holds what it held: it holds
    what [json.dump] had written when it raised, or nothing. *)
Theorem save_config_failure_truncates self ts config (heap : Heap) fs d opened e :
  heap !! config = Some (PDict d) ->
  write_file (config_file self) [] fs = Ok opened ->
  json_dumps
    (PDict (dict_set (dict_set d (str_of "version") (PStr (str_of "1.0")))
              (str_of "updated_at") (PStr ts))) = Raise e ->
  exists heap' fs' content,
    save_config self ts config heap fs = (false, heap', fs')
    /\ lookup_file (files fs') (resolve (config_file self)) = Some content
    /\ (content = []
        \/ str_encode
             (json_dump_partial
                (PDict (dict_set (dict_set d (str_of "version") (PStr (str_of "1.0")))
                          (str_of "updated_at") (PStr ts)))) = Ok content).
Proof.
  intros Hd Ho Hj. unfold save_config.
  rewrite (setitem_dict _ _ _ _ _ Hd). cbv beta iota.
  erewrite setitem_dict by apply lookup_insert_eq. cbv beta iota.
  rewrite insert_insert_eq, Ho, lookup_insert_eq.
  cbn [default from_option id]. rewrite Hj.
  pose proof (write_file_inv _ _ _ _ Ho) as (Hf & _).
  destruct (str_encode _) as [data|] eqn:He; py_step.
  - destruct (write_file (config_file self) data opened) as [fs2|] eqn:Hw.
    + eexists _, fs2, data. split; [reflexivity|].
      apply write_file_inv in Hw as (Hf2 & _).
      rewrite Hf2, lookup_store_eq. split; [done|]. by right.
    + eexists _, opened, []. split; [reflexivity|].
      rewrite Hf, lookup_store_eq. split; [done|]. by left.
  - eexists _, opened, []. split; [reflexivity|].
    rewrite Hf, lookup_store_eq. split; [done|]. by left.
Qed.

End ConfigTruncation.

Section LoginScreenFacts.
Import OS Storage App.
Context {CL : Cipher} {JL : Json}.

(** X28: the application never gets the password back.  After
    [login_success] has saved the credentials typed into the login
    screen, [load_saved_credentials] fills the user name field with the
    saved name, stripped and as JSON gives it back, or with
    ['081bel052'] if that is empty, and the password field with the
    empty string: the save is made with [remember] at its default
    [False]. *)
Theorem login_success_then_load self ts iv screen screen0 fs fs' key :
  cipher self = Some key ->
  fernet_key_ok key = true ->
  is_unreadable fs (resolve (data_file self)) = false ->
  login_success self ts iv screen fs = (true, fs') ->
  load_saved_credentials self screen0 fs'
  = {| username_text :=
         if bool_decide (merge_surrogates (strip (username_text screen)) = [])
         then str_of "081bel052"
         else merge_surrogates (strip (username_text screen));
       password_text := [] |}
  /\ (pair_free (strip (username_text screen)) = true ->
      strip (username_text screen) <> [] ->
      username_text (load_saved_credentials self screen0 fs')
      = strip (username_text screen)).
Proof.
  intros Hc Hkey Hu. unfold login_success.
  set (u := strip (username_text screen)).
  set (p := strip (password_text screen)).
  intros (key' & Hc' & Hw)%save_credentials_inv.
  rewrite Hc in Hc'. injection Hc' as <-.
  apply read_after_write_encrypted in Hw as [Hr _]; [|done..].
  rewrite json_image_credentials in Hr.
  assert (load_saved_credentials self screen0 fs'
          = {| username_text :=
                 if bool_decide (merge_surrogates u = [])
                 then str_of "081bel052" else merge_surrogates u;
               password_text := [] |}) as Hload.
  { unfold load_saved_credentials.
    rewrite (load_credentials_of_record _ _ _ _ Hc Hr).
    generalize (merge_surrogates u) as m. intros m.
    destruct m as [|c0 m]; reflexivity. }
  split; [exact Hload|].
  intros Hf Hne. rewrite Hload. cbn [username_text].
  rewrite (merge_surrogates_pair_free _ Hf).
  by rewrite bool_decide_eq_false_2.
Qed.

End LoginScreenFacts.

Section VaultExamples.
Import OS Storage Reference.



Lemma save_secure_data_frame_witness :
  (forall other, char_in 47%N other = false -> other <> str_of "a" ->
     load_secure_data (CL := ref_cipher)
       (JL := ref_json (PDict (secure_envelope (str_of "a") Scenario.secret
                                 Scenario.timestamp)))
       Scenario.vault other
       (Scenario.disk_with_secret (str_of "a") Scenario.disk_ready)
     = load_secure_data (CL := ref_cipher)
         (JL := ref_json (PDict (secure_envelope (str_of "a") Scenario.secret
                                   Scenario.timestamp)))
         Scenario.vault other Scenario.disk_ready)
  /\ load_config
       (JL := ref_json (PDict (secure_envelope (str_of "a") Scenario.secret
                                 Scenario.timestamp)))
       Scenario.vault
       (Scenario.disk_with_secret (str_of "a") Scenario.disk_ready)
     = load_config
         (JL := ref_json (PDict (secure_envelope (str_of "a") Scenario.secret
                                   Scenario.timestamp)))
         Scenario.vault Scenario.disk_ready
  /\ (str_of "a" <> str_of "credentials" ->
      load_credentials (CL := ref_cipher)
        (JL := ref_json (PDict (secure_envelope (str_of "a") Scenario.secret
                                  Scenario.timestamp)))
        Scenario.vault
        (Scenario.disk_with_secret (str_of "a") Scenario.disk_ready)
      = load_credentials (CL := ref_cipher)
          (JL := ref_json (PDict (secure_envelope (str_of "a") Scenario.secret
                                    Scenario.timestamp)))
          Scenario.vault Scenario.disk_ready).
Proof.
  apply (save_secure_data_frame (CL := ref_cipher)
           (JL := ref_json (PDict (secure_envelope (str_of "a") Scenario.secret
                                     Scenario.timestamp)))
           Scenario.vault Scenario.timestamp Scenario.iv (str_of "a")
           Scenario.secret Scenario.disk_ready true).
  - repeat split.
  - reflexivity.
  - vm_compute. reflexivity.
Defined.


Lemma save_credentials_frame_witness :
  load_config (JL := ref_json (Scenario.record true)) Scenario.vault
    (Scenario.disk_saved true)
  = load_config (JL := ref_json (Scenario.record true)) Scenario.vault
      Scenario.disk_ready
  /\ forall key, char_in 47%N key = false -> key <> str_of "credentials" ->
       load_secure_data (CL := ref_cipher) (JL := ref_json (Scenario.record true))
         Scenario.vault key (Scenario.disk_saved true)
       = load_secure_data (CL := ref_cipher) (JL := ref_json (Scenario.record true))
           Scenario.vault key Scenario.disk_ready.
Proof.
  apply (save_credentials_frame (CL := ref_cipher)
           (JL := ref_json (Scenario.record true))
           Scenario.vault Scenario.timestamp Scenario.iv
           (str_of "alice") (str_of "s3cret") (str_of "Main") true None
           Scenario.disk_ready true).
  - repeat split.
  - vm_compute. reflexivity.
Defined.


(** On the scenario: saved with [remember=False] and
    [additional_data={'remember': True, 'note': 'lab'}], the record
    comes back with its password. *)
Lemma scenario_additional_data_remember :
  exists d,
    load_credentials (CL := ref_cipher) (JL := ref_json KeyScenario.record_extra)
      Scenario.vault KeyScenario.disk_saved_extra = Some d
    /\ dict_get d (str_of "password") = Some (PStr (str_of "s3cret"))
    /\ dict_get d (str_of "remember") = Some (PBool true)
    /\ dict_get d (str_of "note") = Some (PStr (str_of "lab")).
Proof. eexists. vm_compute. repeat split. Qed.

Lemma clear_credentials_only_credentials_witness :
  (true = true ->
   load_credentials (CL := ref_cipher) (JL := ref_json (Scenario.record true))
     Scenario.vault (clear_credentials Scenario.vault (Scenario.disk_saved true)).2
   = None)
  /\ load_config (JL := ref_json (Scenario.record true)) Scenario.vault
       (clear_credentials Scenario.vault (Scenario.disk_saved true)).2
     = load_config (JL := ref_json (Scenario.record true)) Scenario.vault
         (Scenario.disk_saved true)
  /\ (forall key, char_in 47%N key = false -> key <> str_of "credentials" ->
        load_secure_data (CL := ref_cipher) (JL := ref_json (Scenario.record true))
          Scenario.vault key
          (clear_credentials Scenario.vault (Scenario.disk_saved true)).2
        = load_secure_data (CL := ref_cipher)
            (JL := ref_json (Scenario.record true))
            Scenario.vault key (Scenario.disk_saved true))
  /\ path_exists (key_file Scenario.vault)
       (clear_credentials Scenario.vault (Scenario.disk_saved true)).2
     = path_exists (key_file Scenario.vault) (Scenario.disk_saved true).
Proof.
  apply (clear_credentials_only_credentials (CL := ref_cipher)
           (JL := ref_json (Scenario.record true))
           Scenario.vault (Scenario.disk_saved true) true
           (clear_credentials Scenario.vault (Scenario.disk_saved true)).2).
  - repeat split.
  - vm_compute. reflexivity.
Defined.

Lemma clear_config_only_config_witness :
  (true = true ->
   load_config (JL := ref_json (PDict Scenario.saved_config)) Scenario.vault
     (clear_config Scenario.vault Scenario.disk_with_config).2 = None)
  /\ load_credentials (CL := ref_cipher)
       (JL := ref_json (PDict Scenario.saved_config)) Scenario.vault
       (clear_config Scenario.vault Scenario.disk_with_config).2
     = load_credentials (CL := ref_cipher)
         (JL := ref_json (PDict Scenario.saved_config)) Scenario.vault
         Scenario.disk_with_config
  /\ (forall key, char_in 47%N key = false ->
        load_secure_data (CL := ref_cipher)
          (JL := ref_json (PDict Scenario.saved_config)) Scenario.vault key
          (clear_config Scenario.vault Scenario.disk_with_config).2
        = load_secure_data (CL := ref_cipher)
            (JL := ref_json (PDict Scenario.saved_config)) Scenario.vault key
            Scenario.disk_with_config)
  /\ path_exists (key_file Scenario.vault)
       (clear_config Scenario.vault Scenario.disk_with_config).2
     = path_exists (key_file Scenario.vault) Scenario.disk_with_config.
Proof.
  apply (clear_config_only_config (CL := ref_cipher)
           (JL := ref_json (PDict Scenario.saved_config))
           Scenario.vault Scenario.disk_with_config true
           (clear_config Scenario.vault Scenario.disk_with_config).2).
  - repeat split.
  - vm_compute. reflexivity.
Defined.

(** On the scenario [clear_credentials()] answers [True] and the saved
    record is gone. *)
Lemma scenario_clear_credentials :
  (clear_credentials Scenario.vault (Scenario.disk_saved true)).1 = true
  /\ load_credentials (CL := ref_cipher) (JL := ref_json (Scenario.record true))
       Scenario.vault (clear_credentials Scenario.vault (Scenario.disk_saved true)).2
     = None
  /\ load_credentials (CL := ref_cipher) (JL := ref_json (Scenario.record true))
       Scenario.vault (Scenario.disk_saved true) <> None.
Proof. vm_compute. repeat split. discriminate. Qed.

Lemma delete_secure_data_one_key_witness :
  (true = true ->
   load_secure_data (CL := ref_cipher)
     (JL := ref_json (PDict (secure_envelope (str_of "a") Scenario.secret
                               Scenario.timestamp)))
     Scenario.vault (str_of "a")
     (delete_secure_data Scenario.vault (str_of "a")
        (Scenario.disk_with_secret (str_of "a") Scenario.disk_ready)).2 = PNone)
  /\ (char_in 47%N (str_of "a") = false ->
      (forall other, char_in 47%N other = false -> other <> str_of "a" ->
         load_secure_data (CL := ref_cipher)
           (JL := ref_json (PDict (secure_envelope (str_of "a") Scenario.secret
                                     Scenario.timestamp)))
           Scenario.vault other
           (delete_secure_data Scenario.vault (str_of "a")
              (Scenario.disk_with_secret (str_of "a") Scenario.disk_ready)).2
         = load_secure_data (CL := ref_cipher)
             (JL := ref_json (PDict (secure_envelope (str_of "a") Scenario.secret
                                       Scenario.timestamp)))
             Scenario.vault other
             (Scenario.disk_with_secret (str_of "a") Scenario.disk_ready))
      /\ load_config
           (JL := ref_json (PDict (secure_envelope (str_of "a") Scenario.secret
                                     Scenario.timestamp)))
           Scenario.vault
           (delete_secure_data Scenario.vault (str_of "a")
              (Scenario.disk_with_secret (str_of "a") Scenario.disk_ready)).2
         = load_config
             (JL := ref_json (PDict (secure_envelope (str_of "a") Scenario.secret
                                       Scenario.timestamp)))
             Scenario.vault
             (Scenario.disk_with_secret (str_of "a") Scenario.disk_ready)
      /\ (str_of "a" <> str_of "credentials" ->
          load_credentials (CL := ref_cipher)
            (JL := ref_json (PDict (secure_envelope (str_of "a") Scenario.secret
                                      Scenario.timestamp)))
            Scenario.vault
            (delete_secure_data Scenario.vault (str_of "a")
               (Scenario.disk_with_secret (str_of "a") Scenario.disk_ready)).2
          = load_credentials (CL := ref_cipher)
              (JL := ref_json (PDict (secure_envelope (str_of "a") Scenario.secret
                                        Scenario.timestamp)))
              Scenario.vault
              (Scenario.disk_with_secret (str_of "a") Scenario.disk_ready))).
Proof.
  apply (delete_secure_data_one_key (CL := ref_cipher)
           (JL := ref_json (PDict (secure_envelope (str_of "a") Scenario.secret
                                     Scenario.timestamp)))
           Scenario.vault (str_of "a")
           (Scenario.disk_with_secret (str_of "a") Scenario.disk_ready) true).
  - repeat split.
  - vm_compute. reflexivity.
Defined.

Lemma init_postconditions_witness :
  well_formed Scenario.vault
  /\ is_dir Scenario.disk_ready (resolve (storage_dir Scenario.vault)) = true
  /\ (exists key,
        cipher Scenario.vault = Some key
        /\ fernet_key_ok (Cipher := ref_cipher) key = true
        /\ lookup_file (files Scenario.disk_ready) (resolve (key_file Scenario.vault))
           = Some key)
  /\ (forall f, f <> resolve (key_file Scenario.vault) ->
        lookup_file (files Scenario.disk_ready) f
        = lookup_file (files Scenario.disk) f).
Proof.
  apply (init_postconditions (CL := ref_cipher) Scenario.env Scenario.salt
           (Some (str_of "/vault")) Scenario.disk Scenario.vault
           Scenario.disk_ready).
  vm_compute. reflexivity.
Defined.

Lemma init_again_same_vault_witness :
  __init__ (CL := ref_cipher) Scenario.env [] (Some (str_of "/vault"))
    Scenario.disk_ready
  = Ok (Scenario.vault, Scenario.disk_ready).
Proof.
  apply (init_again_same_vault (CL := ref_cipher) Scenario.env Scenario.salt []
           (Some (str_of "/vault")) Scenario.disk Scenario.vault
           Scenario.disk_ready).
  - vm_compute. reflexivity.
  - reflexivity.
Defined.

Lemma init_rejects_corrupt_key_witness :
  __init__ (CL := strict_cipher) Scenario.env Scenario.salt
    (Some (str_of "/vault")) KeyScenario.disk_bad_key
  = Raise ValueError.
Proof.
  apply (init_rejects_corrupt_key (CL := strict_cipher) Scenario.env
           Scenario.salt (str_of "/vault") KeyScenario.disk_bad_key
           KeyScenario.disk_bad_key [1; 2; 3]%N).
  - discriminate.
  - vm_compute. reflexivity.
  - vm_compute. reflexivity.
  - reflexivity.
Defined.

(** With no key file the same constructor makes one. *)
Lemma scenario_strict_init :
  exists self fs',
    __init__ (CL := strict_cipher) Scenario.env Scenario.salt
      (Some (str_of "/vault")) Scenario.disk = Ok (self, fs')
    /\ is_file fs' (resolve (key_file self)) = true.
Proof. eexists _, _. vm_compute. repeat split. Qed.

Lemma save_config_failure_truncates_witness :
  exists heap' fs' content,
    save_config (JL := ref_json PNone) Scenario.vault Scenario.timestamp
      0%nat Scenario.caller_heap Scenario.disk_with_config = (false, heap', fs')
    /\ lookup_file (files fs') (resolve (config_file Scenario.vault)) = Some content
    /\ (content = []
        \/ str_encode (Json := ref_json PNone)
             (json_dump_partial (Json := ref_json PNone)
                (PDict (dict_set
                          (dict_set Scenario.caller_config (str_of "version")
                             (PStr (str_of "1.0")))
                          (str_of "updated_at") (PStr Scenario.timestamp))))
           = Ok content).
Proof.
  eapply (save_config_failure_truncates (JL := ref_json PNone) Scenario.vault
            Scenario.timestamp 0%nat Scenario.caller_heap
            Scenario.disk_with_config Scenario.caller_config).
  - reflexivity.
  - vm_compute. reflexivity.
  - vm_compute. reflexivity.
Defined.

(** On the scenario the configuration saved before is lost: the file
    is left empty. *)
Lemma scenario_failed_save_config_empties :
  lookup_file (files Scenario.disk_with_config) (resolve (config_file Scenario.vault))
  = Some (str_of "{}")
  /\ lookup_file
       (files (save_config (JL := ref_json PNone) Scenario.vault Scenario.timestamp
                 0%nat Scenario.caller_heap Scenario.disk_with_config).2)
       (resolve (config_file Scenario.vault))
     = Some [].
Proof. vm_compute. repeat split. Qed.

Lemma login_success_then_load_witness :
  App.load_saved_credentials (CL := ref_cipher)
    (JL := ref_json KeyScenario.record_login)
    Scenario.vault KeyScenario.screen KeyScenario.disk_after_login
  = {| App.username_text := str_of "alice"; App.password_text := [] |}
  /\ App.username_text
       (App.load_saved_credentials (CL := ref_cipher)
          (JL := ref_json KeyScenario.record_login)
          Scenario.vault KeyScenario.screen KeyScenario.disk_after_login)
     = strip (App.username_text KeyScenario.screen).
Proof.
  destruct (login_success_then_load (CL := ref_cipher)
              (JL := ref_json KeyScenario.record_login)
              Scenario.vault Scenario.timestamp Scenario.iv KeyScenario.screen
              KeyScenario.screen Scenario.disk_ready KeyScenario.disk_after_login
              Scenario.key) as [Hload Hname].
  - reflexivity.
  - reflexivity.
  - reflexivity.
  - vm_compute. reflexivity.
  - split; [exact Hload|]. apply Hname.
    + vm_compute. reflexivity.
    + vm_compute. discriminate.
Defined.

(** On the scenario: [' alice '] and ['s3cret'] were typed; the screen
    is filled with ['alice'] and an empty password. *)
Lemma scenario_login_prefill :
  App.load_saved_credentials (CL := ref_cipher)
    (JL := ref_json KeyScenario.record_login)
    Scenario.vault KeyScenario.screen KeyScenario.disk_after_login
  = {| App.username_text := str_of "alice"; App.password_text := [] |}.
Proof. vm_compute. reflexivity. Qed.

End VaultExamples.
